(** * cli-validator: command tree, metadata lookup and required-argument policy

    A shallow embedding of
      - [cli_validator/exceptions.py]            (module [Exceptions]),
      - [cli_validator/cmd_meta/loader]          (module [Loader]:
        [_attach_sub_group_to_node], [build_command_tree]),
      - [cli_validator/cmd_meta/validator.py]    (module [Validator]:
        [load_command_meta], [build_parser], [validate_command]),
    followed by the properties proved about them.

    Python values are modelled as follows.  A [str] is a [string] (a
    sequence of 8-bit code points).  A [dict] that the code iterates is an
    association list in insertion order ([dict V]); a [dict] that is only
    indexed by key (one parameter's metadata, an argparse [Namespace]) is a
    [gmap string _].  A raised exception is the [Raise] case of [result].
    A metadata document has the shape the loader reads it in: a module
    name, commands and sub-groups, and a list of parameters per command. *)

From Stdlib Require Import Ascii ZArith Lia.
From stdpp Require Import gmap list strings.

Set Warnings "-register-all".

(** ** exceptions.py *)

Module Exceptions.

(** The classes of [exceptions.py], with the builtin classes that the
    embedded code can raise ([KeyError], [IndexError], [TypeError],
    [AttributeError]) and their builtin bases. *)
Inductive py_class : Set :=
| Exception
| LookupError
| KeyError
| IndexError
| TypeError
| AttributeError
| UnknownTypeException
| ValidateFailureException
| ParserFailureException
| ParserHelpException
| EmptyCommandException
| NonAzCommandException
| CommandTreeCorruptedException
| UnknownCommandException.

#[global] Instance py_class_eq_dec : EqDecision py_class.
Proof. solve_decision. Defined.

(** The base named in each [class C(Base)] statement. *)
Definition base (c : py_class) : option py_class :=
  match c with
  | Exception => None
  | LookupError => Some Exception
  | KeyError => Some LookupError
  | IndexError => Some LookupError
  | TypeError => Some Exception
  | AttributeError => Some Exception
  | UnknownTypeException => Some Exception
  | ValidateFailureException => Some Exception
  | ParserFailureException => Some ValidateFailureException
  | ParserHelpException => Some ValidateFailureException
  | EmptyCommandException => Some ValidateFailureException
  | NonAzCommandException => Some ValidateFailureException
  | CommandTreeCorruptedException => Some ValidateFailureException
  | UnknownCommandException => Some ValidateFailureException
  end.

(** [issubclass c d]: [d] is [c] or one of its bases, transitively.  The
    fuel bounds the length of a chain of bases; there are 14 classes. *)
Fixpoint issubclass_fuel (fuel : nat) (c d : py_class) : bool :=
  bool_decide (c = d) ||
  match fuel with
  | O => false
  | S fuel' =>
      match base c with
      | Some b => issubclass_fuel fuel' b d
      | None => false
      end
  end.

Definition issubclass (c d : py_class) : bool := issubclass_fuel 14 c d.

(** An exception object: its class and, for the classes of
    [exceptions.py], its [msg] attribute. *)
Record exn : Set := Exn { exn_class : py_class; exn_msg : string }.

(** [except handler:] catches [e]. *)
Definition caught_by (handler : py_class) (e : exn) : bool :=
  issubclass (exn_class e) handler.

(** The builtin exceptions the interpreter raises.  Their text is the
    interpreter's and is not modelled: a [KeyError] carries the missing
    key, an [AttributeError] the missing name, the others nothing. *)
Definition builtin_KeyError (key : string) : exn := Exn KeyError key.

Definition builtin_AttributeError (name : string) : exn := Exn AttributeError name.

Definition builtin_TypeError : exn := Exn TypeError "".

Definition builtin_IndexError : exn := Exn IndexError "".

(** The constructors [__init__] of [exceptions.py]. *)
Definition new_UnknownTypeException (typ : string) : exn :=
  Exn UnknownTypeException ("Unknown Type: " +:+ typ +:+ ".").

Definition new_ValidateFailureException (msg : string) : exn :=
  Exn ValidateFailureException msg.

Definition new_ParserFailureException (msg : string) : exn :=
  Exn ParserFailureException msg.

Definition new_ParserHelpException : exn :=
  Exn ParserHelpException
      "The user inputs `-h/--help`. This is not a real exception.".

Definition new_EmptyCommandException : exn :=
  Exn EmptyCommandException "The input command is empty.".

Definition new_NonAzCommandException : exn :=
  Exn NonAzCommandException "The input command is not an Azure CLI command.".

Definition new_CommandTreeCorruptedException (tree_type : string) : exn :=
  Exn CommandTreeCorruptedException
      ("The " +:+ tree_type +:+
       " CommandTree is Corrupted. Fail to find parent module/extension of command.").

Definition new_UnknownCommandException (command : string) : exn :=
  Exn UnknownCommandException ("Unknown Command: " +:+ command +:+ ".").

End Exceptions.

Export Exceptions.

(** ** Results of fallible code *)

Inductive result (A : Type) : Type :=
| Ok (a : A)
| Raise (e : exn).

Arguments Ok {A} a.
Arguments Raise {A} e.

Definition rbind {A B} (r : result A) (k : A -> result B) : result B :=
  match r with
  | Ok a => k a
  | Raise e => Raise e
  end.

Declare Scope result_scope.
Delimit Scope result_scope with result.
Notation "x <- r ;; k" := (rbind r (fun x => k))
  (at level 100, r at next level, right associativity) : result_scope.

(** A [for] loop whose body may raise: the body threads the loop's
    variables [acc] from one iteration to the next. *)
Definition for_each {A X} (body : A -> X -> result A)
  : list X -> A -> result A :=
  fix loop (xs : list X) (acc : A) : result A :=
    match xs with
    | [] => Ok acc
    | x :: xs' => rbind (body acc x) (loop xs')
    end.

(** ** Python strings *)

Module PyStr.

(** The code points below 256 that [str.split()] treats as whitespace. *)
Definition is_space (c : ascii) : bool :=
  let n := nat_of_ascii c in
  ((9 <=? n) && (n <=? 13)) || ((28 <=? n) && (n <=? 32))
  || (n =? 133) || (n =? 160).

(** [split_from cur s]: the words of [s], where [cur] holds (reversed) the
    characters of the word being read. *)
Fixpoint split_from (cur : list ascii) (s : string) : list string :=
  let flush := match cur with
               | [] => []
               | _ => [String.string_of_list_ascii (rev cur)]
               end in
  match s with
  | EmptyString => flush
  | String c s' =>
      if is_space c then flush ++ split_from [] s'
      else split_from (c :: cur) s'
  end.

(** [s.split()]: the maximal runs of non-whitespace characters. *)
Definition split (s : string) : list string := split_from [] s.

(** [sep.join(words)]. *)
Definition join (sep : string) (words : list string) : string :=
  String.concat sep words.

(** [sub in s]: [sub] occurs in [s]. *)
Fixpoint contains (sub s : string) : bool :=
  String.prefix sub s
  || match s with
     | EmptyString => false
     | String _ s' => contains sub s'
     end.

(** [list(s)]: the one-character strings of [s]. *)
Fixpoint chars (s : string) : list string :=
  match s with
  | EmptyString => []
  | String c s' => String c EmptyString :: chars s'
  end.

End PyStr.

(** ** JSON values and dictionaries *)

(** What [json.load] returns, and what argparse stores in a [Namespace]:
    [None], booleans, integers, strings, lists and dicts. *)
Inductive json : Type :=
| JNull
| JBool (b : bool)
| JNum (n : Z)
| JStr (s : string)
| JArr (items : list json)
| JObj (fields : list (string * json)).

(** A Python [dict] with [str] keys, in insertion order. *)
Definition dict (V : Type) : Type := list (string * V).

(** [d.get(k)]: the value stored under [k], if any. *)
Fixpoint dict_get {V} (k : string) (d : dict V) : option V :=
  match d with
  | [] => None
  | (k', v) :: d' => if bool_decide (k' = k) then Some v else dict_get k d'
  end.

(** [k in d]. *)
Definition dict_has {V} (k : string) (d : dict V) : bool :=
  match dict_get k d with Some _ => true | None => false end.

(** [d[k] = v]: an existing key keeps its place, a new key goes last. *)
Fixpoint dict_set {V} (k : string) (v : V) (d : dict V) : dict V :=
  match d with
  | [] => [(k, v)]
  | (k', v') :: d' =>
      if bool_decide (k' = k) then (k', v) :: d'
      else (k', v') :: dict_set k v d'
  end.

(** [d[k]], which raises [KeyError] on a missing key. *)
Definition dict_getitem {V} (d : dict V) (k : string) : result V :=
  match dict_get k d with
  | Some v => Ok v
  | None => Raise (builtin_KeyError k)
  end.

(** [d.keys()], [d.values()]. *)
Definition dict_keys {V} (d : dict V) : list string := map fst d.
Definition dict_values {V} (d : dict V) : list V := map snd d.

(** ** cmd_meta/loader: the command tree *)

Module Loader.

(** One parameter's metadata: a JSON object read by key ([name],
    [options], [required], [id_part], ...). *)
Abbreviation param_meta := (gmap string json).

(** A command's metadata; the code reads its ["parameters"]. *)
Record command_meta : Type := CommandMeta { parameters : list param_meta }.

(** A sub-group of a module's metadata: its ["commands"] and its
    ["sub_groups"], each keyed by the space-joined path. *)
Inductive sub_group : Type :=
| SubGroup (commands : dict command_meta) (sub_groups : dict sub_group).

Definition commands (g : sub_group) : dict command_meta :=
  match g with SubGroup c _ => c end.

Definition sub_groups (g : sub_group) : dict sub_group :=
  match g with SubGroup _ s => s end.

(** A module's metadata document [az_<module>_meta.json]: its
    ["module_name"], and the top-level ["commands"] and ["sub_groups"]. *)
Record module_meta : Type :=
  ModuleMeta { module_name : string; top : sub_group }.

(** A value stored in the command tree: the owning module's name (a
    [str]) or a nested [dict] of children. *)
Inductive tree_node : Type :=
| Owner (module : string)
| Node (children : dict tree_node).

(** [name.split()[-1]]; indexing an empty list raises [IndexError]. *)
Definition last_token (name : string) : result string :=
  match rev (PyStr.split name) with
  | [] => Raise builtin_IndexError
  | t :: _ => Ok t
  end.

(** [tree_node[key] = value].  A [str] supports no item assignment. *)
Definition setitem (tree_node : tree_node) (key : string) (value : Loader.tree_node)
  : result Loader.tree_node :=
  match tree_node with
  | Node children => Ok (Node (dict_set key value children))
  | Owner _ => Raise builtin_TypeError
  end.

(** [tree_node[key]].  A [str] is not indexed by a [str]. *)
Definition getitem (tree_node : tree_node) (key : string) : result Loader.tree_node :=
  match tree_node with
  | Node children => dict_getitem children key
  | Owner _ => Raise builtin_TypeError
  end.

(** The first loop of [_attach_sub_group_to_node]:
    [for name, command in sub_group["commands"].items():
         tree_node[name.split()[-1]] = module]. *)
Definition attach_commands (cmds : dict command_meta) (tree_node : tree_node)
    (module : string) : result Loader.tree_node :=
  for_each (fun tree_node '(name, _) =>
              key <- last_token name ;;
              setitem tree_node key (Owner module))%result
           cmds tree_node.

(** [key in tree_node]: a key of a [dict], a substring of a [str]. *)
Definition contains (tree_node : tree_node) (key : string) : bool :=
  match tree_node with
  | Node children => dict_has key children
  | Owner owner => PyStr.contains key owner
  end.

(** One iteration of the second loop, with [attach] the recursive call:
    [name = name.split()[-1]
     if name not in tree_node: tree_node[name] = {}
     next_tree_node = tree_node[name]
     _attach_sub_group_to_node(sub_group, next_tree_node, module)].
    [next_tree_node] aliases the child stored under [name], so what the
    recursive call does to it in place is stored back under [name]. *)
Definition attach_sub_group_step
    (attach : sub_group -> tree_node -> result tree_node)
    (tree_node : tree_node) (name : string) (sub : sub_group)
  : result Loader.tree_node :=
  (name <- last_token name ;;
   tree_node <- (if negb (contains tree_node name)
                 then setitem tree_node name (Node [])
                 else Ok tree_node) ;;
   next_tree_node <- getitem tree_node name ;;
   next_tree_node <- attach sub next_tree_node ;;
   setitem tree_node name next_tree_node)%result.

(** [_attach_sub_group_to_node(sub_group, tree_node, module)]; the result
    is [tree_node] after the in-place updates. *)
Fixpoint _attach_sub_group_to_node (sub_group : sub_group) (tree_node : tree_node)
    (module : string) {struct sub_group} : result Loader.tree_node :=
  match sub_group with
  | SubGroup cmds subs =>
      (tree_node <- attach_commands cmds tree_node module ;;
       for_each
         (fun tree_node '(name, sub) =>
            attach_sub_group_step
              (fun sub next => _attach_sub_group_to_node sub next module)
              tree_node name sub)
         subs tree_node)%result
  end.

(** [build_command_tree(metas)]: [metas.values()] in insertion order. *)
Definition build_command_tree (metas : dict module_meta) : result tree_node :=
  for_each (fun tree meta =>
              let module := module_name meta in
              _attach_sub_group_to_node (top meta) tree module)
           (dict_values metas) (Node []).

End Loader.

(** ** cmd_meta/validator.py *)

Module Validator.

Import Loader.

(** An argparse [Namespace]: its attributes by name. *)
Abbreviation Namespace := (gmap string json).

(** What [parse_command] returns: [cmd.signature], [cmd.module] and
    [cmd.parameters]. *)
Record ParsedCommand : Type :=
  { cmd_signature : list string;
    cmd_module : string;
    cmd_parameters : list string }.

(** The object a call hands back to its caller. *)
Inductive py_value : Type :=
| PyNone
| PyNamespace (namespace : Namespace).

(** The loop of [load_command_meta], run for [idx] in [range(depth)]:
    [meta = meta['sub_groups'][' '.join(signature[:idx + 1])]]. *)
Definition descend (signature : list string) (depth : nat) (meta : sub_group)
  : result sub_group :=
  for_each (fun meta idx =>
              dict_getitem (sub_groups meta)
                           (PyStr.join " " (take (idx + 1) signature)))
           (seq 0 depth) meta.

(** [load_command_meta(signature, module)], reading [self.metas]:
    [module_meta = self.metas[f'az_{module}_meta.json']
     meta = module_meta
     for idx in range(len(signature) - 1):
         meta = meta['sub_groups'][' '.join(signature[:idx + 1])]
     return meta['commands'][' '.join(signature)]]. *)
Definition load_command_meta (metas : dict module_meta)
    (signature : list string) (module : string) : result command_meta :=
  (module_meta <- dict_getitem metas ("az_" +:+ module +:+ "_meta.json") ;;
   let meta := top module_meta in
   meta <- descend signature (length signature - 1) meta ;;
   dict_getitem (commands meta) (PyStr.join " " signature))%result.

(** [value is None]. *)
Definition is_none (value : json) : bool :=
  match value with JNull => true | _ => false end.

(** [namespace.<name>] and [namespace.__getattribute__(name)]. *)
Definition getattribute (namespace : Namespace) (name : string) : result json :=
  match namespace !! name with
  | Some value => Ok value
  | None => Raise (builtin_AttributeError name)
  end.

(** [key in param] and [param[key]]. *)
Definition param_has (key : string) (param : param_meta) : bool :=
  match param !! key with Some _ => true | None => false end.

Definition param_getitem (param : param_meta) (key : string) : result json :=
  match param !! key with
  | Some value => Ok value
  | None => Raise (builtin_KeyError key)
  end.

(** An attribute name must be a [str]. *)
Definition attribute_name (value : json) : result string :=
  match value with
  | JStr s => Ok s
  | _ => Raise builtin_TypeError
  end.

(** The items [str.join] reads from a list: each must be a [str]. *)
Fixpoint str_items (items : list json) : result (list string) :=
  match items with
  | [] => Ok []
  | JStr s :: items' => (rest <- str_items items' ;; Ok (s :: rest))%result
  | _ :: _ => Raise builtin_TypeError
  end.

(** [sep.join(value)]: a list yields its items, a [str] its characters, a
    [dict] its keys; the other values are not iterable. *)
Definition join_value (sep : string) (value : json) : result string :=
  match value with
  | JArr items => (words <- str_items items ;; Ok (PyStr.join sep words))%result
  | JStr s => Ok (PyStr.join sep (PyStr.chars s))
  | JObj fields => Ok (PyStr.join sep (map fst fields))
  | _ => Raise builtin_TypeError
  end.

(** The test and the append that both loops of [validate_command] share:
    [if 'required' in param and
        namespace.__getattribute__(param['name']) is None:
         missing_args.append('/'.join(param['options']))]. *)
Definition append_if_missing (param : param_meta) (namespace : Namespace)
    (missing_args : list string) : result (list string) :=
  if param_has "required" param then
    (name <- param_getitem param "name" ;;
     name <- attribute_name name ;;
     value <- getattribute namespace name ;;
     if is_none value then
       options <- param_getitem param "options" ;;
       spelling <- join_value "/" options ;;
       Ok (missing_args ++ [spelling])
     else Ok missing_args)%result
  else Ok missing_args.

(** The required-argument policy of [validate_command]: from
    [missing_args = []] to the end of the two loops. *)
Definition missing_args (parameters : list param_meta) (namespace : Namespace)
  : result (list string) :=
  (ids <- getattribute namespace "ids" ;;
   if negb (is_none ids) then
     for_each (fun missing_args param =>
                 if param_has "id_part" param then Ok missing_args
                 else append_if_missing param namespace missing_args)
              parameters []
   else
     for_each (fun missing_args param =>
                 append_if_missing param namespace missing_args)
              parameters [])%result.

(** The message of the exception raised for missing arguments:
    [f"the following arguments are required: {', '.join(missing_args)} "]. *)
Definition required_message (missing_args : list string) : string :=
  "the following arguments are required: " +:+
  PyStr.join ", " missing_args +:+ " ".

Section Pipeline.

(** The types of [CLIParser.create_global_parser()] and of a [CLIParser]. *)
Context {GlobalParser CLIParser : Type}.

(** A [CommandMetaValidator] object: the attributes [__init__] sets. *)
Record CommandMetaValidator : Type :=
  { metas : dict module_meta;
    command_tree : tree_node;
    _global_parser : GlobalParser }.

(** A method body: it may read and change [self], and returns or raises. *)
Definition M (A : Type) : Type :=
  CommandMetaValidator -> result A * CommandMetaValidator.

Definition ret {A} (a : A) : M A := fun self => (Ok a, self).

Definition raise {A} (e : exn) : M A := fun self => (Raise e, self).

Definition bind {A B} (m : M A) (k : A -> M B) : M B :=
  fun self =>
    match m self with
    | (Ok a, self') => k a self'
    | (Raise e, self') => (Raise e, self')
    end.

(** Reading an attribute of [self]. *)
Definition read {A} (attribute : CommandMetaValidator -> A) : M A :=
  fun self => (Ok (attribute self), self).

(** Running code that touches no attribute of [self]. *)
Definition lift {A} (r : result A) : M A := fun self => (r, self).

(** The code this file calls and [src/] does not hold:
    [cli_validator.cmd_tree.parse_command] and the class
    [cli_validator.cmd_meta.parser.CLIParser] (its constructor with
    [parents] and [add_help], [load_meta] and [parse_args]).  They receive
    references to the tree, to the global parser and to a command's
    metadata, so each is a method body in [M]. *)
Class Collaborators : Type :=
  { parse_command : tree_node -> string -> bool -> M ParsedCommand;
    CLIParser_init : list GlobalParser -> bool -> M CLIParser;
    load_meta : CLIParser -> command_meta -> M CLIParser;
    parse_args : CLIParser -> list string -> M Namespace }.

Context {collaborators : Collaborators}.

Declare Scope method_scope.
Delimit Scope method_scope with method.
Notation "x <- m ;; k" := (bind m (fun x => k))
  (at level 100, m at next level, right associativity) : method_scope.

(** [build_parser(meta)]:
    [parser = CLIParser(parents=[self._global_parser], add_help=False)
     parser.load_meta(meta)
     return parser]. *)
Definition build_parser (meta : command_meta) : M CLIParser :=
  (global_parser <- read _global_parser ;;
   parser <- CLIParser_init [global_parser] false ;;
   parser <- load_meta parser meta ;;
   ret parser)%method.

(** [validate_command(command, comments=True)].  The body ends without a
    [return] statement. *)
Definition validate_command (command : string) (comments : bool) : M py_value :=
  (command_tree <- read command_tree ;;
   cmd <- parse_command command_tree command comments ;;
   metas <- read metas ;;
   meta <- lift (load_command_meta metas (cmd_signature cmd) (cmd_module cmd)) ;;
   parser <- build_parser meta ;;
   namespace <- parse_args parser (cmd_parameters cmd) ;;
   missing_args <- lift (missing_args (parameters meta) namespace) ;;
   if 0 <? length missing_args then
     raise (new_ValidateFailureException (required_message missing_args))
   else ret PyNone)%method.

End Pipeline.

Arguments CommandMetaValidator : clear implicits.
Arguments M : clear implicits.
Arguments Collaborators : clear implicits.

End Validator.

Export Validator.

(** ** The vocabulary of the required-argument policy *)

Module Policy.

Import Loader.

(** A parameter is marked [key] when its metadata has that key. *)
Definition marked (key : string) (param : param_meta) : bool :=
  bool_decide (is_Some (param !! key)).

(** The parameter's value in the namespace is absent ([None]). *)
Definition value_absent (namespace : Namespace) (param : param_meta) : bool :=
  match param !! "name" with
  | Some (JStr name) =>
      match namespace !! name with
      | Some value => is_none value
      | None => false
      end
  | _ => false
  end.

(** The accepted option spellings of a parameter, in their order. *)
Definition option_spellings (param : param_meta) : list string :=
  match param !! "options" with
  | Some (JArr items) =>
      omap (fun item => match item with JStr s => Some s | _ => None end) items
  | _ => []
  end.

(** How a missing parameter is recorded. *)
Definition recorded (param : param_meta) : string :=
  PyStr.join "/" (option_spellings param).

Definition is_str (value : json) : bool :=
  match value with JStr _ => true | _ => false end.

(** The shape the data model gives a parameter and its namespace: a
    [name] that is a string and a slot of the namespace, and [options]
    that is a list of strings. *)
Definition well_formed_param (namespace : Namespace) (param : param_meta) : bool :=
  match param !! "name", param !! "options" with
  | Some (JStr name), Some (JArr items) =>
      bool_decide (is_Some (namespace !! name)) && forallb is_str items
  | _, _ => false
  end.

(** The policy in the words of its description, when the [ids] slot is
    present: required, not an id part, and absent. *)
Definition missing_with_ids (parameters : list param_meta) (namespace : Namespace)
  : list param_meta :=
  List.filter (fun param => marked "required" param
                            && negb (marked "id_part" param)
                            && value_absent namespace param)
              parameters.

(** The same when the [ids] slot is absent: required and absent. *)
Definition missing_without_ids (parameters : list param_meta) (namespace : Namespace)
  : list param_meta :=
  List.filter (fun param => marked "required" param && value_absent namespace param)
              parameters.

(** The parameters the policy's description selects for a namespace. *)
Definition missing_parameters (parameters : list param_meta) (namespace : Namespace)
  : list param_meta :=
  match namespace !! "ids" with
  | Some ids =>
      if is_none ids then missing_without_ids parameters namespace
      else missing_with_ids parameters namespace
  | None => []
  end.

End Policy.

Export Policy.

(** ** The vocabulary of command paths *)

Module CommandPaths.

Import Loader.

(** Following a path of tokens through the tree, one [dict] lookup per
    token: [tree[t1][t2]...]. *)
Fixpoint follow (tree : tree_node) (tokens : list string) : option tree_node :=
  match tokens with
  | [] => Some tree
  | token :: tokens' =>
      match tree with
      | Node children =>
          match dict_get token children with
          | Some child => follow child tokens'
          | None => None
          end
      | Owner _ => None
      end
  end.

(** The command keys a group declares, through its sub-groups. *)
Fixpoint declared_commands (g : sub_group) : list string :=
  match g with
  | SubGroup cmds subs =>
      dict_keys cmds ++ flat_map (fun '(_, sub) => declared_commands sub) subs
  end.

(** The sub-group keys a group declares, through its sub-groups. *)
Fixpoint declared_groups (g : sub_group) : list string :=
  match g with
  | SubGroup _ subs =>
      flat_map (fun '(name, sub) => name :: declared_groups sub) subs
  end.

(** The tokens of [name] are those of [prefix] and one more. *)
Definition extends_by_one (prefix : list string) (name : string) : bool :=
  match rev (PyStr.split name) with
  | [] => false
  | _ :: parent => bool_decide (rev parent = prefix)
  end.

(** The invariant of the metadata: a key of a group reached by the tokens
    [prefix] is the path of [prefix] and one more token, for commands and
    sub-groups alike. *)
Fixpoint well_formed_group (prefix : list string) (g : sub_group) : bool :=
  match g with
  | SubGroup cmds subs =>
      forallb (extends_by_one prefix) (dict_keys cmds)
      && forallb (fun '(name, sub) =>
                    extends_by_one prefix name
                    && well_formed_group (PyStr.split name) sub)
                 subs
  end.

Definition well_formed_metas (metas : dict module_meta) : bool :=
  forallb (fun meta => well_formed_group [] (top meta)) (dict_values metas).

(** The group declares a command whose tokens are [path]. *)
Definition group_declares (g : sub_group) (path : list string) : bool :=
  existsb (fun c => bool_decide (PyStr.split c = path)) (declared_commands g).

Definition declares (meta : module_meta) (path : list string) : bool :=
  group_declares (top meta) path.

Definition all_commands (metas : dict module_meta) : list string :=
  flat_map (fun meta => declared_commands (top meta)) (dict_values metas).

Definition all_groups (metas : dict module_meta) : list string :=
  flat_map (fun meta => declared_groups (top meta)) (dict_values metas).

(** No path of tokens is declared both as a command and as a sub-group. *)
Definition no_command_is_group (metas : dict module_meta) : bool :=
  forallb (fun c =>
             forallb (fun g => negb (bool_decide (PyStr.split c = PyStr.split g)))
                     (all_groups metas))
          (all_commands metas).

(** Two documents that declare the same command path name the same
    module. *)
Definition one_module_per_command (metas : dict module_meta) : bool :=
  forallb (fun meta1 =>
             forallb (fun meta2 =>
                        forallb (fun c =>
                                   negb (declares meta2 (PyStr.split c))
                                   || bool_decide (module_name meta1 = module_name meta2))
                                (declared_commands (top meta1)))
                     (dict_values metas))
          (dict_values metas).

(** The module named by the last document, in processing order, that
    declares [path]. *)
Fixpoint last_declarer (metas : list module_meta) (path : list string)
  : option string :=
  match metas with
  | [] => None
  | meta :: metas' =>
      match last_declarer metas' path with
      | Some module => Some module
      | None => if declares meta path then Some (module_name meta) else None
      end
  end.

(** The invariant of a tree under construction, for command paths [C] and
    sub-group paths [G]: an owner sits at a command path, a nested [dict]
    at a sub-group path. *)
Inductive node_ok (C G : list string -> Prop) : list string -> tree_node -> Prop :=
| owner_ok path module :
    C path -> node_ok C G path (Owner module)
| dict_ok path children :
    G path ->
    Forall (fun entry => node_ok C G (path ++ [entry.1]) entry.2) children ->
    node_ok C G path (Node children).

Definition children_ok (C G : list string -> Prop) (path : list string)
    (children : dict tree_node) : Prop :=
  Forall (fun entry => node_ok C G (path ++ [entry.1]) entry.2) children.

End CommandPaths.

Export CommandPaths.

(** ** Read-only method bodies *)

(** Modelled from the spec: [cli_validator.cmd_tree.parse_command] and the
    class [CLIParser] are not part of the sources.  The spec says of the
    pipeline that each step is a pure function of the previous state and
    the static collaborators, a read over shared immutable state: a step
    hands [self] back as it received it. *)
Definition read_only {GlobalParser A} (m : M GlobalParser A) : Prop :=
  forall self, (m self).2 = self.

(** Modelled from the spec: the four operations of the absent
    collaborators are read-only, whatever their arguments. *)
Definition read_only_collaborators {GlobalParser CLIParser}
    (collaborators : Collaborators GlobalParser CLIParser) : Prop :=
  (forall tree command comments, read_only (parse_command tree command comments))
  /\ (forall parents add_help, read_only (CLIParser_init parents add_help))
  /\ (forall parser meta, read_only (load_meta parser meta))
  /\ (forall parser tokens, read_only (parse_args parser tokens)).

(** ** Sample metadata and stand-ins for the absent collaborators *)

Module Fixtures.

Import Loader.

(** [--name/-n], required. *)
Definition name_param : param_meta :=
  {[ "name" := JStr "name";
     "options" := JArr [JStr "--name"; JStr "-n"];
     "required" := JBool true ]}.

(** [--location/-l], optional. *)
Definition location_param : param_meta :=
  {[ "name" := JStr "location";
     "options" := JArr [JStr "--location"; JStr "-l"] ]}.

(** [--resource-group/-g], required and an id part. *)
Definition resource_group_param : param_meta :=
  {[ "name" := JStr "resource_group_name";
     "options" := JArr [JStr "--resource-group"; JStr "-g"];
     "required" := JBool true;
     "id_part" := JStr "resource_group" ]}.

(** A parameter whose metadata says ["required": false]. *)
Definition tags_param : param_meta :=
  {[ "name" := JStr "tags";
     "options" := JArr [JStr "--tags"];
     "required" := JBool false ]}.

(** A parameter whose metadata says ["id_part": null]. *)
Definition size_param : param_meta :=
  {[ "name" := JStr "size";
     "options" := JArr [JStr "--size"];
     "required" := JBool true;
     "id_part" := JNull ]}.

Definition group_create : command_meta :=
  CommandMeta [name_param; location_param].

Definition vm_show : command_meta :=
  CommandMeta [resource_group_param; name_param].

(** [az_resource_meta.json]: the command [group create]. *)
Definition resource_meta : module_meta :=
  ModuleMeta "resource"
    (SubGroup [] [("group", SubGroup [("group create", group_create)] [])]).

(** [az_vm_meta.json]: the command [vm show]. *)
Definition vm_meta : module_meta :=
  ModuleMeta "vm"
    (SubGroup [] [("vm", SubGroup [("vm show", vm_show)] [])]).

Definition sample_metas : dict module_meta :=
  [("az_resource_meta.json", resource_meta); ("az_vm_meta.json", vm_meta)].

(** [az_compute_meta.json]: a second module that also declares [vm show]. *)
Definition compute_meta : module_meta :=
  ModuleMeta "compute"
    (SubGroup [] [("vm", SubGroup [("vm show", vm_show)] [])]).

Definition clashing_metas : dict module_meta :=
  [("az_vm_meta.json", vm_meta); ("az_compute_meta.json", compute_meta)].

(** [az_net_meta.json]: [net] is a command and also a sub-group. *)
Definition net_meta : module_meta :=
  ModuleMeta "net"
    (SubGroup [("net", CommandMeta [])]
              [("net", SubGroup [("net list", CommandMeta [])] [])]).

Definition net_metas : dict module_meta := [("az_net_meta.json", net_meta)].

Definition broken_metas : dict module_meta := clashing_metas ++ net_metas.

(** [az_shadow_meta.json]: a module that declares the command [vm]. *)
Definition shadow_meta : module_meta :=
  ModuleMeta "shadow" (SubGroup [("vm", CommandMeta [])] []).

Definition shadowed_metas : dict module_meta :=
  clashing_metas ++ [("az_shadow_meta.json", shadow_meta)].

(** Stand-ins for the absent collaborators: they hand back a fixed parsed
    command and a fixed namespace, and leave [self] alone. *)
Definition canned (cmd : ParsedCommand) (namespace : Namespace)
  : Collaborators unit unit :=
  {| parse_command _ _ _ := ret cmd;
     CLIParser_init _ _ := ret tt;
     load_meta parser _ := ret parser;
     parse_args _ _ := ret namespace |}.

(** [az group create -n rg1 -l eastus]. *)
Definition group_create_cmd : ParsedCommand :=
  {| cmd_signature := ["group"; "create"];
     cmd_module := "resource";
     cmd_parameters := ["-n"; "rg1"; "-l"; "eastus"] |}.

(** [az vm show ...]. *)
Definition vm_show_cmd (tokens : list string) : ParsedCommand :=
  {| cmd_signature := ["vm"; "show"];
     cmd_module := "vm";
     cmd_parameters := tokens |}.

Definition group_create_namespace : Namespace :=
  {[ "ids" := JNull; "name" := JStr "rg1"; "location" := JStr "eastus" ]}.

(** [az group create -l eastus]: the required name is not given. *)
Definition group_create_no_name : Namespace :=
  {[ "ids" := JNull; "name" := JNull; "location" := JStr "eastus" ]}.

(** [az vm show --ids X -n vm1] and [az vm show --ids X]. *)
Definition vm_show_ids_name : Namespace :=
  {[ "ids" := JArr [JStr "X"]; "resource_group_name" := JNull;
     "name" := JStr "vm1" ]}.

Definition vm_show_ids_only : Namespace :=
  {[ "ids" := JArr [JStr "X"]; "resource_group_name" := JNull;
     "name" := JNull ]}.

(** [az vm show]: neither [--ids] nor the two required parameters. *)
Definition vm_show_bare : Namespace :=
  {[ "ids" := JNull; "resource_group_name" := JNull; "name" := JNull ]}.

Definition sample_validator : CommandMetaValidator unit :=
  {| metas := sample_metas;
     command_tree :=
       Node [("group", Node [("create", Owner "resource")]);
             ("vm", Node [("show", Owner "vm")])];
     _global_parser := tt |}.

End Fixtures.

(** ** The shape of a command tree *)

Module TreeShape.

Import Loader.

(** The string is empty or holds whitespace only. *)
Fixpoint blank (s : string) : bool :=
  match s with
  | EmptyString => true
  | String c s' => PyStr.is_space c && blank s'
  end.

(** [name.split()[-1]] is [token]. *)
Definition ends_with (name token : string) : bool :=
  match rev (PyStr.split name) with
  | [] => false
  | last :: _ => bool_decide (last = token)
  end.

(** The group stores an owner at the tokens [path] below the node it is
    attached to: the last tokens of the sub-group keys on the way, then
    the last token of a command key. *)
Fixpoint group_places (g : sub_group) (path : list string) : bool :=
  match g with
  | SubGroup cmds subs =>
      match path with
      | [] => false
      | token :: path' =>
          (bool_decide (path' = [])
           && existsb (fun name => ends_with name token) (dict_keys cmds))
          || existsb (fun '(name, sub) =>
                        ends_with name token && group_places sub path')
                     subs
      end
  end.

(** The command entries a group declares, through its sub-groups: each
    key with the command's metadata. *)
Fixpoint declared_entries (g : sub_group) : dict command_meta :=
  match g with
  | SubGroup cmds subs =>
      cmds ++ flat_map (fun '(_, sub) => declared_entries sub) subs
  end.

(** The key is the space-joined sequence of its own tokens. *)
Definition normalized (key : string) : bool :=
  bool_decide (PyStr.join " " (PyStr.split key) = key).

(** Each [dict] of the group has distinct keys, as a [dict] does, and
    every key is normalized. *)
Fixpoint well_keyed (g : sub_group) : bool :=
  match g with
  | SubGroup cmds subs =>
      bool_decide (NoDup (dict_keys cmds))
      && forallb normalized (dict_keys cmds)
      && bool_decide (NoDup (dict_keys subs))
      && forallb (fun '(name, sub) => normalized name && well_keyed sub) subs
  end.

(** The documents have distinct file names, each [az_<module>_meta.json]
    for the module the document names, and well-keyed groups. *)
Definition well_keyed_metas (metas : dict module_meta) : bool :=
  bool_decide (NoDup (dict_keys metas))
  && forallb (fun '(file, meta) =>
                bool_decide (file = "az_" +:+ module_name meta +:+ "_meta.json")
                && well_keyed (top meta))
             metas.

End TreeShape.

Export TreeShape.

(** ** More vocabulary of the required-argument policy *)

Module PolicyShape.

Import Loader.

(** The parameter's [name] is the string [name]. *)
Definition named (name : string) (param : param_meta) : bool :=
  match param !! "name" with
  | Some (JStr s) => bool_decide (s = name)
  | _ => false
  end.

End PolicyShape.

Export PolicyShape.

(** ** cmd_meta/loader: fetching and loading the metadata files

    The functions of the loader that talk to the disk, to the blob store
    and to the logger are programs that ask for one operation at a time and
    go on with the answer.  Nothing is assumed of the answers: an
    operation that can raise may answer with any exception. *)

Module MetadataStore.

(** The handler an exception of this layer is caught by: the SDK's
    [ResourceNotFoundError], the loader's own [ResourceNotExistException],
    [FileNotFoundError], [JSONDecodeError], or none of them. *)
Inductive store_class : Set :=
| ResourceNotFoundError
| ResourceNotExistException
| FileNotFoundError
| JSONDecodeError
| OtherError.

#[global] Instance store_class_eq_dec : EqDecision store_class.
Proof. solve_decision. Defined.

(** An exception with its text: [e.message] for the SDK's error, [msg]
    for [ResourceNotExistException], [str(e)] otherwise. *)
Record store_exn : Set := StoreExn { store_class_of : store_class; store_text : string }.

(** [ResourceNotExistException(msg)]. *)
Definition new_ResourceNotExistException (msg : string) : store_exn :=
  StoreExn ResourceNotExistException msg.

(** How a call ends. *)
Inductive outcome (A : Type) : Type :=
| Done (a : A)
| Failed (e : store_exn).

Arguments Done {A} a.
Arguments Failed {A} e.

(** The operations the loader asks for. *)
Inductive event : Set :=
| PathExists (path : string)        (* os.path.exists(path) *)
| MakeDirs (path : string)          (* os.makedirs(path) *)
| BlobFromUrl (url : string)        (* BlobClient.from_blob_url(url) *)
| OpenWrite (path : string)         (* open(path, "wb") *)
| DownloadBlob (url : string)       (* blob.download_blob() *)
| ReadInto (url path : string)      (* blob.readinto(f) *)
| OpenRead (path : string)          (* open(path, 'r', encoding='utf-8') *)
| ReadLines (path : string)         (* f.readlines() *)
| JsonLoad (path : string)          (* json.load(meta_f) *)
| CloseFile (path : string)         (* leaving a with block *)
| LogError (message : string)       (* logger.error(message, ...) *)
| LogInfo (message : string)        (* logger.info(message) *)
| FindSpec (name : string)          (* importlib.util.find_spec(name) is not None *)
| AioFetchMetas (version meta_dir : string)
                                    (* asyncio.run(aio.fetch_metas(version, meta_dir)) *)
| RmTree (path : string).           (* shutil.rmtree(path) *)

#[global] Instance event_eq_dec : EqDecision event.
Proof. solve_decision. Defined.

Section Programs.

(** What [json.load] returns. *)
Context {Doc : Type}.

(** The answer to an operation.  [os.path.exists] and the logger do not
    raise; the others answer with a value or an exception. *)
Definition answer (ev : event) : Type :=
  match ev with
  | PathExists _ => bool
  | LogError _ | LogInfo _ => unit
  | ReadLines _ => outcome (list string)
  | JsonLoad _ => outcome Doc
  | FindSpec _ => outcome bool
  | _ => outcome unit
  end.

(** A program that ends with an [R]. *)
Inductive interaction (R : Type) : Type :=
| Finish (r : R)
| Ask (ev : event) (k : answer ev -> interaction R).

Arguments Finish {R} r.
Arguments Ask {R} ev k.

Fixpoint then_ {R R'} (p : interaction R) (f : R -> interaction R')
  : interaction R' :=
  match p with
  | Finish r => f r
  | Ask ev k => Ask ev (fun x => then_ (k x) f)
  end.

Definition ask (ev : event) : interaction (answer ev) := Ask ev Finish.

(** A program that returns an [A] or raises. *)
Definition io (A : Type) : Type := interaction (outcome A).

Definition pure {A} (a : A) : io A := Finish (Done a).

Definition throw {A} (e : store_exn) : io A := Finish (Failed e).

(** Sequencing: an exception ends the sequence. *)
Definition and_then {A B} (p : io A) (f : A -> io B) : io B :=
  then_ p (fun r => match r with Done a => f a | Failed e => throw e end).

(** [try: p except ... as e: handler e].  A handler that does not take
    the exception raises it again. *)
Definition try_except {A} (p : io A) (handler : store_exn -> io A) : io A :=
  then_ p (fun r => match r with Done a => pure a | Failed e => handler e end).

(** Leaving [with open(path, ...)], however the body ended: the file is
    closed, and an exception of the closing takes the place of the body's
    result. *)
Definition closing {A} (path : string) (body : io A) : io A :=
  then_ body (fun r =>
  then_ (ask (CloseFile path)) (fun closed =>
  match closed with
  | Done _ => Finish r
  | Failed e => throw e
  end)).

(** A [for] loop over a list. *)
Definition for_io {X} (body : X -> io unit) : list X -> io unit :=
  fix loop (xs : list X) : io unit :=
    match xs with
    | [] => pure tt
    | x :: xs' => and_then (body x) (fun _ => loop xs')
    end.

(** [s.strip(' \n')]: the string without the spaces and newlines at its
    two ends. *)
Definition strip_char (c : ascii) : bool :=
  Ascii.eqb c " "%char || Ascii.eqb c "010"%char.

Fixpoint lstrip (s : string) : string :=
  match s with
  | EmptyString => EmptyString
  | String c s' => if strip_char c then lstrip s' else s
  end.

Fixpoint rstrip (s : string) : string :=
  match s with
  | EmptyString => EmptyString
  | String c s' =>
      match rstrip s' with
      | EmptyString => if strip_char c then EmptyString else String c EmptyString
      | kept => String c kept
      end
  end.

Definition strip (s : string) : string := rstrip (lstrip s).

Definition BLOB_URL : string := "https://azcmdchangemgmt.blob.core.windows.net".

Definition CONTAINER_NAME : string := "cmd-metadata-per-version".

(** [f'{BLOB_URL}/{CONTAINER_NAME}/azure-cli-{version}/{file_name}']. *)
Definition blob_url (version file_name : string) : string :=
  BLOB_URL +:+ "/" +:+ CONTAINER_NAME +:+ "/azure-cli-" +:+ version
  +:+ "/" +:+ file_name.

(** [f'{dir}/azure-cli-{version}'] and [f'{dir}/azure-cli-{version}/{file_name}']. *)
Definition version_dir (dir version : string) : string :=
  dir +:+ "/azure-cli-" +:+ version.

Definition version_file (dir version file_name : string) : string :=
  dir +:+ "/azure-cli-" +:+ version +:+ "/" +:+ file_name.

Definition is_class (c : store_class) (e : store_exn) : bool :=
  bool_decide (store_class_of e = c).

(** The [try] block of [download_blob]:
    [blob = BlobClient.from_blob_url(url)
     with open(target_path, "wb") as f:
         blob = blob.download_blob()
         blob.readinto(f)]. *)
Definition download_blob_try (url target_path : string) : io unit :=
  and_then (ask (BlobFromUrl url)) (fun _ =>
  and_then (ask (OpenWrite target_path)) (fun _ =>
  closing target_path
    (and_then (ask (DownloadBlob url)) (fun _ =>
     ask (ReadInto url target_path))))).

(** [download_blob(url, target_path)]: the [try] block and
    [except ResourceNotFoundError as e:
         raise ResourceNotExistException(e.message)]. *)
Definition download_blob (url target_path : string) : io unit :=
  try_except (download_blob_try url target_path)
    (fun e =>
       if is_class ResourceNotFoundError e
       then throw (new_ResourceNotExistException (store_text e))
       else throw e).

(** [if not os.path.exists(path): os.makedirs(path)]. *)
Definition ensure_dir (path : string) : io unit :=
  then_ (ask (PathExists path)) (fun found =>
  if negb found then ask (MakeDirs path) else pure tt).

(** [try: download_blob(url, path)
     except ResourceNotExistException as e: logger.error(message, e)]. *)
Definition download_or_log (url path message : string) : io unit :=
  try_except (download_blob url path)
    (fun e =>
       if is_class ResourceNotExistException e
       then then_ (ask (LogError message)) (fun _ => pure tt)
       else throw e).

(** [fetch_metas(version, target_dir)]: the index, then each file the
    index lists, inside [with open(index) as f: for file_name in
    f.readlines(): file_name = file_name.strip(' \n') ...]. *)
Definition fetch_metas (version target_dir : string) : io unit :=
  and_then (ensure_dir (version_dir target_dir version)) (fun _ =>
  and_then (download_blob (blob_url version "index.txt")
                          (version_file target_dir version "index.txt")) (fun _ =>
  and_then (ask (OpenRead (version_file target_dir version "index.txt"))) (fun _ =>
  closing (version_file target_dir version "index.txt")
    (and_then (ask (ReadLines (version_file target_dir version "index.txt")))
       (fun lines =>
        for_io (fun file_name =>
                  let file_name := strip file_name in
                  download_or_log
                    (blob_url version file_name)
                    (version_file target_dir version file_name)
                    ("`azure-cli-" +:+ version +:+ "/" +:+ file_name
                     +:+ "` not Found"))
               lines))))).

(** The [try] block of [load_metas_from_disk]:
    [with open(path, 'r', encoding='utf-8') as meta_f:
         metas[file_name] = json.load(meta_f)].
    It ends with the dictionary as the block left it and with how the
    block ended: an assignment made before the closing raised stays. *)
Definition load_into (path file_name : string) (metas : dict Doc)
  : interaction (dict Doc * outcome unit) :=
  then_ (ask (OpenRead path)) (fun opened =>
  match opened with
  | Failed e => Finish (metas, Failed e)
  | Done _ =>
      then_ (ask (JsonLoad path)) (fun loaded =>
      let '(metas, ended) :=
        match loaded with
        | Done doc => (dict_set file_name doc metas, Done tt)
        | Failed e => (metas, Failed e)
        end in
      then_ (ask (CloseFile path)) (fun closed =>
      match closed with
      | Done _ => Finish (metas, ended)
      | Failed e => Finish (metas, Failed e)
      end))
  end).

(** One iteration of the loop of [load_metas_from_disk]: the [try] block
    and [except (FileNotFoundError, JSONDecodeError) as e:
    logger.error(f'Loading meta data in {file_name} failed: {e}')]. *)
Definition load_listed_file (version meta_dir file_name : string)
    (metas : dict Doc) : io (dict Doc) :=
  then_ (load_into (version_file meta_dir version file_name) file_name metas)
    (fun '(metas, ended) =>
       match ended with
       | Done _ => pure metas
       | Failed e =>
           if is_class FileNotFoundError e || is_class JSONDecodeError e
           then then_ (ask (LogError ("Loading meta data in " +:+ file_name
                                      +:+ " failed: " +:+ store_text e)))
                      (fun _ => pure metas)
           else throw e
       end).

(** The loop: [for file_name in f.readlines():
    file_name = file_name.strip(' \n') ...]. *)
Definition load_listed (version meta_dir : string)
  : list string -> dict Doc -> io (dict Doc) :=
  fix loop (lines : list string) (metas : dict Doc) : io (dict Doc) :=
    match lines with
    | [] => pure metas
    | file_name :: lines' =>
        and_then (load_listed_file version meta_dir (strip file_name) metas)
                 (loop lines')
    end.

(** [load_metas_from_disk(version, meta_dir)]: [None] without an index,
    else [metas = {}], the loop inside [with open(index) as f], and
    [return metas]. *)
Definition load_metas_from_disk (version meta_dir : string)
  : io (option (dict Doc)) :=
  then_ (ask (PathExists (version_file meta_dir version "index.txt"))) (fun found =>
  if negb found then pure None
  else
    and_then
      (and_then (ask (OpenRead (version_file meta_dir version "index.txt")))
         (fun _ =>
          closing (version_file meta_dir version "index.txt")
            (and_then (ask (ReadLines (version_file meta_dir version "index.txt")))
               (fun lines => load_listed version meta_dir lines []))))
      (fun metas => pure (Some metas))).

(** [not metas]: [None] and the empty [dict] are false. *)
Definition not_metas (metas : option (dict Doc)) : bool :=
  match metas with
  | None | Some [] => true
  | Some (_ :: _) => false
  end.

(** [load_metas(version, meta_dir)]. *)
Definition load_metas (version meta_dir : string) : io (option (dict Doc)) :=
  and_then (load_metas_from_disk version meta_dir) (fun metas =>
  if not_metas metas then
    and_then
      (and_then (ask (FindSpec "aiohttp")) (fun found =>
       if found then ask (AioFetchMetas version meta_dir)
       else
         then_ (ask (LogInfo "Module 'aiohttp' is not installed. Downloading metadata sequentially now."))
               (fun _ => fetch_metas version meta_dir)))
      (fun _ => load_metas_from_disk version meta_dir)
  else pure metas).

(** [fetch_meta(version, module, target_dir)]. *)
Definition fetch_meta (version module target_dir : string) : io unit :=
  and_then (ensure_dir (version_dir target_dir version)) (fun _ =>
  let file_name := "az_" +:+ module +:+ "_meta.json" in
  download_or_log
    (blob_url version file_name)
    (version_file target_dir version file_name)
    ("`azure-cli-" +:+ version +:+ "/" +:+ file_name +:+ "` not Found")).

(** [load_meta_from_disk(version, module, meta_dir)]: the document, or
    [None] after logging a [FileNotFoundError] or a [JSONDecodeError]. *)
Definition load_meta_from_disk (version module meta_dir : string)
  : io (option Doc) :=
  let file_name := "az_" +:+ module +:+ "_meta.json" in
  try_except
    (and_then (ask (OpenRead (version_file meta_dir version file_name))) (fun _ =>
     closing (version_file meta_dir version file_name)
       (and_then (ask (JsonLoad (version_file meta_dir version file_name)))
          (fun doc => pure (Some doc)))))
    (fun e =>
       if is_class FileNotFoundError e || is_class JSONDecodeError e
       then then_ (ask (LogError ("Loading meta data in " +:+ file_name
                                  +:+ " failed: " +:+ store_text e)))
                  (fun _ => pure None)
       else throw e).

(** The truth value of a document, as [not meta] reads it. *)
Variable truthy : Doc -> bool.

Definition not_meta (meta : option Doc) : bool :=
  match meta with
  | None => true
  | Some doc => negb (truthy doc)
  end.

(** [load_meta(version, module, meta_dir)]. *)
Definition load_meta (version module meta_dir : string) : io (option Doc) :=
  and_then (load_meta_from_disk version module meta_dir) (fun meta =>
  if not_meta meta then
    and_then (fetch_meta version module meta_dir) (fun _ =>
    load_meta_from_disk version module meta_dir)
  else pure meta).

(** Running a program against an environment that answers each operation
    and may change as it does: the result, the environment afterwards and
    the operations asked for, in order. *)
Fixpoint run {W R} (env : forall ev, W -> answer ev * W)
    (p : interaction R) (w : W) : R * W * list event :=
  match p with
  | Finish r => (r, w, [])
  | Ask ev k =>
      let '(x, w') := env ev w in
      let '(r, w'', asked) := run env (k x) w' in
      (r, w'', ev :: asked)
  end.

(** What a disk yields for a path when [open] answers by [opens] and
    [json.load] by [loads]: the document, if the file opens and parses. *)
Definition read_document (opens : string -> outcome unit)
    (loads : string -> outcome Doc) (path : string) : option Doc :=
  match opens path with
  | Done _ => match loads path with Done doc => Some doc | Failed _ => None end
  | Failed _ => None
  end.

(** Whatever the environment answers and wherever the run starts, the
    program asks only for operations that satisfy [P]. *)
Definition asks_only {W R} (env : forall ev, W -> answer ev * W)
    (P : event -> Prop) (p : interaction R) : Prop :=
  forall w, Forall P (run env p w).2.

End Programs.

Arguments answer Doc ev : clear implicits.
Arguments interaction Doc R : clear implicits.
Arguments io Doc A : clear implicits.
Arguments Finish {Doc R} r.
Arguments Ask {Doc R} ev k.

(** The operations that reach the blob store. *)
Definition uses_network (ev : event) : bool :=
  match ev with
  | BlobFromUrl _ | DownloadBlob _ | ReadInto _ _ | AioFetchMetas _ _ => true
  | _ => false
  end.

(** The operations that change the disk. *)
Definition writes_disk (ev : event) : bool :=
  match ev with
  | MakeDirs _ | OpenWrite _ | ReadInto _ _ | RmTree _ | AioFetchMetas _ _ => true
  | _ => false
  end.

(** The operation neither reaches the blob store nor changes the disk. *)
Definition only_reads (ev : event) : bool :=
  negb (uses_network ev || writes_disk ev).

(** The blobs a run asked for, in order. *)
Definition requested (asked : list event) : list string :=
  omap (fun ev => match ev with BlobFromUrl url => Some url | _ => None end) asked.

(** The exception a result raises is of class [c]. *)
Definition raises_class {A} (c : store_class) (r : outcome A) : bool :=
  match r with
  | Failed e => is_class c e
  | Done _ => false
  end.

End MetadataStore.

(** ** A sample environment for the metadata store *)

Module StoreFixtures.

Import MetadataStore.

(** A disk that holds the index of version [2.50.0], listing one
    document, and that document; the blob store is never reached.  The
    environment does not change. *)
Definition warm_disk (ev : event) (w : unit) : answer string ev * unit :=
  (match ev as ev' return answer string ev' with
   | PathExists _ => true
   | LogError _ | LogInfo _ => tt
   | ReadLines _ => Done ["az_vm_meta.json" +:+ String "010"%char EmptyString]
   | JsonLoad _ => Done "vm"
   | FindSpec _ => Done false
   | _ => Done tt
   end, w).

(** A blob store without the file [az_gone_meta.json]; the index lists
    it between two files that are there. *)
Definition one_blob_missing (ev : event) (w : unit) : answer string ev * unit :=
  (match ev as ev' return answer string ev' with
   | PathExists _ => true
   | LogError _ | LogInfo _ => tt
   | ReadLines _ => Done ["az_vm_meta.json"; " az_gone_meta.json "; "az_net_meta.json"]
   | JsonLoad _ => Done "doc"
   | FindSpec _ => Done false
   | DownloadBlob url =>
       if bool_decide (url = blob_url "2.50.0" "az_gone_meta.json")
       then Failed (StoreExn ResourceNotFoundError "The specified blob does not exist.")
       else Done tt
   | _ => Done tt
   end, w).

(** A disk whose index lists three documents: the second is missing, the
    third is not JSON. *)
Definition opens_on_disk (path : string) : outcome unit :=
  if bool_decide (path = version_file "./cmd_meta" "2.50.0" "az_gone_meta.json")
  then Failed (StoreExn FileNotFoundError "No such file or directory")
  else Done tt.

Definition loads_on_disk (path : string) : outcome string :=
  if bool_decide (path = version_file "./cmd_meta" "2.50.0" "az_bad_meta.json")
  then Failed (StoreExn JSONDecodeError "Expecting value")
  else Done path.

Definition flaky_disk (ev : event) (w : unit) : answer string ev * unit :=
  (match ev as ev' return answer string ev' with
   | PathExists _ => true
   | LogError _ | LogInfo _ => tt
   | ReadLines _ => Done ["az_vm_meta.json"; "az_gone_meta.json"; "az_bad_meta.json"]
   | OpenRead path => opens_on_disk path
   | JsonLoad path => loads_on_disk path
   | FindSpec _ => Done false
   | _ => Done tt
   end, w).

End StoreFixtures.

(** ** A parameter the policy cannot read *)

Module PolicyFixtures.

Import Loader.

(** A parameter that is marked [required] and has no [name]. *)
Definition nameless_param : param_meta := {[ "required" := JBool true ]}.

End PolicyFixtures.

(** * Properties *)

Example split_vm_create :
  PyStr.split "  vm   disk create " = ["vm"; "disk"; "create"].
Proof. reflexivity. Qed.

Example sample_tree_is_built :
  Loader.build_command_tree Fixtures.sample_metas
  = Ok (command_tree Fixtures.sample_validator).
Proof. reflexivity. Qed.

(** ** The error taxonomy *)

(** C10.  A class of the taxonomy is a subclass of
    [ValidateFailureException] exactly when it is that class or one of
    [ParserFailureException], [ParserHelpException],
    [EmptyCommandException], [NonAzCommandException],
    [CommandTreeCorruptedException] and [UnknownCommandException];
    [UnknownTypeException] is not, and a handler for
    [ValidateFailureException] catches the help-requested exception. *)
Theorem taxonomy_under_ValidateFailureException :
  (forall c : py_class,
      issubclass c ValidateFailureException
      = bool_decide (c ∈ [ValidateFailureException; ParserFailureException;
                          ParserHelpException; EmptyCommandException;
                          NonAzCommandException; CommandTreeCorruptedException;
                          UnknownCommandException]))
  /\ issubclass UnknownTypeException ValidateFailureException = false
  /\ caught_by ValidateFailureException new_ParserHelpException = true.
Proof.
  split; [intros c; destruct c; reflexivity | split; reflexivity].
Qed.

(** ** Dictionaries *)

Lemma dict_get_set_eq {V} (k : string) (v : V) (d : dict V) :
  dict_get k (dict_set k v d) = Some v.
Proof.
  induction d as [|[k' v'] d IH]; simpl.
  - by rewrite bool_decide_eq_true_2.
  - destruct (bool_decide (k' = k)) eqn:E; simpl; rewrite E; [done | exact IH].
Qed.

Lemma dict_get_set_ne {V} (k k' : string) (v : V) (d : dict V) :
  k <> k' -> dict_get k' (dict_set k v d) = dict_get k' d.
Proof.
  intros Hne. induction d as [|[k0 v0] d IH]; simpl.
  - by rewrite bool_decide_eq_false_2.
  - destruct (bool_decide (k0 = k)) eqn:E; simpl.
    + apply bool_decide_eq_true in E. subst k0.
      by rewrite bool_decide_eq_false_2.
    + by rewrite IH.
Qed.

Lemma dict_get_In {V} (k : string) (v : V) (d : dict V) :
  dict_get k d = Some v -> In (k, v) d.
Proof.
  induction d as [|[k' v'] d IH]; simpl; [discriminate |].
  destruct (bool_decide (k' = k)) eqn:E.
  - apply bool_decide_eq_true in E. intros [= ->]. subst. by left.
  - intros H. right. by apply IH.
Qed.

Lemma Forall_dict_set {V} (P : string * V -> Prop) (k : string) (v : V)
    (d : dict V) :
  P (k, v) -> Forall P d -> Forall P (dict_set k v d).
Proof.
  intros Hkv. induction 1 as [|[k' v'] d Hhd Htl IH]; simpl.
  - by constructor.
  - destruct (bool_decide (k' = k)) eqn:E.
    + apply bool_decide_eq_true in E. subst k'. by constructor.
    + by constructor.
Qed.

(** ** Well-formed metadata *)

(** Induction on a group with the hypothesis for each of its sub-groups. *)
Lemma sub_group_nested_ind (P : Loader.sub_group -> Prop) :
  (forall cmds subs, Forall (fun entry => P entry.2) subs ->
                     P (Loader.SubGroup cmds subs)) ->
  forall g, P g.
Proof.
  intros Hstep. fix IH 1. intros [cmds subs]. apply Hstep.
  induction subs as [|[name sub] subs IHsubs]; constructor.
  - apply IH.
  - exact IHsubs.
Qed.

Lemma extends_by_one_split (prefix : list string) (name : string) :
  extends_by_one prefix name = true ->
  exists token, PyStr.split name = prefix ++ [token].
Proof.
  unfold extends_by_one.
  destruct (rev (PyStr.split name)) as [|token parent] eqn:E; [discriminate |].
  intros <-%bool_decide_eq_true. exists token.
  rewrite <- (rev_involutive (PyStr.split name)), E. reflexivity.
Qed.

Lemma last_token_split (prefix : list string) (name token : string) :
  PyStr.split name = prefix ++ [token] -> Loader.last_token name = Ok token.
Proof.
  intros E. unfold Loader.last_token. rewrite E, rev_app_distr. reflexivity.
Qed.

Lemma well_formed_group_SubGroup (prefix : list string)
    (cmds : dict Loader.command_meta) (subs : dict Loader.sub_group) :
  well_formed_group prefix (Loader.SubGroup cmds subs)
  = forallb (extends_by_one prefix) (dict_keys cmds)
    && forallb (fun entry => extends_by_one prefix entry.1
                             && well_formed_group (PyStr.split entry.1) entry.2)
               subs.
Proof.
  simpl. f_equal. induction subs as [|[name sub] subs IH]; simpl; [done |].
  by rewrite IH.
Qed.

Lemma declared_commands_SubGroup (cmds : dict Loader.command_meta)
    (subs : dict Loader.sub_group) (c : string) :
  In c (declared_commands (Loader.SubGroup cmds subs)) <->
  In c (dict_keys cmds)
  \/ exists entry, In entry subs /\ In c (declared_commands entry.2).
Proof.
  simpl. rewrite in_app_iff, in_flat_map.
  split; (intros [H | (entry & Hin & H)]; [by left | right]);
    exists entry; destruct entry; auto.
Qed.

Lemma declared_groups_SubGroup (cmds : dict Loader.command_meta)
    (subs : dict Loader.sub_group) (n : string) :
  In n (declared_groups (Loader.SubGroup cmds subs)) <->
  exists entry, In entry subs /\ (n = entry.1 \/ In n (declared_groups entry.2)).
Proof.
  simpl. rewrite in_flat_map.
  split; intros (entry & Hin & H); exists entry; destruct entry; simpl in *;
    (split; [exact Hin |]); destruct H as [H | H]; auto.
Qed.

(** A command declared under a well-formed group extends the group's
    prefix by at least one token. *)
Lemma declared_command_extends (g : Loader.sub_group) :
  forall prefix c,
    well_formed_group prefix g = true ->
    In c (declared_commands g) ->
    exists token rest, PyStr.split c = prefix ++ token :: rest.
Proof.
  induction g as [cmds subs IH] using sub_group_nested_ind.
  intros prefix c. rewrite well_formed_group_SubGroup, declared_commands_SubGroup.
  intros [Hcmds Hsubs]%andb_prop [Hc | (entry & Hin & Hc)].
  - rewrite forallb_forall in Hcmds.
    destruct (extends_by_one_split _ _ (Hcmds c Hc)) as [token E].
    exists token, []. exact E.
  - rewrite forallb_forall in Hsubs.
    destruct (andb_prop _ _ (Hsubs _ Hin)) as [Hname Hsub].
    destruct (extends_by_one_split _ _ Hname) as [token E].
    destruct (proj1 (List.Forall_forall _ _) IH _ Hin _ _ Hsub Hc)
      as (token' & rest & E').
    exists token, (token' :: rest). rewrite E', E, <- app_assoc.
    reflexivity.
Qed.

Lemma group_declares_true (g : Loader.sub_group) (path : list string) :
  group_declares g path = true <->
  exists c, In c (declared_commands g) /\ PyStr.split c = path.
Proof.
  unfold group_declares. rewrite existsb_exists.
  split; intros (c & Hc & E); exists c; split; auto.
  - by apply bool_decide_eq_true in E.
  - by apply bool_decide_eq_true.
Qed.

Lemma group_declares_SubGroup (cmds : dict Loader.command_meta)
    (subs : dict Loader.sub_group) (path : list string) :
  group_declares (Loader.SubGroup cmds subs) path
  = existsb (fun c => bool_decide (PyStr.split c = path)) (dict_keys cmds)
    || existsb (fun entry => group_declares entry.2 path) subs.
Proof.
  unfold group_declares. simpl. rewrite existsb_app. f_equal.
  induction subs as [|[name sub] subs IH]; simpl; [done |].
  rewrite existsb_app, IH. reflexivity.
Qed.

(** ** Attaching a module's metadata to the tree *)

Lemma attach_SubGroup (cmds : dict Loader.command_meta)
    (subs : dict Loader.sub_group) (tree_node : Loader.tree_node) (module : string) :
  Loader._attach_sub_group_to_node (Loader.SubGroup cmds subs) tree_node module
  = rbind (Loader.attach_commands cmds tree_node module)
          (for_each
             (fun tree_node '(name, sub) =>
                Loader.attach_sub_group_step
                  (fun sub next => Loader._attach_sub_group_to_node sub next module)
                  tree_node name sub)
             subs).
Proof. reflexivity. Qed.

Lemma follow_Node_cons (children : dict Loader.tree_node) (token : string)
    (tokens : list string) :
  follow (Loader.Node children) (token :: tokens)
  = match dict_get token children with
    | Some child => follow child tokens
    | None => None
    end.
Proof. reflexivity. Qed.

Section AttachInvariant.

(** The command paths and the sub-group paths of the metadata set; no
    path is both. *)
Variables C G : list string -> Prop.
Hypothesis command_xor_group : forall path, C path -> G path -> False.

Lemma children_ok_lookup (prefix : list string) (children : dict Loader.tree_node)
    (token : string) (child : Loader.tree_node) :
  children_ok C G prefix children ->
  dict_get token children = Some child ->
  node_ok C G (prefix ++ [token]) child.
Proof.
  intros Hok Hget. apply dict_get_In in Hget.
  exact (proj1 (List.Forall_forall _ _) Hok _ Hget).
Qed.

(** The first loop stores the module under the last token of each
    command key and leaves the other children alone. *)
Lemma attach_commands_ok (prefix : list string) (module : string)
    (cmds : dict Loader.command_meta) :
  forall children,
    forallb (extends_by_one prefix) (dict_keys cmds) = true ->
    (forall c, In c (dict_keys cmds) -> C (PyStr.split c)) ->
    children_ok C G prefix children ->
    exists children',
      Loader.attach_commands cmds (Loader.Node children) module
      = Ok (Loader.Node children')
      /\ children_ok C G prefix children'
      /\ forall token,
          dict_get token children'
          = if existsb (fun c => bool_decide (PyStr.split c = prefix ++ [token]))
                       (dict_keys cmds)
            then Some (Loader.Owner module)
            else dict_get token children.
Proof.
  induction cmds as [|[name meta] cmds IH]; intros children Hwf HC Hok.
  - exists children. repeat split; auto.
  - simpl in Hwf. apply andb_prop in Hwf as [Hname Hwf].
    destruct (extends_by_one_split _ _ Hname) as [t E].
    destruct (IH (dict_set t (Loader.Owner module) children)) as (children' & Hrun & Hok' & Hget).
    + exact Hwf.
    + intros c Hc. apply HC. by right.
    + apply Forall_dict_set; [| exact Hok]. simpl. constructor.
      rewrite <- E. apply HC. by left.
    + exists children'. split; [| split; [exact Hok' |]].
      * unfold Loader.attach_commands in *. simpl.
        rewrite (last_token_split _ _ _ E). simpl. exact Hrun.
      * intros token. rewrite Hget. simpl.
        destruct (existsb _ (dict_keys cmds)); [by rewrite orb_true_r |].
        rewrite orb_false_r, E.
        destruct (decide (t = token)) as [-> | Hne].
        -- rewrite dict_get_set_eq. by rewrite bool_decide_eq_true_2.
        -- rewrite dict_get_set_ne by exact Hne.
           rewrite bool_decide_eq_false_2; [done |].
           intros [= ->]%app_inv_head. done.
Qed.

(** What attaching a group at [prefix] to a well-kept [dict] achieves:
    the call returns, the tree is still well kept, every command the group
    declares now leads to the module, and the owners at other paths stay. *)
Let attach_ok (module : string) (g : Loader.sub_group) : Prop :=
  forall prefix children,
    well_formed_group prefix g = true ->
    (forall c, In c (declared_commands g) -> C (PyStr.split c)) ->
    (forall n, In n (declared_groups g) -> G (PyStr.split n)) ->
    children_ok C G prefix children ->
    exists children',
      Loader._attach_sub_group_to_node g (Loader.Node children) module
      = Ok (Loader.Node children')
      /\ children_ok C G prefix children'
      /\ (forall s, group_declares g (prefix ++ s) = true ->
                    follow (Loader.Node children') s = Some (Loader.Owner module))
      /\ (forall s o, group_declares g (prefix ++ s) = false ->
                      follow (Loader.Node children) s = Some (Loader.Owner o) ->
                      follow (Loader.Node children') s = Some (Loader.Owner o)).

(** The second loop, given the property for each sub-group. *)
Lemma attach_sub_groups_ok (prefix : list string) (module : string)
    (subs : dict Loader.sub_group) :
  Forall (fun entry => attach_ok module entry.2) subs ->
  forall children,
    forallb (fun entry => extends_by_one prefix entry.1
                          && well_formed_group (PyStr.split entry.1) entry.2)
            subs = true ->
    (forall entry, In entry subs ->
                   G (PyStr.split entry.1)
                   /\ (forall c, In c (declared_commands entry.2) -> C (PyStr.split c))
                   /\ (forall n, In n (declared_groups entry.2) -> G (PyStr.split n))) ->
    children_ok C G prefix children ->
    exists children',
      for_each
        (fun tree_node '(name, sub) =>
           Loader.attach_sub_group_step
             (fun sub next => Loader._attach_sub_group_to_node sub next module)
             tree_node name sub)
        subs (Loader.Node children)
      = Ok (Loader.Node children')
      /\ children_ok C G prefix children'
      /\ (forall s,
             existsb (fun entry => group_declares entry.2 (prefix ++ s)) subs = true ->
             follow (Loader.Node children') s = Some (Loader.Owner module))
      /\ (forall s o,
             existsb (fun entry => group_declares entry.2 (prefix ++ s)) subs = false ->
             follow (Loader.Node children) s = Some (Loader.Owner o) ->
             follow (Loader.Node children') s = Some (Loader.Owner o)).
Proof.
  induction 1 as [|[name sub] subs Hsub Hsubs IH]; intros children Hwf HCG Hok.
  - exists children. repeat split; auto. discriminate.
  - simpl in Hwf. apply andb_prop in Hwf as [[Hname Hwfsub]%andb_prop Hwfrest].
    destruct (extends_by_one_split _ _ Hname) as [t E].
    destruct (HCG (name, sub) (or_introl eq_refl)) as (HG & HCsub & HGsub).
    simpl in HG, HCsub, HGsub, Hsub. rewrite E in HG, Hwfsub.
    set (children1 := if dict_has t children then children
                      else dict_set t (Loader.Node []) children).
    assert (Hchild : exists chn,
               dict_get t children1 = Some (Loader.Node chn)
               /\ children_ok C G (prefix ++ [t]) chn
               /\ children_ok C G prefix children1
               /\ (forall t', t' <> t -> dict_get t' children1 = dict_get t' children)
               /\ (forall child, dict_get t children = Some child ->
                                 child = Loader.Node chn)).
    { unfold children1, dict_has.
      destruct (dict_get t children) as [child|] eqn:Hget.
      - pose proof (children_ok_lookup _ _ _ _ Hok Hget) as Hnode.
        inversion Hnode as [path o HCt | path chn HGt Hchn]; subst.
        + exfalso. exact (command_xor_group _ HCt HG).
        + exists chn. repeat split; auto. by intros child [= <-].
      - exists []. rewrite dict_get_set_eq. repeat split.
        + constructor.
        + apply Forall_dict_set; [| exact Hok]. simpl.
          constructor; [exact HG | constructor].
        + intros t' Hne. apply dict_get_set_ne. congruence.
        + discriminate. }
    destruct Hchild as (chn & Hget1 & Hokn & Hok1 & Hother & Hsame).
    destruct (Hsub (prefix ++ [t]) chn Hwfsub HCsub HGsub Hokn)
      as (chn' & Hrun & Hokn' & P1 & P2).
    set (children2 := dict_set t (Loader.Node chn') children1).
    destruct (IH children2) as (children' & Hrun' & Hok' & Q1 & Q2).
    + exact Hwfrest.
    + intros entry Hin. apply HCG. by right.
    + apply Forall_dict_set; [| exact Hok1]. simpl. by constructor.
    + exists children'. split; [| split; [exact Hok' | split]].
      * simpl. unfold Loader.attach_sub_group_step.
        rewrite (last_token_split _ _ _ E). simpl.
        assert (Hfirst : (if negb (dict_has t children)
                          then Ok (Loader.Node (dict_set t (Loader.Node []) children))
                          else Ok (Loader.Node children))
                         = Ok (Loader.Node children1)).
        { unfold children1. by destruct (dict_has t children). }
        rewrite Hfirst. simpl. unfold dict_getitem. rewrite Hget1. simpl.
        rewrite Hrun. simpl. exact Hrun'.
      * intros s Hs. simpl in Hs.
        destruct (existsb _ subs) eqn:Hrest; [by apply Q1 |].
        rewrite orb_false_r in Hs. apply (Q2 s module Hrest).
        pose proof Hs as (c & Hc & Ec)%group_declares_true.
        destruct (declared_command_extends sub (prefix ++ [t]) c Hwfsub Hc)
          as (t' & rest & E').
        rewrite Ec, <- app_assoc in E'. apply app_inv_head in E'. subst s.
        cbn [app]. rewrite follow_Node_cons. unfold children2.
        rewrite dict_get_set_eq.
        apply (P1 (t' :: rest)). rewrite <- app_assoc. exact Hs.
      * intros s o Hs Hold. simpl in Hs.
        apply orb_false_elim in Hs as [Hs1 Hs2]. apply (Q2 s o Hs2).
        destruct s as [|t' s']; [discriminate |].
        rewrite follow_Node_cons in Hold |- *.
        unfold children2. destruct (decide (t' = t)) as [-> | Hne].
        -- rewrite dict_get_set_eq.
           destruct (dict_get t children) as [child|] eqn:Hg; [| discriminate].
           rewrite (Hsame _ eq_refl) in Hold. apply P2; [| exact Hold].
           rewrite <- app_assoc. exact Hs1.
        -- rewrite dict_get_set_ne by congruence.
           rewrite (Hother _ Hne). exact Hold.
Qed.

Lemma attach_ok_all (module : string) (g : Loader.sub_group) : attach_ok module g.
Proof.
  induction g as [cmds subs IH] using sub_group_nested_ind.
  intros prefix children Hwf HC HG Hok.
  rewrite well_formed_group_SubGroup in Hwf.
  apply andb_prop in Hwf as [Hwfc Hwfs].
  destruct (attach_commands_ok prefix module cmds children Hwfc)
    as (children1 & Hrun1 & Hok1 & Hget1); [| exact Hok |].
  { intros c Hc. apply HC, declared_commands_SubGroup. by left. }
  destruct (attach_sub_groups_ok prefix module subs IH children1 Hwfs)
    as (children' & Hrun & Hok' & Q1 & Q2); [| exact Hok1 |].
  { intros entry Hin. repeat split.
    - apply HG, declared_groups_SubGroup. exists entry. auto.
    - intros c Hc. apply HC, declared_commands_SubGroup. right. eauto.
    - intros n Hn. apply HG, declared_groups_SubGroup. exists entry. auto. }
  exists children'. split; [| split; [exact Hok' | split]].
  - rewrite attach_SubGroup, Hrun1. exact Hrun.
  - intros s Hs. rewrite group_declares_SubGroup in Hs.
    destruct (existsb (fun entry => group_declares entry.2 (prefix ++ s)) subs)
      eqn:Hsubs; [by apply Q1 |].
    rewrite orb_false_r in Hs. apply (Q2 s module Hsubs).
    pose proof Hs as (c & Hc & Ec%bool_decide_eq_true)%existsb_exists.
    rewrite forallb_forall in Hwfc.
    destruct (extends_by_one_split _ _ (Hwfc c Hc)) as [t E].
    rewrite Ec in E. apply app_inv_head in E. subst s.
    rewrite follow_Node_cons, Hget1, Hs. reflexivity.
  - intros s o Hs Hold. rewrite group_declares_SubGroup in Hs.
    apply orb_false_elim in Hs as [Hc Hsubs]. apply (Q2 s o Hsubs).
    destruct s as [|t s']; [discriminate |].
    rewrite follow_Node_cons in Hold |- *.
    rewrite Hget1.
    destruct (existsb (fun c => bool_decide (PyStr.split c = prefix ++ [t]))
                      (dict_keys cmds)) eqn:Ht; [| exact Hold].
    exfalso.
    destruct s' as [|t' s'']; [congruence |].
    apply existsb_exists in Ht as (c & Hin & Ec%bool_decide_eq_true).
    destruct (dict_get t children) as [child|] eqn:Hg; [| discriminate].
    pose proof (children_ok_lookup _ _ _ _ Hok Hg) as Hnode.
    destruct child as [owner | chn]; [discriminate |].
    inversion Hnode as [| path chn' HGt Hchn]; subst.
    apply (command_xor_group (prefix ++ [t])); [| exact HGt].
    rewrite <- Ec. apply HC, declared_commands_SubGroup. by left.
Qed.

(** The loop of [build_command_tree] over the documents [metas], started
    on a well-kept tree: it returns, and each declared command path leads
    to the module of the last document that declares it. *)
Lemma build_loop_ok (metas : list Loader.module_meta) :
  forall children,
    (forall meta, In meta metas ->
                  well_formed_group [] (Loader.top meta) = true
                  /\ (forall c, In c (declared_commands (Loader.top meta)) ->
                                C (PyStr.split c))
                  /\ (forall n, In n (declared_groups (Loader.top meta)) ->
                                G (PyStr.split n))) ->
    children_ok C G [] children ->
    exists children',
      for_each (fun tree meta =>
                  Loader._attach_sub_group_to_node
                    (Loader.top meta) tree (Loader.module_name meta))
               metas (Loader.Node children)
      = Ok (Loader.Node children')
      /\ children_ok C G [] children'
      /\ forall path,
          match last_declarer metas path with
          | Some module =>
              follow (Loader.Node children') path = Some (Loader.Owner module)
          | None =>
              forall o, follow (Loader.Node children) path = Some (Loader.Owner o) ->
                        follow (Loader.Node children') path = Some (Loader.Owner o)
          end.
Proof.
  induction metas as [|meta metas IH]; intros children Hmetas Hok.
  - exists children. split; [reflexivity | split; [exact Hok |]].
    intros path o Hold. exact Hold.
  - destruct (Hmetas meta (or_introl eq_refl)) as (Hwf & HC & HG).
    destruct (attach_ok_all (Loader.module_name meta) (Loader.top meta)
                [] children Hwf HC HG Hok)
      as (children1 & Hrun1 & Hok1 & P1 & P2).
    destruct (IH children1) as (children' & Hrun & Hok' & Hlast); [| exact Hok1 |].
    { intros meta' Hin. apply Hmetas. by right. }
    exists children'. split; [| split; [exact Hok' |]].
    + simpl. rewrite Hrun1. exact Hrun.
    + intros path. specialize (Hlast path). simpl.
      destruct (last_declarer metas path) as [module|]; [exact Hlast |].
      unfold declares. destruct (group_declares (Loader.top meta) path) eqn:Hd.
      * apply Hlast, P1. exact Hd.
      * intros o Hold. apply Hlast, P2; assumption.
Qed.

End AttachInvariant.

(** ** The tree of a metadata set *)

Lemma last_declarer_Some (metas : list Loader.module_meta) (path : list string)
    (module : string) :
  last_declarer metas path = Some module ->
  exists meta, In meta metas /\ declares meta path = true
               /\ Loader.module_name meta = module.
Proof.
  induction metas as [|meta metas IH]; simpl; [discriminate |].
  destruct (last_declarer metas path) as [module'|].
  - intros [= ->]. destruct (IH eq_refl) as (meta' & Hin & Hd & E). eauto.
  - destruct (declares meta path) eqn:Hd; [| discriminate].
    intros [= <-]. eauto.
Qed.

Lemma last_declarer_declared (metas : list Loader.module_meta)
    (meta : Loader.module_meta) (path : list string) :
  In meta metas -> declares meta path = true ->
  exists module, last_declarer metas path = Some module.
Proof.
  induction metas as [|meta' metas IH]; simpl; [done |].
  intros [-> | Hin] Hd.
  - destruct (last_declarer metas path); [eauto |]. rewrite Hd. eauto.
  - destruct (IH Hin Hd) as [module ->]. eauto.
Qed.

Lemma last_declarer_last (pre post : list Loader.module_meta)
    (meta : Loader.module_meta) (path : list string) :
  declares meta path = true ->
  (forall later, In later post -> declares later path = false) ->
  last_declarer (pre ++ meta :: post) path = Some (Loader.module_name meta).
Proof.
  intros Hd Hpost.
  assert (Hnone : last_declarer post path = None).
  { induction post as [|later post IH]; simpl; [done |].
    rewrite IH by (intros; apply Hpost; by right).
    rewrite (Hpost later) by (by left). reflexivity. }
  induction pre as [|meta' pre IH]; simpl.
  - rewrite Hnone, Hd. reflexivity.
  - rewrite IH. reflexivity.
Qed.

Lemma no_command_is_group_xor (metas : dict Loader.module_meta) :
  no_command_is_group metas = true ->
  forall path,
    (exists c, In c (all_commands metas) /\ PyStr.split c = path) ->
    (exists g, In g (all_groups metas) /\ PyStr.split g = path) ->
    False.
Proof.
  unfold no_command_is_group. rewrite forallb_forall.
  intros H path (c & Hc & Ec) (g & Hg & Eg).
  specialize (H c Hc). rewrite forallb_forall in H. specialize (H g Hg).
  apply negb_true_iff, bool_decide_eq_false in H. congruence.
Qed.

(** On a well-formed metadata set in which no path is both a command and
    a sub-group, [build_command_tree] returns a tree in which each declared
    command path leads to the module of the last document declaring it. *)
Lemma build_command_tree_last_declarer (metas : dict Loader.module_meta) :
  well_formed_metas metas = true ->
  no_command_is_group metas = true ->
  exists tree,
    Loader.build_command_tree metas = Ok tree
    /\ forall path module,
        last_declarer (dict_values metas) path = Some module ->
        follow tree path = Some (Loader.Owner module).
Proof.
  intros Hwf Hxor.
  destruct (build_loop_ok
              (fun path => exists c, In c (all_commands metas) /\ PyStr.split c = path)
              (fun path => exists g, In g (all_groups metas) /\ PyStr.split g = path)
              (no_command_is_group_xor metas Hxor)
              (dict_values metas) [])
    as (children & Hrun & _ & Hlast).
  - intros meta Hin. unfold well_formed_metas in Hwf.
    rewrite forallb_forall in Hwf. split; [by apply Hwf |].
    split; intros key Hkey; exists key; (split; [| reflexivity]);
      apply in_flat_map; eauto.
  - constructor.
  - exists (Loader.Node children). split; [exact Hrun |].
    intros path module E. specialize (Hlast path). rewrite E in Hlast.
    exact Hlast.
Qed.

(** C6, as the code has it.  On a metadata set whose keys follow the path
    invariant, in which no path is both a command and a sub-group and no
    two modules declare the same command path, [build_command_tree]
    returns a tree in which the tokens of every declared command path lead
    to a leaf owned by the module that declared it. *)
Theorem declared_commands_resolve (metas : dict Loader.module_meta) :
  well_formed_metas metas = true ->
  no_command_is_group metas = true ->
  one_module_per_command metas = true ->
  exists tree,
    Loader.build_command_tree metas = Ok tree
    /\ forall meta c,
        In meta (dict_values metas) ->
        In c (declared_commands (Loader.top meta)) ->
        follow tree (PyStr.split c) = Some (Loader.Owner (Loader.module_name meta)).
Proof.
  intros Hwf Hxor Hone.
  destruct (build_command_tree_last_declarer metas Hwf Hxor) as (tree & Hrun & Hlast).
  exists tree. split; [exact Hrun |].
  intros meta c Hin Hc.
  assert (Hd : declares meta (PyStr.split c) = true).
  { apply group_declares_true. eauto. }
  destruct (last_declarer_declared _ _ _ Hin Hd) as [module E].
  rewrite (Hlast _ _ E). do 2 f_equal.
  destruct (last_declarer_Some _ _ _ E) as (meta' & Hin' & Hd' & <-).
  unfold one_module_per_command in Hone. rewrite forallb_forall in Hone.
  specialize (Hone meta Hin). rewrite forallb_forall in Hone.
  specialize (Hone meta' Hin'). rewrite forallb_forall in Hone.
  specialize (Hone c Hc). rewrite Hd' in Hone. simpl in Hone.
  apply bool_decide_eq_true in Hone. congruence.
Qed.

(** The sample metadata: [group create] leads to [resource], [vm show]
    to [vm]. *)
Lemma declared_commands_resolve_sample :
  exists tree,
    Loader.build_command_tree Fixtures.sample_metas = Ok tree
    /\ forall meta c,
        In meta (dict_values Fixtures.sample_metas) ->
        In c (declared_commands (Loader.top meta)) ->
        follow tree (PyStr.split c) = Some (Loader.Owner (Loader.module_name meta)).
Proof.
  exact (declared_commands_resolve Fixtures.sample_metas eq_refl eq_refl eq_refl).
Defined.

(** C6 as stated fails.  The documents [az_vm_meta.json] and
    [az_compute_meta.json] both follow the path invariant and both declare
    [vm show], which [load_command_meta] reaches in each; in the tree the
    path leads to [compute], not to [vm].  The single document
    [az_net_meta.json] follows the path invariant too, and declares [net]
    as a command and as a sub-group: building raises, and no tree
    exists to follow [net list] in. *)
Lemma declared_command_resolves_to_other_module :
  (well_formed_metas Fixtures.clashing_metas = true
   /\ In Fixtures.vm_meta (dict_values Fixtures.clashing_metas)
   /\ In "vm show" (declared_commands (Loader.top Fixtures.vm_meta))
   /\ load_command_meta Fixtures.clashing_metas ["vm"; "show"] "vm"
      = Ok Fixtures.vm_show
   /\ Loader.module_name Fixtures.vm_meta = "vm"
   /\ exists tree,
       Loader.build_command_tree Fixtures.clashing_metas = Ok tree
       /\ follow tree (PyStr.split "vm show") = Some (Loader.Owner "compute"))
  /\ (well_formed_metas Fixtures.net_metas = true
      /\ In "net list" (declared_commands (Loader.top Fixtures.net_meta))
      /\ Loader.build_command_tree Fixtures.net_metas = Raise builtin_TypeError).
Proof.
  split.
  - split; [reflexivity |]. split; [by left |]. split; [by left |].
    split; [reflexivity |]. split; [reflexivity |].
    eexists. split; reflexivity.
  - split; [reflexivity |]. split; [| reflexivity]. right. by left.
Qed.

(** C7, as the code has it.  On a metadata set whose keys follow the path
    invariant and in which no path is both a command and a sub-group: when
    two documents declare a command at the same path, building returns and
    the path leads to a leaf owned by the module of the document processed
    last among those that declare it. *)
Theorem last_writer_wins
    (pre post : dict Loader.module_meta) (file : string)
    (meta : Loader.module_meta) (path : list string) :
  well_formed_metas (pre ++ (file, meta) :: post) = true ->
  no_command_is_group (pre ++ (file, meta) :: post) = true ->
  (exists earlier, In earlier (dict_values pre) /\ declares earlier path = true) ->
  declares meta path = true ->
  (forall later, In later (dict_values post) -> declares later path = false) ->
  exists tree,
    Loader.build_command_tree (pre ++ (file, meta) :: post) = Ok tree
    /\ follow tree path = Some (Loader.Owner (Loader.module_name meta)).
Proof.
  intros Hwf Hxor _ Hd Hpost.
  destruct (build_command_tree_last_declarer _ Hwf Hxor) as (tree & Hrun & Hlast).
  exists tree. split; [exact Hrun |].
  apply Hlast. unfold dict_values. rewrite map_app. simpl.
  apply last_declarer_last; assumption.
Qed.

(** [az_vm_meta.json] then [az_compute_meta.json]: [vm show] ends up
    owned by [compute]. *)
Lemma last_writer_wins_sample :
  exists tree,
    Loader.build_command_tree Fixtures.clashing_metas = Ok tree
    /\ follow tree ["vm"; "show"] = Some (Loader.Owner "compute").
Proof.
  refine (last_writer_wins [("az_vm_meta.json", Fixtures.vm_meta)] []
            "az_compute_meta.json" Fixtures.compute_meta ["vm"; "show"]
            eq_refl eq_refl _ eq_refl _).
  - exists Fixtures.vm_meta. split; [by left | reflexivity].
  - intros later [].
Defined.

(** C7 as stated fails.  In [broken_metas] two documents declare
    [vm show] and every key follows the path invariant, yet building
    raises: the third document declares [net] as a command and as a
    sub-group.  In [shadowed_metas] building returns, but a later document
    declares the command [vm], and [vm show] leads to no leaf. *)
Lemma same_leaf_build_fails :
  declares Fixtures.vm_meta ["vm"; "show"] = true
  /\ declares Fixtures.compute_meta ["vm"; "show"] = true
  /\ well_formed_metas Fixtures.broken_metas = true
  /\ Loader.build_command_tree Fixtures.broken_metas
     = Raise builtin_TypeError
  /\ well_formed_metas Fixtures.shadowed_metas = true
  /\ exists tree,
      Loader.build_command_tree Fixtures.shadowed_metas = Ok tree
      /\ follow tree ["vm"; "show"] = None.
Proof.
  repeat (split; [reflexivity |]). eexists. split; reflexivity.
Qed.

(** ** Loops and results *)

Lemma for_each_app {A X} (body : A -> X -> result A) (xs ys : list X) (acc : A) :
  for_each body (xs ++ ys) acc = rbind (for_each body xs acc) (for_each body ys).
Proof.
  revert acc. induction xs as [|x xs IH]; intros acc; simpl; [done|].
  destruct (body acc x); simpl; auto.
Qed.

Lemma rbind_Ok_inv {A B} (r : result A) (k : A -> result B) (b : B) :
  rbind r k = Ok b -> exists a, r = Ok a /\ k a = Ok b.
Proof. destruct r; simpl; [eauto | discriminate]. Qed.

(** ** Metadata lookup *)

Lemma descend_split (signature : list string) (i n : nat) (meta : Loader.sub_group) :
  i <= n ->
  descend signature n meta
  = rbind (descend signature i meta)
          (for_each (fun meta idx =>
                       dict_getitem (Loader.sub_groups meta)
                                    (PyStr.join " " (take (idx + 1) signature)))
                    (seq i (n - i))).
Proof.
  intros Hle. unfold descend.
  replace n with (i + (n - i)) at 1 by lia.
  rewrite seq_app, for_each_app. reflexivity.
Qed.

(** C5, as the code has it.  When the module's metadata document is
    absent, or an intermediate sub-group key is absent, or the final
    command key is absent, [load_command_meta] raises the [KeyError] of the
    failed dictionary lookup, whose argument is the missing key. *)
Theorem load_command_meta_absent_key
    (metas : dict Loader.module_meta) (signature : list string) (module : string) :
  let file := "az_" +:+ module +:+ "_meta.json" in
  (dict_get file metas = None
   \/ (exists doc depth group,
          dict_get file metas = Some doc
          /\ depth < length signature - 1
          /\ descend signature depth (Loader.top doc) = Ok group
          /\ dict_get (PyStr.join " " (take (depth + 1) signature))
                      (Loader.sub_groups group) = None)
   \/ (exists doc group,
          dict_get file metas = Some doc
          /\ descend signature (length signature - 1) (Loader.top doc) = Ok group
          /\ dict_get (PyStr.join " " signature) (Loader.commands group) = None)) ->
  exists key,
    load_command_meta metas signature module = Raise (builtin_KeyError key).
Proof.
  intros file [Hdoc | [(doc & depth & group & Hdoc & Hlt & Hdesc & Hkey)
                     | (doc & group & Hdoc & Hdesc & Hkey)]];
    unfold load_command_meta, dict_getitem; fold file; rewrite Hdoc; simpl.
  - eauto.
  - rewrite (descend_split signature depth (length signature - 1)) by lia.
    rewrite Hdesc. simpl.
    destruct (length signature - 1 - depth) as [|m] eqn:Hm; [lia|].
    simpl. unfold dict_getitem at 1. rewrite Hkey. simpl. eauto.
  - rewrite Hdesc. simpl. rewrite Hkey. eauto.
Qed.

(** The three cases on the sample metadata: no document for module
    [storage]; no sub-group [disk] in module [vm]; no command [vm delete]. *)
Lemma load_command_meta_absent_key_sample :
  (dict_get ("az_" +:+ "storage" +:+ "_meta.json") Fixtures.sample_metas = None
   \/ (exists doc depth group,
          dict_get ("az_" +:+ "storage" +:+ "_meta.json") Fixtures.sample_metas
          = Some doc
          /\ depth < length ["storage"; "list"] - 1
          /\ descend ["storage"; "list"] depth (Loader.top doc) = Ok group
          /\ dict_get (PyStr.join " " (take (depth + 1) ["storage"; "list"]))
                      (Loader.sub_groups group) = None)
   \/ (exists doc group,
          dict_get ("az_" +:+ "storage" +:+ "_meta.json") Fixtures.sample_metas
          = Some doc
          /\ descend ["storage"; "list"] (length ["storage"; "list"] - 1)
                     (Loader.top doc) = Ok group
          /\ dict_get (PyStr.join " " ["storage"; "list"])
                      (Loader.commands group) = None))
  /\ exists key,
      load_command_meta Fixtures.sample_metas ["storage"; "list"] "storage"
      = Raise (builtin_KeyError key).
Proof.
  assert (H : dict_get ("az_" +:+ "storage" +:+ "_meta.json")
                       Fixtures.sample_metas = None) by reflexivity.
  split; [left; exact H |].
  apply (load_command_meta_absent_key Fixtures.sample_metas
           ["storage"; "list"] "storage").
  left; exact H.
Defined.

(** C5 as stated fails: in each of the three cases the exception is a
    [KeyError], which is neither an [UnknownCommandException] nor caught
    by a handler for [ValidateFailureException]. *)
Lemma load_command_meta_not_UnknownCommandException :
  load_command_meta Fixtures.sample_metas ["storage"; "list"] "storage"
  = Raise (builtin_KeyError "az_storage_meta.json")
  /\ load_command_meta Fixtures.sample_metas ["disk"; "list"] "vm"
     = Raise (builtin_KeyError "disk")
  /\ load_command_meta Fixtures.sample_metas ["vm"; "delete"] "vm"
     = Raise (builtin_KeyError "vm delete")
  /\ issubclass KeyError UnknownCommandException = false
  /\ issubclass KeyError ValidateFailureException = false.
Proof. repeat split; reflexivity. Qed.

(** ** The required-argument policy *)

Section PolicyLoop.

Variable namespace : Namespace.

(** The body of either loop: [skip] is the test that guards [continue]. *)
Let body (skip : Loader.param_meta -> bool) :=
  fun (missing_args : list string) (param : Loader.param_meta) =>
    if skip param then Ok missing_args
    else append_if_missing param namespace missing_args.

Let selected (skip : Loader.param_meta -> bool) (param : Loader.param_meta) : bool :=
  negb (skip param) && marked "required" param && value_absent namespace param.

Lemma marked_param_has (key : string) (param : Loader.param_meta) :
  param_has key param = marked key param.
Proof.
  unfold param_has, marked.
  destruct (param !! key) as [v|] eqn:E.
  - symmetry. apply bool_decide_eq_true. eauto.
  - symmetry. apply bool_decide_eq_false. intros [v Hv]. discriminate.
Qed.

Lemma str_items_well_formed (items : list json) :
  forallb is_str items = true ->
  str_items items
  = Ok (omap (fun item => match item with JStr s => Some s | _ => None end) items).
Proof.
  induction items as [|item items IH]; simpl; [done|].
  destruct item; simpl; try discriminate.
  intros H. rewrite (IH H). reflexivity.
Qed.

(** On a well-formed parameter the shared test never raises. *)
Lemma append_if_missing_well_formed (param : Loader.param_meta) (acc : list string) :
  well_formed_param namespace param = true ->
  append_if_missing param namespace acc
  = Ok (acc ++ if marked "required" param && value_absent namespace param
               then [recorded param] else []).
Proof.
  unfold well_formed_param, append_if_missing, value_absent, recorded,
    option_spellings.
  rewrite marked_param_has.
  destruct (marked "required" param); simpl; [| by rewrite app_nil_r].
  unfold param_getitem.
  destruct (param !! "name") as [[| | |name| |]|]; try discriminate.
  destruct (param !! "options") as [[| | | |items|]|]; try discriminate.
  intros [Hslot Hitems]%andb_prop. simpl. unfold getattribute.
  apply bool_decide_eq_true in Hslot. destruct Hslot as [value Hvalue].
  rewrite Hvalue. simpl.
  destruct (is_none value); simpl; [| by rewrite app_nil_r].
  rewrite (str_items_well_formed _ Hitems). reflexivity.
Qed.

Lemma policy_loop_well_formed (skip : Loader.param_meta -> bool)
    (parameters : list Loader.param_meta) (acc : list string) :
  forallb (well_formed_param namespace) parameters = true ->
  for_each (body skip) parameters acc
  = Ok (acc ++ map recorded (List.filter (selected skip) parameters)).
Proof.
  revert acc. induction parameters as [|param parameters IH]; intros acc; simpl.
  - by rewrite app_nil_r.
  - intros [Hparam Hrest]%andb_prop. unfold body at 1, selected at 1.
    destruct (skip param); simpl.
    + apply IH, Hrest.
    + rewrite (append_if_missing_well_formed _ _ Hparam). simpl.
      rewrite (IH _ Hrest).
      destruct (marked "required" param && value_absent namespace param); simpl.
      * by rewrite <- app_assoc.
      * by rewrite app_nil_r.
Qed.

(** Whatever the parameters look like, a loop that ends without raising
    has appended one record for each selected parameter, in their order:
    the parameter's [options] joined by [/]. *)
Lemma policy_loop_records (skip : Loader.param_meta -> bool)
    (parameters : list Loader.param_meta) (acc out : list string) :
  for_each (body skip) parameters acc = Ok out ->
  exists records,
    out = acc ++ records
    /\ Forall2 (fun param record =>
                  exists options, param !! "options" = Some options
                                  /\ join_value "/" options = Ok record)
               (List.filter (selected skip) parameters) records.
Proof.
  revert acc. induction parameters as [|param parameters IH]; intros acc; simpl.
  - intros [= <-]. exists []. split; [by rewrite app_nil_r | constructor].
  - unfold body at 1, selected at 1.
    destruct (skip param); simpl; [apply IH|].
    unfold append_if_missing, value_absent. rewrite marked_param_has.
    destruct (marked "required" param); simpl; [| apply IH].
    unfold param_getitem.
    destruct (param !! "name") as [[| | |name| |]|]; simpl; try discriminate.
    unfold getattribute.
    destruct (namespace !! name) as [value|]; simpl; [| discriminate].
    destruct (is_none value); simpl; [| apply IH].
    destruct (param !! "options") as [options|] eqn:Hopt; simpl; [| discriminate].
    destruct (join_value "/" options) as [record|] eqn:Hjoin; simpl; [| discriminate].
    intros (records & -> & Hall)%IH.
    exists (record :: records). split; [by rewrite <- app_assoc |].
    constructor; eauto.
Qed.

(** A raise inside a loop is a builtin exception, which no handler for
    [ValidateFailureException] catches. *)
Lemma policy_loop_raises (skip : Loader.param_meta -> bool)
    (parameters : list Loader.param_meta) (acc : list string) (e : exn) :
  for_each (body skip) parameters acc = Raise e ->
  caught_by ValidateFailureException e = false.
Proof.
  revert acc. induction parameters as [|param parameters IH]; intros acc; simpl.
  - discriminate.
  - unfold body at 1.
    destruct (skip param); simpl; [apply IH|].
    unfold append_if_missing.
    destruct (param_has "required" param); simpl; [| apply IH].
    unfold param_getitem.
    destruct (param !! "name") as [[| | |name| |]|]; simpl;
      try (by intros [= <-]).
    unfold getattribute.
    destruct (namespace !! name) as [value|]; simpl; [| by intros [= <-]].
    destruct (is_none value); simpl; [| apply IH].
    destruct (param !! "options") as [options|]; simpl; [| by intros [= <-]].
    destruct (join_value "/" options) as [record|e'] eqn:Hjoin; simpl;
      [apply IH |].
    intros [= <-]. revert Hjoin. unfold join_value.
    destruct options as [| | | |items|]; simpl; try (by intros [= <-]).
    assert (Hitems : forall e'', str_items items = Raise e'' ->
                                 e'' = builtin_TypeError).
    { clear. induction items as [|item items IH]; simpl; [discriminate|].
      intros e''. destruct item; simpl; try (by intros [= <-]).
      destruct (str_items items); simpl; [discriminate|].
      intros [= <-]. by apply IH. }
    destruct (str_items items) eqn:Hi; simpl; [discriminate|].
    intros [= <-]. by rewrite (Hitems _ eq_refl).
Qed.

End PolicyLoop.

(** C2.  When the [ids] slot is present, the policy records exactly the
    parameters that are marked [required], are not marked [id_part] and
    have an absent value, in the order of the parameter sequence; a
    parameter marked [id_part] is never among them. *)
Theorem policy_with_ids
    (parameters : list Loader.param_meta) (namespace : Namespace) (ids : json) :
  namespace !! "ids" = Some ids ->
  is_none ids = false ->
  forallb (well_formed_param namespace) parameters = true ->
  missing_args parameters namespace
  = Ok (map recorded (missing_with_ids parameters namespace))
  /\ forall param, In param (missing_with_ids parameters namespace) ->
                   marked "id_part" param = false.
Proof.
  intros Hids Hpresent Hwf. split.
  - unfold missing_args, getattribute. rewrite Hids. simpl. rewrite Hpresent. simpl.
    rewrite (policy_loop_well_formed namespace (param_has "id_part")) by exact Hwf.
    simpl. unfold missing_with_ids. do 2 f_equal.
    apply filter_ext. intros param. rewrite marked_param_has.
    destruct (marked "required" param), (marked "id_part" param); reflexivity.
  - intros param [_ Hsel]%filter_In.
    destruct (marked "id_part" param); [| reflexivity].
    rewrite andb_false_r in Hsel. discriminate.
Qed.

(** [az vm show --ids X]: the resource group is waived, the name is not. *)
Lemma policy_with_ids_sample :
  Fixtures.vm_show_ids_only !! "ids" = Some (JArr [JStr "X"])
  /\ missing_args (Loader.parameters Fixtures.vm_show) Fixtures.vm_show_ids_only
     = Ok ["--name/-n"].
Proof.
  split; [reflexivity |].
  exact (proj1 (policy_with_ids (Loader.parameters Fixtures.vm_show)
                  Fixtures.vm_show_ids_only (JArr [JStr "X"])
                  eq_refl eq_refl eq_refl)).
Defined.

(** C3.  When the [ids] slot is absent, the policy records exactly the
    parameters that are marked [required] and have an absent value, in
    the order of the parameter sequence, whether or not they are marked
    [id_part]. *)
Theorem policy_without_ids
    (parameters : list Loader.param_meta) (namespace : Namespace) :
  namespace !! "ids" = Some JNull ->
  forallb (well_formed_param namespace) parameters = true ->
  missing_args parameters namespace
  = Ok (map recorded (missing_without_ids parameters namespace))
  /\ forall param, In param parameters ->
                   marked "id_part" param = true ->
                   marked "required" param = true ->
                   value_absent namespace param = true ->
                   In param (missing_without_ids parameters namespace).
Proof.
  intros Hids Hwf. split.
  - unfold missing_args, getattribute. rewrite Hids. simpl.
    exact (policy_loop_well_formed namespace (fun _ => false) parameters [] Hwf).
  - intros param Hin _ Hreq Habs. apply filter_In. split; [exact Hin |].
    rewrite Hreq, Habs. reflexivity.
Qed.

(** [az vm show] with neither [--ids] nor the required parameters: both
    are recorded, the id part included. *)
Lemma policy_without_ids_sample :
  Fixtures.vm_show_bare !! "ids" = Some JNull
  /\ missing_args (Loader.parameters Fixtures.vm_show) Fixtures.vm_show_bare
     = Ok ["--resource-group/-g"; "--name/-n"].
Proof.
  split; [reflexivity |].
  exact (proj1 (policy_without_ids (Loader.parameters Fixtures.vm_show)
                  Fixtures.vm_show_bare eq_refl eq_refl)).
Defined.

(** The policy at the three inputs the specification works out for a
    command with required parameters [a] (an id part) and [b]. *)
Example policy_ids_and_b_present :
  missing_args (Loader.parameters Fixtures.vm_show) Fixtures.vm_show_ids_name = Ok [].
Proof. reflexivity. Qed.

Lemma for_each_replace {A X} (body : A -> X -> result A) (x y : X)
    (pre post : list X) (acc : A) :
  (forall acc', body acc' x = body acc' y) ->
  for_each body (pre ++ x :: post) acc = for_each body (pre ++ y :: post) acc.
Proof.
  intros Hxy. rewrite !for_each_app.
  destruct (for_each body pre acc); simpl; [| reflexivity].
  rewrite Hxy. reflexivity.
Qed.

Lemma append_if_missing_required_value
    (param : Loader.param_meta) (namespace : Namespace) (v w : json)
    (acc : list string) :
  append_if_missing (<["required" := v]> param) namespace acc
  = append_if_missing (<["required" := w]> param) namespace acc.
Proof.
  unfold append_if_missing, param_has, param_getitem.
  rewrite !lookup_insert_eq, !lookup_insert_ne by done. reflexivity.
Qed.

Lemma append_if_missing_id_part_value
    (param : Loader.param_meta) (namespace : Namespace) (v w : json)
    (acc : list string) :
  append_if_missing (<["id_part" := v]> param) namespace acc
  = append_if_missing (<["id_part" := w]> param) namespace acc.
Proof.
  unfold append_if_missing, param_has, param_getitem.
  rewrite !lookup_insert_ne by done. reflexivity.
Qed.

Lemma for_each_skip {A X} (body : A -> X -> result A) (x : X)
    (pre post : list X) (acc : A) :
  (forall acc', body acc' x = Ok acc') ->
  for_each body (pre ++ x :: post) acc = for_each body (pre ++ post) acc.
Proof.
  intros Hx. rewrite !for_each_app.
  destruct (for_each body pre acc); simpl; [| reflexivity].
  rewrite Hx. reflexivity.
Qed.

Lemma append_if_missing_unmarked
    (param : Loader.param_meta) (namespace : Namespace) (acc : list string) :
  param !! "required" = None ->
  append_if_missing param namespace acc = Ok acc.
Proof. intros Hkey. unfold append_if_missing, param_has. by rewrite Hkey. Qed.

Lemma append_if_missing_marked_absent
    (param : Loader.param_meta) (namespace : Namespace) (acc : list string)
    (mark : json) (name : string) (items : list json) :
  param !! "required" = Some mark ->
  param !! "name" = Some (JStr name) ->
  namespace !! name = Some JNull ->
  param !! "options" = Some (JArr items) ->
  forallb is_str items = true ->
  append_if_missing param namespace acc = Ok (acc ++ [recorded param]).
Proof.
  intros Hkey Hname Hslot Hoptions Hitems.
  unfold append_if_missing, param_has, param_getitem, getattribute, recorded,
    option_spellings.
  rewrite Hkey, Hname. simpl. rewrite Hslot. simpl. rewrite Hoptions. simpl.
  by rewrite (str_items_well_formed _ Hitems).
Qed.

(** C9.  The policy reads the marks [required] and [id_part] as the
    presence of the keys, and as nothing else.  A parameter without the
    key [required] is passed over, whatever else it holds: it is not
    required.  When the [ids] slot is present, a parameter that has the
    key [id_part] is passed over, whatever is stored under the key.  A
    parameter that has the key [required], whatever is stored under it,
    and that is not waived (the [ids] slot is absent, or the parameter has
    no key [id_part]) is recorded when its value is absent.  Replacing the
    value stored under either key of any parameter of any command by any
    other value changes nothing.  In particular a parameter whose metadata
    holds ["required": false] is recorded when its value is absent, and
    one that holds ["id_part": null] is waived when the [ids] slot is
    present. *)
Theorem marks_are_key_presence :
  (forall (pre post : list Loader.param_meta) (param : Loader.param_meta)
          (namespace : Namespace),
      param !! "required" = None ->
      missing_args (pre ++ param :: post) namespace
      = missing_args (pre ++ post) namespace)
  /\ (forall (pre post : list Loader.param_meta) (param : Loader.param_meta)
             (namespace : Namespace) (ids mark : json),
         namespace !! "ids" = Some ids ->
         is_none ids = false ->
         param !! "id_part" = Some mark ->
         missing_args (pre ++ param :: post) namespace
         = missing_args (pre ++ post) namespace)
  /\ (forall (pre : list Loader.param_meta) (param : Loader.param_meta)
             (namespace : Namespace) (ids mark : json) (name : string)
             (items : list json),
         namespace !! "ids" = Some ids ->
         param !! "required" = Some mark ->
         (is_none ids = false -> param !! "id_part" = None) ->
         param !! "name" = Some (JStr name) ->
         namespace !! name = Some JNull ->
         param !! "options" = Some (JArr items) ->
         forallb is_str items = true ->
         missing_args (pre ++ [param]) namespace
         = (missing <- missing_args pre namespace ;;
            Ok (missing ++ [recorded param]))%result)
  /\ (forall (pre post : list Loader.param_meta) (param : Loader.param_meta)
             (namespace : Namespace) (v w : json),
         missing_args (pre ++ <["required" := v]> param :: post) namespace
         = missing_args (pre ++ <["required" := w]> param :: post) namespace)
  /\ (forall (pre post : list Loader.param_meta) (param : Loader.param_meta)
             (namespace : Namespace) (v w : json),
         missing_args (pre ++ <["id_part" := v]> param :: post) namespace
         = missing_args (pre ++ <["id_part" := w]> param :: post) namespace)
  /\ Fixtures.tags_param !! "required" = Some (JBool false)
  /\ missing_args [Fixtures.tags_param] {[ "ids" := JNull; "tags" := JNull ]}
     = Ok ["--tags"]
  /\ Fixtures.size_param !! "id_part" = Some JNull
  /\ missing_args [Fixtures.size_param]
                  {[ "ids" := JArr [JStr "X"]; "size" := JNull ]}
     = Ok []
  /\ missing_args [Fixtures.size_param] {[ "ids" := JNull; "size" := JNull ]}
     = Ok ["--size"].
Proof.
  split; [| split; [| split; [| split; [| split; [| repeat split; reflexivity]]]]].
  - intros pre post param namespace Hkey. unfold missing_args.
    destruct (getattribute namespace "ids") as [ids|]; simpl; [| reflexivity].
    destruct (negb (is_none ids)); apply for_each_skip; intros acc.
    + destruct (param_has "id_part" param); [reflexivity |].
      by apply append_if_missing_unmarked.
    + by apply append_if_missing_unmarked.
  - intros pre post param namespace ids mark Hids Hpresent Hkey.
    unfold missing_args, getattribute. rewrite Hids. simpl. rewrite Hpresent. simpl.
    apply for_each_skip. intros acc. unfold param_has. by rewrite Hkey.
  - intros pre param namespace ids mark name items
      Hids Hkey Hwaived Hname Hslot Hoptions Hitems.
    unfold missing_args, getattribute. rewrite Hids. simpl.
    destruct (is_none ids) eqn:Hnone; simpl; rewrite for_each_app;
      destruct (for_each _ pre []) as [missing | e]; simpl; try reflexivity.
    + by rewrite (append_if_missing_marked_absent param namespace missing
                    mark name items).
    + unfold param_has at 1. rewrite (Hwaived eq_refl).
      by rewrite (append_if_missing_marked_absent param namespace missing
                    mark name items).
  - intros pre post param namespace v w. unfold missing_args.
    destruct (getattribute namespace "ids") as [ids|]; simpl; [| reflexivity].
    destruct (negb (is_none ids)); apply for_each_replace; intros acc.
    + unfold param_has. rewrite !lookup_insert_ne by done.
      destruct (param !! "id_part"); [reflexivity |].
      apply append_if_missing_required_value.
    + apply append_if_missing_required_value.
  - intros pre post param namespace v w. unfold missing_args.
    destruct (getattribute namespace "ids") as [ids|]; simpl; [| reflexivity].
    destruct (negb (is_none ids)); apply for_each_replace; intros acc.
    + unfold param_has. rewrite !lookup_insert_eq. reflexivity.
    + apply append_if_missing_id_part_value.
Qed.

(** The parameters of [group create] and of [vm show]: [--location/-l]
    has no key [required]; [--resource-group/-g] has the key [id_part];
    [--tags], marked ["required": false], follows [--name/-n]. *)
Lemma marks_are_key_presence_sample :
  missing_args ([Fixtures.name_param] ++ Fixtures.location_param :: [])
               {[ "ids" := JNull; "name" := JNull; "location" := JNull ]}
  = missing_args ([Fixtures.name_param] ++ [])
                 {[ "ids" := JNull; "name" := JNull; "location" := JNull ]}
  /\ missing_args ([] ++ Fixtures.resource_group_param :: [Fixtures.name_param])
                  Fixtures.vm_show_ids_only
     = missing_args ([] ++ [Fixtures.name_param]) Fixtures.vm_show_ids_only
  /\ missing_args ([Fixtures.name_param] ++ [Fixtures.tags_param])
                  {[ "ids" := JNull; "name" := JNull; "tags" := JNull ]}
     = (missing <- missing_args [Fixtures.name_param]
                     {[ "ids" := JNull; "name" := JNull; "tags" := JNull ]} ;;
        Ok (missing ++ [recorded Fixtures.tags_param]))%result.
Proof.
  destruct marks_are_key_presence as (Hunmarked & Hwaived & Hmarked & _).
  split; [| split].
  - exact (Hunmarked [Fixtures.name_param] [] Fixtures.location_param
             {[ "ids" := JNull; "name" := JNull; "location" := JNull ]} eq_refl).
  - exact (Hwaived [] [Fixtures.name_param] Fixtures.resource_group_param
             Fixtures.vm_show_ids_only (JArr [JStr "X"]) (JStr "resource_group")
             eq_refl eq_refl eq_refl).
  - refine (Hmarked [Fixtures.name_param] Fixtures.tags_param
              {[ "ids" := JNull; "name" := JNull; "tags" := JNull ]}
              JNull (JBool false) "tags" [JStr "--tags"]
              eq_refl eq_refl _ eq_refl eq_refl eq_refl eq_refl).
    intros Hids. discriminate Hids.
Defined.

(** ** The pipeline of [validate_command] *)

Section PipelineFacts.

Context {GlobalParser CLIParser : Type}.
Context `{collaborators : !Collaborators GlobalParser CLIParser}.

(** [validate_command] stage by stage: the first stage that raises ends
    the call. *)
Lemma validate_command_stages (command : string) (comments : bool)
    (self : CommandMetaValidator GlobalParser) :
  validate_command command comments self
  = match parse_command (command_tree self) command comments self with
    | (Raise e, self1) => (Raise e, self1)
    | (Ok cmd, self1) =>
        match load_command_meta (metas self1) (cmd_signature cmd) (cmd_module cmd) with
        | Raise e => (Raise e, self1)
        | Ok meta =>
            match build_parser meta self1 with
            | (Raise e, self2) => (Raise e, self2)
            | (Ok parser, self2) =>
                match parse_args parser (cmd_parameters cmd) self2 with
                | (Raise e, self3) => (Raise e, self3)
                | (Ok namespace, self3) =>
                    match missing_args (Loader.parameters meta) namespace with
                    | Raise e => (Raise e, self3)
                    | Ok missing =>
                        if 0 <? length missing
                        then (Raise (new_ValidateFailureException
                                       (required_message missing)), self3)
                        else (Ok PyNone, self3)
                    end
                end
            end
        end
    end.
Proof.
  unfold validate_command, bind, read, lift, raise, ret. simpl.
  destruct (parse_command _ _ _ _) as [[cmd|e] self1]; [| reflexivity].
  destruct (load_command_meta _ _ _) as [meta|e]; [| reflexivity].
  destruct (build_parser meta self1) as [[parser|e] self2]; [| reflexivity].
  destruct (parse_args _ _ _) as [[namespace|e] self3]; [| reflexivity].
  destruct (missing_args _ _) as [missing|e]; [| reflexivity].
  destruct (0 <? length missing); reflexivity.
Qed.

(** A raise inside the policy is not caught as a
    [ValidateFailureException]. *)
Lemma missing_args_raises (parameters : list Loader.param_meta)
    (namespace : Namespace) (e : exn) :
  missing_args parameters namespace = Raise e ->
  caught_by ValidateFailureException e = false.
Proof.
  unfold missing_args, getattribute.
  destruct (namespace !! "ids") as [ids|]; simpl; [| by intros [= <-]].
  destruct (negb (is_none ids)).
  - apply (policy_loop_raises namespace (param_has "id_part")).
  - apply (policy_loop_raises namespace (fun _ => false)).
Qed.

(** When the policy ends without raising, its list holds, for each
    parameter the description selects and in their order, the parameter's
    [options] joined by [/]. *)
Lemma missing_args_records (parameters : list Loader.param_meta)
    (namespace : Namespace) (missing : list string) :
  missing_args parameters namespace = Ok missing ->
  Forall2 (fun param record =>
             exists options, param !! "options" = Some options
                             /\ join_value "/" options = Ok record)
          (missing_parameters parameters namespace) missing.
Proof.
  unfold missing_args, missing_parameters, getattribute.
  destruct (namespace !! "ids") as [ids|]; simpl; [| discriminate].
  destruct (is_none ids); simpl.
  - intros (records & -> & Hall)%(policy_loop_records namespace (fun _ => false)).
    exact Hall.
  - intros (records & -> & Hall)%(policy_loop_records namespace (param_has "id_part")).
    simpl. unfold missing_with_ids.
    erewrite filter_ext; [exact Hall |].
    intros param. simpl. rewrite marked_param_has.
    destruct (marked "required" param), (marked "id_part" param); reflexivity.
Qed.

(** C4.  Once tokenization, resolution, metadata lookup and argument
    parsing have returned, [validate_command] raises an exception that a
    handler for [ValidateFailureException] catches if and only if the
    policy produced a non-empty list of missing parameters.  The exception
    is then a [ValidateFailureException] itself, and its message is the
    fixed prefix followed by the records joined by [", "]: one record for
    each missing parameter, in the order of the command's parameters, each
    the parameter's option spellings joined by [/]. *)
Theorem validate_command_raises_iff_missing
    (command : string) (comments : bool)
    (self self1 self2 self3 : CommandMetaValidator GlobalParser)
    (cmd : ParsedCommand) (meta : Loader.command_meta) (parser : CLIParser)
    (namespace : Namespace) :
  parse_command (command_tree self) command comments self = (Ok cmd, self1) ->
  load_command_meta (metas self1) (cmd_signature cmd) (cmd_module cmd) = Ok meta ->
  build_parser meta self1 = (Ok parser, self2) ->
  parse_args parser (cmd_parameters cmd) self2 = (Ok namespace, self3) ->
  ((exists e, (validate_command command comments self).1 = Raise e
              /\ caught_by ValidateFailureException e = true)
   <-> (exists missing, missing_args (Loader.parameters meta) namespace = Ok missing
                        /\ missing <> []))
  /\ (forall missing,
         missing_args (Loader.parameters meta) namespace = Ok missing ->
         missing <> [] ->
         (validate_command command comments self).1
         = Raise (new_ValidateFailureException (required_message missing))
         /\ Forall2 (fun param record =>
                       exists options, param !! "options" = Some options
                                       /\ join_value "/" options = Ok record)
                    (missing_parameters (Loader.parameters meta) namespace)
                    missing).
Proof.
  intros Hcmd Hmeta Hparser Hns.
  rewrite validate_command_stages, Hcmd, Hmeta, Hparser, Hns.
  split; [split |].
  - intros (e & Hraise & Hcaught).
    destruct (missing_args _ _) as [missing|e'] eqn:Hmissing; simpl in Hraise.
    + exists missing. split; [reflexivity |].
      destruct missing; [discriminate | discriminate].
    + injection Hraise as ->.
      rewrite (missing_args_raises _ _ _ Hmissing) in Hcaught. discriminate.
  - intros (missing & -> & Hne).
    destruct missing as [|record missing]; [done |]. simpl. eauto.
  - intros missing Hmissing Hne. rewrite Hmissing. split.
    + destruct missing; [done | reflexivity].
    + apply missing_args_records, Hmissing.
Qed.

(** C1, as the code has it.  A call that returns hands back [None]: the
    body of [validate_command] ends without a [return] statement, so the
    parsed namespace never reaches the caller. *)
Theorem validate_command_returns_None
    (command : string) (comments : bool)
    (self self' : CommandMetaValidator GlobalParser) (value : py_value) :
  validate_command command comments self = (Ok value, self') ->
  value = PyNone.
Proof.
  rewrite validate_command_stages.
  destruct (parse_command _ _ _ _) as [[cmd|e] self1]; [| discriminate].
  destruct (load_command_meta _ _ _) as [meta|e]; [| discriminate].
  destruct (build_parser meta self1) as [[parser|e] self2]; [| discriminate].
  destruct (parse_args _ _ _) as [[namespace|e] self3]; [| discriminate].
  destruct (missing_args _ _) as [missing|e]; [| discriminate].
  destruct (0 <? length missing); [discriminate |].
  intros [= <- _]. reflexivity.
Qed.

Lemma read_only_ret {A} (a : A) : read_only (ret (GlobalParser := GlobalParser) a).
Proof. intros self. reflexivity. Qed.

Lemma read_only_raise {A} (e : exn) :
  read_only (raise (GlobalParser := GlobalParser) (A := A) e).
Proof. intros self. reflexivity. Qed.

Lemma read_only_read {A} (attribute : CommandMetaValidator GlobalParser -> A) :
  read_only (read attribute).
Proof. intros self. reflexivity. Qed.

Lemma read_only_lift {A} (r : result A) :
  read_only (lift (GlobalParser := GlobalParser) r).
Proof. intros self. reflexivity. Qed.

Lemma read_only_bind {A B} (m : M GlobalParser A) (k : A -> M GlobalParser B) :
  read_only m -> (forall a, read_only (k a)) -> read_only (bind m k).
Proof.
  intros Hm Hk self. unfold bind. specialize (Hm self).
  destruct (m self) as [[a|e] self1]; simpl in *; subst self1.
  - apply Hk.
  - reflexivity.
Qed.

(** C8.  With collaborators that leave the validator alone, every call
    of [validate_command] hands back the validator it received, with the
    same metadata, command tree and global parser, whether the call
    returns or raises. *)
Theorem validate_command_read_only
    (command : string) (comments : bool)
    (self : CommandMetaValidator GlobalParser) :
  read_only_collaborators collaborators ->
  let self' := (validate_command command comments self).2 in
  self' = self
  /\ metas self' = metas self
  /\ command_tree self' = command_tree self
  /\ _global_parser self' = _global_parser self.
Proof.
  intros (Hparse & Hinit & Hload & Hargs).
  assert (Hro : read_only (validate_command command comments)).
  { unfold validate_command, build_parser.
    repeat (first [ apply read_only_bind; [| intros ?]
                  | apply read_only_read | apply read_only_lift
                  | apply read_only_ret | apply read_only_raise
                  | apply Hparse | apply Hinit | apply Hload | apply Hargs
                  | match goal with |- read_only (if ?b then _ else _) =>
                      destruct b end ]). }
  intros self'. subst self'. rewrite (Hro self). done.
Qed.

End PipelineFacts.

(** [az vm show] on the sample validator: both required parameters are
    reported, in the order of the command's parameters. *)
Lemma validate_command_raises_iff_missing_sample :
  (validate_command
     (collaborators := Fixtures.canned (Fixtures.vm_show_cmd []) Fixtures.vm_show_bare)
     "az vm show" true Fixtures.sample_validator).1
  = Raise (new_ValidateFailureException
             "the following arguments are required: --resource-group/-g, --name/-n ").
Proof.
  exact (proj1 (proj2 (validate_command_raises_iff_missing
                         (collaborators :=
                            Fixtures.canned (Fixtures.vm_show_cmd [])
                                            Fixtures.vm_show_bare)
                         "az vm show" true
                         Fixtures.sample_validator Fixtures.sample_validator
                         Fixtures.sample_validator Fixtures.sample_validator
                         (Fixtures.vm_show_cmd []) Fixtures.vm_show tt
                         Fixtures.vm_show_bare
                         eq_refl eq_refl eq_refl eq_refl)
                      ["--resource-group/-g"; "--name/-n"] eq_refl
                      ltac:(discriminate))).
Defined.

(** [az group create -n rg1 -l eastus] on the sample validator: the call
    returns, and what it returns is [None]. *)
Lemma validate_command_returns_None_sample :
  exists value,
    validate_command
      (collaborators := Fixtures.canned Fixtures.group_create_cmd
                                        Fixtures.group_create_namespace)
      "az group create -n rg1 -l eastus" true Fixtures.sample_validator
    = (Ok value, Fixtures.sample_validator)
    /\ value = PyNone.
Proof.
  exists PyNone. split; [reflexivity |].
  exact (validate_command_returns_None
           (collaborators := Fixtures.canned Fixtures.group_create_cmd
                                             Fixtures.group_create_namespace)
           "az group create -n rg1 -l eastus" true
           Fixtures.sample_validator Fixtures.sample_validator PyNone eq_refl).
Defined.

(** The stand-in collaborators are read-only, and a call that raises
    leaves the sample validator as it was. *)
Lemma validate_command_read_only_sample :
  read_only_collaborators
    (Fixtures.canned (Fixtures.vm_show_cmd []) Fixtures.vm_show_bare)
  /\ (validate_command
        (collaborators := Fixtures.canned (Fixtures.vm_show_cmd [])
                                          Fixtures.vm_show_bare)
        "az vm show" true Fixtures.sample_validator).2
     = Fixtures.sample_validator.
Proof.
  assert (H : read_only_collaborators
                (Fixtures.canned (Fixtures.vm_show_cmd []) Fixtures.vm_show_bare)).
  { repeat split. }
  split; [exact H |].
  exact (proj1 (validate_command_read_only
                  (collaborators :=
                     Fixtures.canned (Fixtures.vm_show_cmd []) Fixtures.vm_show_bare)
                  "az vm show" true Fixtures.sample_validator H)).
Defined.

(** * Further properties *)

(** ** Blank keys *)

Lemma split_from_nil (cur : list ascii) (s : string) :
  PyStr.split_from cur s = [] <-> cur = [] /\ blank s = true.
Proof.
  revert cur. induction s as [|c s IH]; intros cur; simpl.
  - destruct cur; split; try done. by intros [? _].
  - destruct (PyStr.is_space c) eqn:Hc; simpl.
    + destruct cur; simpl.
      * rewrite IH. tauto.
      * split; [discriminate | by intros [? _]].
    + rewrite IH. split; [by intros [? _] | by intros [_ ?]].
Qed.

Lemma split_nil_blank (s : string) : PyStr.split s = [] <-> blank s = true.
Proof. unfold PyStr.split. rewrite split_from_nil. tauto. Qed.

Lemma last_token_Ok (name token : string) :
  Loader.last_token name = Ok token -> ends_with name token = true.
Proof.
  unfold Loader.last_token, ends_with.
  destruct (rev (PyStr.split name)); [discriminate |].
  intros [= ->]. by apply bool_decide_eq_true.
Qed.

Lemma ends_with_not_blank (name token : string) :
  ends_with name token = true -> blank name = false.
Proof.
  unfold ends_with. destruct (blank name) eqn:Hb; [| done].
  apply split_nil_blank in Hb. rewrite Hb. discriminate.
Qed.

(** ** What a successful attach has done *)

Lemma follow_Owner (owner : string) (path : list string) (node : Loader.tree_node) :
  follow (Loader.Owner owner) path = Some node ->
  path = [] /\ node = Loader.Owner owner.
Proof. destruct path; simpl; [by intros [= <-] | discriminate]. Qed.

(** One iteration of the second loop that returns: the node is a [dict],
    the child under the key's last token was there or is created empty,
    the recursive call returned, and its result is stored back. *)
Lemma attach_sub_group_step_inv
    (attach : Loader.sub_group -> Loader.tree_node -> result Loader.tree_node)
    (node node1 : Loader.tree_node) (name : string) (sub : Loader.sub_group) :
  Loader.attach_sub_group_step attach node name sub = Ok node1 ->
  exists token children next next',
    Loader.last_token name = Ok token
    /\ node = Loader.Node children
    /\ (dict_get token children = Some next
        \/ (dict_get token children = None /\ next = Loader.Node []))
    /\ attach sub next = Ok next'
    /\ (forall token', token' <> token ->
                       forall d, node1 = Loader.Node d ->
                                 dict_get token' d = dict_get token' children)
    /\ exists d, node1 = Loader.Node d /\ dict_get token d = Some next'.
Proof.
  unfold Loader.attach_sub_group_step.
  intros (token & Htoken & H)%rbind_Ok_inv.
  apply rbind_Ok_inv in H as (node0 & Hnode0 & H).
  apply rbind_Ok_inv in H as (next & Hnext & H).
  apply rbind_Ok_inv in H as (next' & Hrec & Hstore).
  destruct node0 as [owner | children0]; [discriminate |].
  simpl in Hnext, Hstore. unfold dict_getitem in Hnext.
  destruct (dict_get token children0) as [next0|] eqn:Hget0; [| discriminate].
  injection Hnext as ->. injection Hstore as <-.
  destruct node as [owner | children].
  { destruct (negb (Loader.contains (Loader.Owner owner) token)); discriminate. }
  exists token, children, next, next'.
  split; [exact Htoken |]. split; [reflexivity |].
  simpl in Hnode0. unfold dict_has in Hnode0.
  destruct (dict_get token children) as [child|] eqn:Hget; simpl in Hnode0.
  - injection Hnode0 as <-. split; [left; congruence |]. split; [exact Hrec |].
    split.
    + intros token' Hne d [= <-]. apply dict_get_set_ne. congruence.
    + eexists. split; [reflexivity | apply dict_get_set_eq].
  - injection Hnode0 as <-. rewrite dict_get_set_eq in Hget0.
    split; [right; split; congruence |]. split; [exact Hrec |].
    split.
    + intros token' Hne d [= <-].
      rewrite !dict_get_set_ne by congruence. reflexivity.
    + eexists. split; [reflexivity | apply dict_get_set_eq].
Qed.

(** The first loop, when it returns. *)
Lemma attach_commands_effect (module : string) (cmds : dict Loader.command_meta) :
  forall node node',
    Loader.attach_commands cmds node module = Ok node' ->
    (forall name, In name (dict_keys cmds) -> blank name = false)
    /\ (forall path owner,
           follow node' path = Some (Loader.Owner owner) ->
           (owner = module
            /\ exists token,
                path = [token]
                /\ existsb (fun name => ends_with name token) (dict_keys cmds) = true)
           \/ follow node path = Some (Loader.Owner owner))
    /\ (forall children, node = Loader.Node children ->
                         exists children', node' = Loader.Node children')
    /\ (forall owner, node = Loader.Owner owner -> node' = node).
Proof.
  induction cmds as [|[name meta] cmds IH]; intros node node'.
  - intros [= <-]. split; [by intros name [] |]. split; [by right |].
    split; [eauto | done].
  - unfold Loader.attach_commands. simpl.
    intros (node1 & (token & Htoken & Hset)%rbind_Ok_inv & Hrest)%rbind_Ok_inv.
    destruct node as [owner0 | children]; [discriminate |].
    injection Hset as <-.
    destruct (IH _ _ Hrest) as (Hkeys & Howners & Hnode & _).
    apply last_token_Ok in Htoken.
    split; [| split; [| split]].
    + intros key [<- | Hkey]; [| by apply Hkeys].
      by apply ends_with_not_blank in Htoken.
    + intros path owner Hpath.
      destruct (Howners _ _ Hpath) as [(-> & token' & -> & Hex) | Hold].
      * left. split; [reflexivity |]. exists token'. split; [reflexivity |].
        simpl. by rewrite Hex, orb_true_r.
      * destruct path as [|token' path']; [discriminate |].
        rewrite follow_Node_cons in Hold.
        destruct (decide (token = token')) as [<- | Hne].
        -- rewrite dict_get_set_eq in Hold.
           apply follow_Owner in Hold as [-> [= <-]].
           left. split; [reflexivity |]. exists token. split; [reflexivity |].
           simpl. by rewrite Htoken.
        -- rewrite dict_get_set_ne in Hold by exact Hne. right. exact Hold.
    + intros children0 _. by apply (Hnode _ eq_refl).
    + discriminate.
Qed.

(** What a call of [_attach_sub_group_to_node] that returns has done:
    every key it met has a token, a [dict] is still a [dict], and an owner
    in the result is the module, placed by the group, or was there
    before. *)
Definition attach_effect (module : string) (g : Loader.sub_group) : Prop :=
  forall node node',
    Loader._attach_sub_group_to_node g node module = Ok node' ->
    (forall key, In key (declared_commands g ++ declared_groups g) ->
                 blank key = false)
    /\ (forall path owner,
           follow node' path = Some (Loader.Owner owner) ->
           (owner = module /\ group_places g path = true)
           \/ follow node path = Some (Loader.Owner owner))
    /\ (forall children, node = Loader.Node children ->
                         exists children', node' = Loader.Node children')
    /\ (forall owner, node = Loader.Owner owner -> node' = node).

Lemma attach_sub_groups_effect (module : string) (subs : dict Loader.sub_group) :
  Forall (fun entry => attach_effect module entry.2) subs ->
  forall node node',
    for_each
      (fun tree_node '(name, sub) =>
         Loader.attach_sub_group_step
           (fun sub next => Loader._attach_sub_group_to_node sub next module)
           tree_node name sub)
      subs node
    = Ok node' ->
    (forall entry, In entry subs ->
                   blank entry.1 = false
                   /\ forall key, In key (declared_commands entry.2
                                          ++ declared_groups entry.2) ->
                                  blank key = false)
    /\ (forall path owner,
           follow node' path = Some (Loader.Owner owner) ->
           (owner = module
            /\ exists token path',
                path = token :: path'
                /\ existsb (fun '(name, sub) =>
                              ends_with name token && group_places sub path')
                           subs = true)
           \/ follow node path = Some (Loader.Owner owner))
    /\ (forall children, node = Loader.Node children ->
                         exists children', node' = Loader.Node children')
    /\ (forall owner, node = Loader.Owner owner -> node' = node).
Proof.
  induction 1 as [|[name sub] subs Hsub Hsubs IH]; intros node node'.
  - intros [= <-]. split; [by intros entry [] |]. split; [by right |].
    split; [eauto | done].
  - simpl.
    intros (node1 & Hstep & Hrest)%rbind_Ok_inv.
    apply attach_sub_group_step_inv in Hstep
      as (token & children & next & next' & Htoken & -> & Hnext & Hrec
          & Hother & d & -> & Hd).
    destruct (Hsub _ _ Hrec) as (Hkeys1 & Howners1 & _ & _).
    destruct (IH _ _ Hrest) as (Hkeys & Howners & Hnode & _).
    apply last_token_Ok in Htoken.
    split; [| split; [| split]].
    + intros entry [<- | Hentry]; [| by apply Hkeys].
      split; [by apply ends_with_not_blank in Htoken | exact Hkeys1].
    + intros path owner Hpath.
      destruct (Howners _ _ Hpath) as [(-> & token' & path' & -> & Hex) | Hold].
      * left. split; [reflexivity |]. exists token', path'.
        split; [reflexivity |]. simpl. by rewrite Hex, orb_true_r.
      * destruct path as [|token' path']; [discriminate |].
        rewrite follow_Node_cons in Hold |- *.
        destruct (decide (token' = token)) as [-> | Hne].
        -- rewrite Hd in Hold.
           destruct (Howners1 _ _ Hold) as [[-> Hplaces] | Hold1].
           ++ left. split; [reflexivity |]. exists token, path'.
              split; [reflexivity |]. simpl in Hplaces |- *.
              by rewrite Htoken, Hplaces.
           ++ destruct Hnext as [Hnext | [Hnext ->]].
              ** right. by rewrite Hnext.
              ** destruct path'; discriminate.
        -- right. rewrite <- (Hother _ Hne d eq_refl). exact Hold.
    + intros children0 _. by apply (Hnode _ eq_refl).
    + discriminate.
Qed.

Lemma attach_effect_all (module : string) (g : Loader.sub_group) :
  attach_effect module g.
Proof.
  induction g as [cmds subs IH] using sub_group_nested_ind.
  intros node node'. rewrite attach_SubGroup.
  intros (node1 & Hcmds & Hsubs)%rbind_Ok_inv.
  destruct (attach_commands_effect _ _ _ _ Hcmds) as (Hk1 & Ho1 & Hn1 & Hw1).
  destruct (attach_sub_groups_effect _ _ IH _ _ Hsubs) as (Hk2 & Ho2 & Hn2 & Hw2).
  split; [| split; [| split]].
  - intros key [Hkey | Hkey]%in_app_iff.
    + apply declared_commands_SubGroup in Hkey as [Hkey | (entry & Hin & Hkey)].
      * by apply Hk1.
      * apply (Hk2 _ Hin). apply in_app_iff. by left.
    + apply declared_groups_SubGroup in Hkey as (entry & Hin & [-> | Hkey]).
      * exact (proj1 (Hk2 _ Hin)).
      * apply (Hk2 _ Hin). apply in_app_iff. by right.
  - intros path owner Hpath.
    destruct (Ho2 _ _ Hpath) as [(-> & token & path' & -> & Hex) | Hold].
    + left. split; [reflexivity |]. simpl. rewrite Hex. apply orb_true_r.
    + destruct (Ho1 _ _ Hold) as [(-> & token & -> & Hex) | Hold1].
      * left. split; [reflexivity |]. simpl. by rewrite Hex.
      * by right.
  - intros children ->. destruct (Hn1 _ eq_refl) as [children1 ->].
    by apply (Hn2 _ eq_refl).
  - intros owner ->. pose proof (Hw1 _ eq_refl) as ->.
    exact (Hw2 _ eq_refl).
Qed.

Lemma build_loop_effect (metas : list Loader.module_meta) :
  forall node node',
    for_each (fun tree meta =>
                Loader._attach_sub_group_to_node
                  (Loader.top meta) tree (Loader.module_name meta))
             metas node
    = Ok node' ->
    (forall meta key,
        In meta metas ->
        In key (declared_commands (Loader.top meta)
                ++ declared_groups (Loader.top meta)) ->
        blank key = false)
    /\ (forall path owner,
           follow node' path = Some (Loader.Owner owner) ->
           (exists meta, In meta metas
                         /\ Loader.module_name meta = owner
                         /\ group_places (Loader.top meta) path = true)
           \/ follow node path = Some (Loader.Owner owner))
    /\ (forall children, node = Loader.Node children ->
                         exists children', node' = Loader.Node children').
Proof.
  induction metas as [|meta metas IH]; intros node node'; simpl.
  - intros [= <-]. split; [by intros meta key [] |]. split; [by right | eauto].
  - intros (node1 & Hattach & Hrest)%rbind_Ok_inv.
    destruct (attach_effect_all _ _ _ _ Hattach) as (Hk1 & Ho1 & Hn1 & _).
    destruct (IH _ _ Hrest) as (Hk & Ho & Hn).
    split; [| split].
    + intros meta' key [<- | Hin]; [apply Hk1 | by apply Hk].
    + intros path owner Hpath.
      destruct (Ho _ _ Hpath) as [(meta' & Hin & E & Hp) | Hold].
      * left. exists meta'. split; [by right | done].
      * destruct (Ho1 _ _ Hold) as [[-> Hp] | Hold1]; [| by right].
        left. exists meta. split; [by left | done].
    + intros children ->. destruct (Hn1 _ eq_refl) as [children1 ->].
      by apply (Hn _ eq_refl).
Qed.

(** ** Keys without a token *)

(** X1.  Whenever [build_command_tree] returns, no command key and no
    sub-group key of any document is empty or all whitespace: such a key
    has no last token, and [name.split()[-1]] raises. *)
Theorem built_tree_keys_not_blank
    (metas : dict Loader.module_meta) (tree : Loader.tree_node) :
  Loader.build_command_tree metas = Ok tree ->
  forall key, In key (all_commands metas ++ all_groups metas) ->
              blank key = false.
Proof.
  intros Hbuild key Hkey.
  destruct (build_loop_effect _ _ _ Hbuild) as (Hkeys & _ & _).
  apply in_app_iff in Hkey as [Hkey | Hkey];
    apply in_flat_map in Hkey as (meta & Hin & Hkey);
    apply (Hkeys meta key Hin); apply in_app_iff; auto.
Qed.

(** The key [vm show] of the sample metadata. *)
Lemma built_tree_keys_not_blank_sample : blank "vm show" = false.
Proof.
  refine (built_tree_keys_not_blank Fixtures.sample_metas
            (command_tree Fixtures.sample_validator) eq_refl "vm show" _).
  simpl. tauto.
Defined.

(** ** Where owners come from *)

Lemma build_owner_placed
    (metas : dict Loader.module_meta) (tree : Loader.tree_node) :
  Loader.build_command_tree metas = Ok tree ->
  forall path owner,
    follow tree path = Some (Loader.Owner owner) ->
    exists meta, In meta (dict_values metas)
                 /\ Loader.module_name meta = owner
                 /\ group_places (Loader.top meta) path = true.
Proof.
  intros Hbuild path owner Hpath.
  destruct (build_loop_effect _ _ _ Hbuild) as (_ & Howners & _).
  destruct (Howners _ _ Hpath) as [H | Hold]; [exact H |].
  destruct path; discriminate.
Qed.

(** X2.  Whatever the metadata looks like, a tree that
    [build_command_tree] returns is a [dict], and every owner found in it
    is the module name of a document that places a command at that very
    path. *)
Theorem built_tree_owners_are_modules
    (metas : dict Loader.module_meta) (tree : Loader.tree_node) :
  Loader.build_command_tree metas = Ok tree ->
  (exists children, tree = Loader.Node children)
  /\ forall path owner,
      follow tree path = Some (Loader.Owner owner) ->
      exists meta, In meta (dict_values metas)
                   /\ Loader.module_name meta = owner
                   /\ group_places (Loader.top meta) path = true.
Proof.
  intros Hbuild. split; [| by apply build_owner_placed].
  destruct (build_loop_effect _ _ _ Hbuild) as (_ & _ & Hnode).
  by apply (Hnode _ eq_refl).
Qed.

(** The owner of [vm show] in the tree of the sample metadata. *)
Lemma built_tree_owners_are_modules_sample :
  exists meta,
    In meta (dict_values Fixtures.sample_metas)
    /\ Loader.module_name meta = "vm"
    /\ group_places (Loader.top meta) ["vm"; "show"] = true.
Proof.
  exact (proj2 (built_tree_owners_are_modules Fixtures.sample_metas
                  (command_tree Fixtures.sample_validator) eq_refl)
               ["vm"; "show"] "vm" eq_refl).
Defined.

Lemma ends_with_extends (prefix : list string) (name token : string) :
  extends_by_one prefix name = true ->
  ends_with name token = true ->
  PyStr.split name = prefix ++ [token].
Proof.
  intros [token' E]%extends_by_one_split. unfold ends_with.
  rewrite E, rev_app_distr. simpl. by intros ->%bool_decide_eq_true.
Qed.

(** Under the path invariant the place of an owner is the token path of
    the command key. *)
Lemma group_places_declares (g : Loader.sub_group) :
  forall prefix path,
    well_formed_group prefix g = true ->
    group_places g path = true ->
    group_declares g (prefix ++ path) = true.
Proof.
  induction g as [cmds subs IH] using sub_group_nested_ind.
  intros prefix path. rewrite well_formed_group_SubGroup, group_declares_SubGroup.
  intros [Hcmds Hsubs]%andb_prop.
  destruct path as [|token path']; [discriminate |]. simpl.
  intros [[Hnil Hex]%andb_prop | Hex]%orb_prop.
  - apply bool_decide_eq_true in Hnil as ->.
    apply existsb_exists in Hex as (name & Hin & Hends).
    rewrite forallb_forall in Hcmds.
    apply orb_true_intro. left. apply existsb_exists. exists name.
    split; [exact Hin |]. apply bool_decide_eq_true.
    by apply ends_with_extends; [apply Hcmds |].
  - apply existsb_exists in Hex as ([name sub] & Hin & [Hends Hplaces]%andb_prop).
    rewrite forallb_forall in Hsubs.
    destruct (andb_prop _ _ (Hsubs _ Hin)) as [Hname Hwf]. simpl in Hname, Hwf.
    apply orb_true_intro. right. apply existsb_exists. exists (name, sub).
    split; [exact Hin |]. simpl.
    pose proof (ends_with_extends _ _ _ Hname Hends) as E.
    rewrite E in Hwf.
    pose proof (proj1 (List.Forall_forall _ _) IH _ Hin _ _ Hwf Hplaces) as Hd.
    simpl in Hd. by rewrite <- app_assoc in Hd.
Qed.

(** ** The leaves of the tree *)

Lemma owner_iff_last_declarer
    (metas : dict Loader.module_meta) (tree : Loader.tree_node) :
  well_formed_metas metas = true ->
  no_command_is_group metas = true ->
  Loader.build_command_tree metas = Ok tree ->
  forall path owner,
    follow tree path = Some (Loader.Owner owner)
    <-> last_declarer (dict_values metas) path = Some owner.
Proof.
  intros Hwf Hxor Hbuild.
  destruct (build_command_tree_last_declarer metas Hwf Hxor)
    as (tree' & Hbuild' & Hlast).
  rewrite Hbuild in Hbuild'. injection Hbuild' as <-.
  intros path owner. split; [| apply Hlast].
  intros Hpath.
  destruct (build_owner_placed metas tree Hbuild _ _ Hpath)
    as (meta & Hin & <- & Hplaces).
  assert (Hd : declares meta path = true).
  { unfold well_formed_metas in Hwf. rewrite forallb_forall in Hwf.
    exact (group_places_declares _ [] path (Hwf _ Hin) Hplaces). }
  destruct (last_declarer_declared _ _ _ Hin Hd) as [owner' E].
  pose proof (Hlast _ _ E) as Hpath'. congruence.
Qed.

(** X3.  On a metadata set that follows the path invariant and in which no
    path is both a command and a sub-group, the leaves of the tree are
    exactly the declared command paths: a path leads to an owner if and
    only if some document declares it, and the owner is the module of the
    last document that does.  A path that no document declares leads to no
    owner. *)
Theorem built_tree_leaves_exact (metas : dict Loader.module_meta) :
  well_formed_metas metas = true ->
  no_command_is_group metas = true ->
  exists tree,
    Loader.build_command_tree metas = Ok tree
    /\ forall path owner,
        follow tree path = Some (Loader.Owner owner)
        <-> last_declarer (dict_values metas) path = Some owner.
Proof.
  intros Hwf Hxor.
  destruct (build_command_tree_last_declarer metas Hwf Hxor)
    as (tree & Hbuild & _).
  exists tree. split; [exact Hbuild |].
  by apply owner_iff_last_declarer.
Qed.

(** Two documents that declare the same command. *)
Lemma built_tree_leaves_exact_sample :
  exists tree,
    Loader.build_command_tree Fixtures.clashing_metas = Ok tree
    /\ forall path owner,
        follow tree path = Some (Loader.Owner owner)
        <-> last_declarer (dict_values Fixtures.clashing_metas) path = Some owner.
Proof.
  exact (built_tree_leaves_exact Fixtures.clashing_metas eq_refl eq_refl).
Defined.

(** ** The inner nodes of the tree *)

Section TreeNodes.

Variables C G : list string -> Prop.
Hypothesis command_xor_group : forall path, C path -> G path -> False.

Lemma children_ok_follow (path : list string) :
  forall prefix children node,
    children_ok C G prefix children ->
    path <> [] ->
    follow (Loader.Node children) path = Some node ->
    node_ok C G (prefix ++ path) node.
Proof.
  induction path as [|token path IH]; intros prefix children node Hok Hne;
    [done |].
  rewrite follow_Node_cons.
  destruct (dict_get token children) as [child|] eqn:Hget; [| discriminate].
  pose proof (children_ok_lookup C G _ _ _ _ Hok Hget) as Hchild.
  destruct path as [|token' path'].
  - by intros [= <-].
  - destruct child as [owner | grandchildren]; [discriminate |].
    inversion Hchild as [| p ch HG Hgrand]; subst.
    intros Hnode.
    replace (prefix ++ token :: token' :: path')
      with ((prefix ++ [token]) ++ token' :: path')
      by (by rewrite <- app_assoc).
    by apply (IH (prefix ++ [token]) grandchildren).
Qed.

(** A [dict] of the tree stays a [dict] through an attach, and each
    sub-group the attached group declares leads to a [dict]. *)
Let attach_nodes (module : string) (g : Loader.sub_group) : Prop :=
  forall prefix children children',
    well_formed_group prefix g = true ->
    (forall c, In c (declared_commands g) -> C (PyStr.split c)) ->
    (forall n, In n (declared_groups g) -> G (PyStr.split n)) ->
    children_ok C G prefix children ->
    Loader._attach_sub_group_to_node g (Loader.Node children) module
    = Ok (Loader.Node children') ->
    (forall path x,
        follow (Loader.Node children) path = Some (Loader.Node x) ->
        exists y, follow (Loader.Node children') path = Some (Loader.Node y))
    /\ (forall n, In n (declared_groups g) ->
                  exists path y,
                    PyStr.split n = prefix ++ path
                    /\ follow (Loader.Node children') path = Some (Loader.Node y)).

Lemma attach_commands_nodes (prefix : list string) (module : string)
    (cmds : dict Loader.command_meta) (children children' : dict Loader.tree_node) :
  forallb (extends_by_one prefix) (dict_keys cmds) = true ->
  (forall c, In c (dict_keys cmds) -> C (PyStr.split c)) ->
  children_ok C G prefix children ->
  Loader.attach_commands cmds (Loader.Node children) module
  = Ok (Loader.Node children') ->
  children_ok C G prefix children'
  /\ forall path x,
      follow (Loader.Node children) path = Some (Loader.Node x) ->
      exists y, follow (Loader.Node children') path = Some (Loader.Node y).
Proof.
  intros Hwf HC Hok Hrun.
  destruct (attach_commands_ok C G prefix module cmds children Hwf HC Hok)
    as (children1 & Hrun1 & Hok1 & Hget1).
  rewrite Hrun in Hrun1. injection Hrun1 as <-.
  split; [exact Hok1 |].
  intros path x Hpath. destruct path as [|token path']; [by eexists |].
  exists x. rewrite follow_Node_cons in Hpath |- *. rewrite Hget1.
  destruct (existsb (fun c => bool_decide (PyStr.split c = prefix ++ [token]))
                    (dict_keys cmds)) eqn:Hex; [| exact Hpath].
  exfalso.
  apply existsb_exists in Hex as (c & Hc & Ec%bool_decide_eq_true).
  destruct (dict_get token children) as [child|] eqn:Hget; [| discriminate].
  pose proof (children_ok_lookup C G _ _ _ _ Hok Hget) as Hchild.
  destruct child as [owner | grandchildren].
  - by apply follow_Owner in Hpath as [_ [=]].
  - inversion Hchild as [| p ch HG Hgrand]; subst.
    apply (command_xor_group (prefix ++ [token])); [| exact HG].
    rewrite <- Ec. by apply HC.
Qed.

Lemma attach_sub_groups_nodes (prefix : list string) (module : string)
    (subs : dict Loader.sub_group) :
  Forall (fun entry => attach_nodes module entry.2) subs ->
  forall children children',
    forallb (fun entry => extends_by_one prefix entry.1
                          && well_formed_group (PyStr.split entry.1) entry.2)
            subs = true ->
    (forall entry, In entry subs ->
                   G (PyStr.split entry.1)
                   /\ (forall c, In c (declared_commands entry.2) -> C (PyStr.split c))
                   /\ (forall n, In n (declared_groups entry.2) -> G (PyStr.split n))) ->
    children_ok C G prefix children ->
    for_each
      (fun tree_node '(name, sub) =>
         Loader.attach_sub_group_step
           (fun sub next => Loader._attach_sub_group_to_node sub next module)
           tree_node name sub)
      subs (Loader.Node children)
    = Ok (Loader.Node children') ->
    (forall path x,
        follow (Loader.Node children) path = Some (Loader.Node x) ->
        exists y, follow (Loader.Node children') path = Some (Loader.Node y))
    /\ (forall entry n,
           In entry subs ->
           n = entry.1 \/ In n (declared_groups entry.2) ->
           exists path y,
             PyStr.split n = prefix ++ path
             /\ follow (Loader.Node children') path = Some (Loader.Node y)).
Proof.
  induction 1 as [|[name sub] subs Hsub Hsubs IH];
    intros children children' Hwf HCG Hok.
  - intros [= <-]. split; [eauto | by intros entry n []].
  - pose proof Hwf as Hwf0. simpl in Hwf.
    apply andb_prop in Hwf as [[Hname Hwfsub]%andb_prop Hwfrest].
    simpl in Hname, Hwfsub.
    destruct (extends_by_one_split _ _ Hname) as [t E].
    destruct (HCG (name, sub) (or_introl eq_refl)) as (HG & HCsub & HGsub).
    simpl in HG, HCsub, HGsub, Hsub. rewrite E in HG, Hwfsub.
    simpl. intros (node1 & Hstep & Hrest)%rbind_Ok_inv.
    (* the tree after this entry is well kept *)
    destruct (attach_sub_groups_ok C G command_xor_group prefix module
                [(name, sub)]
                ltac:(constructor;
                      [exact (attach_ok_all C G command_xor_group module sub)
                      | constructor])
                children)
      as (children1 & Hrun1 & Hok1 & _).
    { simpl. by rewrite Hname, E, Hwfsub. }
    { intros entry [<- | []]. simpl. rewrite E. auto. }
    { exact Hok. }
    simpl in Hrun1.
    destruct (Loader.attach_sub_group_step _ (Loader.Node children) name sub)
      as [node1'|] eqn:Hstep'; [| discriminate].
    simpl in Hrun1. injection Hstep as ->. injection Hrun1 as ->.
    apply attach_sub_group_step_inv in Hstep'
      as (token & children0 & next & next' & Htoken & [= <-] & Hnext & Hrec
          & Hother & d & [= <-] & Hd).
    rewrite (last_token_split _ _ _ E) in Htoken. injection Htoken as <-.
    (* the child is a dict, before and after *)
    assert (Hchild : exists chn, next = Loader.Node chn
                                 /\ children_ok C G (prefix ++ [t]) chn).
    { destruct Hnext as [Hnext | [_ ->]].
      - pose proof (children_ok_lookup C G _ _ _ _ Hok Hnext) as Hnode.
        inversion Hnode as [p o HCt | p chn HGt Hchn]; subst.
        + exfalso. exact (command_xor_group _ HCt HG).
        + eauto.
      - exists []. split; [reflexivity | constructor]. }
    destruct Hchild as (chn & -> & Hokn).
    destruct (attach_effect_all _ _ _ _ Hrec) as (_ & _ & Hnode' & _).
    destruct (Hnode' _ eq_refl) as [chn' ->].
    destruct (Hsub _ _ _ Hwfsub HCsub HGsub Hokn Hrec) as [N1 N2].
    destruct (IH children1 children' Hwfrest) as [M1 M2];
      [intros entry Hin; apply HCG; by right | exact Hok1 | exact Hrest |].
    assert (Hkeep : forall path x,
               follow (Loader.Node children) path = Some (Loader.Node x) ->
               exists y, follow (Loader.Node children1) path = Some (Loader.Node y)).
    { intros path x Hpath. destruct path as [|token path']; [by eexists |].
      rewrite follow_Node_cons in Hpath |- *.
      destruct (decide (token = t)) as [-> | Hne].
      - rewrite Hd.
        destruct Hnext as [Hnext | [Hnext _]]; rewrite Hnext in Hpath;
          [| discriminate].
        by apply (N1 path' x).
      - rewrite (Hother _ Hne _ eq_refl). eauto. }
    split.
    + intros path x Hpath. destruct (Hkeep _ _ Hpath) as [y Hy]. by apply (M1 _ y).
    + intros entry n [<- | Hin] Hn; [| by apply (M2 entry n)]. simpl in Hn.
      destruct Hn as [-> | Hn].
      * destruct (M1 [t] chn') as [y Hy].
        { rewrite follow_Node_cons, Hd. reflexivity. }
        exists [t], y. by rewrite E.
      * destruct (N2 _ Hn) as (path & y & Esplit & Hy).
        destruct (M1 (t :: path) y) as [z Hz].
        { rewrite follow_Node_cons, Hd. exact Hy. }
        exists (t :: path), z. split; [| exact Hz].
        rewrite Esplit, <- app_assoc. reflexivity.
Qed.

Lemma attach_nodes_all (module : string) (g : Loader.sub_group) :
  attach_nodes module g.
Proof.
  induction g as [cmds subs IH] using sub_group_nested_ind.
  intros prefix children children' Hwf HC HG Hok.
  rewrite well_formed_group_SubGroup in Hwf.
  apply andb_prop in Hwf as [Hwfc Hwfs].
  rewrite attach_SubGroup. intros (node1 & Hcmds & Hsubs)%rbind_Ok_inv.
  destruct (proj1 (proj2 (proj2 (attach_commands_effect _ _ _ _ Hcmds)))
              _ eq_refl) as [children1 ->].
  destruct (attach_commands_nodes prefix module cmds children children1 Hwfc)
    as [Hok1 K1]; [| exact Hok | exact Hcmds |].
  { intros c Hc. apply HC, declared_commands_SubGroup. by left. }
  destruct (attach_sub_groups_nodes prefix module subs IH children1 children' Hwfs)
    as [M1 M2]; [| exact Hok1 | exact Hsubs |].
  { intros entry Hin. repeat split.
    - apply HG, declared_groups_SubGroup. exists entry. auto.
    - intros c Hc. apply HC, declared_commands_SubGroup. right. eauto.
    - intros n Hn. apply HG, declared_groups_SubGroup. exists entry. auto. }
  split.
  - intros path x Hpath. destruct (K1 _ _ Hpath) as [y Hy]. by apply (M1 _ y).
  - intros n (entry & Hin & Hn)%declared_groups_SubGroup. by apply (M2 entry n).
Qed.

Lemma build_loop_nodes (metas : list Loader.module_meta) :
  forall children children',
    (forall meta, In meta metas ->
                  well_formed_group [] (Loader.top meta) = true
                  /\ (forall c, In c (declared_commands (Loader.top meta)) ->
                                C (PyStr.split c))
                  /\ (forall n, In n (declared_groups (Loader.top meta)) ->
                                G (PyStr.split n))) ->
    children_ok C G [] children ->
    for_each (fun tree meta =>
                Loader._attach_sub_group_to_node
                  (Loader.top meta) tree (Loader.module_name meta))
             metas (Loader.Node children)
    = Ok (Loader.Node children') ->
    children_ok C G [] children'
    /\ (forall path x,
           follow (Loader.Node children) path = Some (Loader.Node x) ->
           exists y, follow (Loader.Node children') path = Some (Loader.Node y))
    /\ (forall meta n,
           In meta metas -> In n (declared_groups (Loader.top meta)) ->
           exists y, follow (Loader.Node children') (PyStr.split n)
                     = Some (Loader.Node y)).
Proof.
  induction metas as [|meta metas IH]; intros children children' Hmetas Hok; simpl.
  - intros [= <-]. split; [exact Hok |]. split; [eauto | by intros meta n []].
  - intros (node1 & Hattach & Hrest)%rbind_Ok_inv.
    destruct (Hmetas meta (or_introl eq_refl)) as (Hwf & HC & HG).
    destruct (attach_ok_all C G command_xor_group (Loader.module_name meta)
                (Loader.top meta) [] children Hwf HC HG Hok)
      as (children1 & Hrun1 & Hok1 & _).
    rewrite Hattach in Hrun1. injection Hrun1 as ->.
    destruct (attach_nodes_all _ _ [] children children1 Hwf HC HG Hok Hattach)
      as [N1 N2].
    destruct (IH children1 children') as (Hok' & M1 & M2);
      [intros meta' Hin; apply Hmetas; by right | exact Hok1 | exact Hrest |].
    split; [exact Hok' |]. split.
    + intros path x Hpath. destruct (N1 _ _ Hpath) as [y Hy]. by apply (M1 _ y).
    + intros meta' n [<- | Hin] Hn; [| by apply (M2 meta' n)].
      destruct (N2 _ Hn) as (path & y & E & Hy). simpl in E. rewrite E.
      by apply (M1 _ y).
Qed.

End TreeNodes.

(** X4.  On a metadata set that follows the path invariant and in which no
    path is both a command and a sub-group, the inner nodes of the tree
    are exactly the declared sub-group paths: every declared sub-group
    leads to a [dict], whether or not it holds a command, and every
    [dict] below the root sits at a declared sub-group path. *)
Theorem built_tree_nodes_exact (metas : dict Loader.module_meta) :
  well_formed_metas metas = true ->
  no_command_is_group metas = true ->
  exists tree,
    Loader.build_command_tree metas = Ok tree
    /\ forall path,
        path <> [] ->
        (exists children, follow tree path = Some (Loader.Node children))
        <-> (exists n, In n (all_groups metas) /\ PyStr.split n = path).
Proof.
  intros Hwf Hxor.
  destruct (build_command_tree_last_declarer metas Hwf Hxor)
    as (tree & Hbuild & _).
  destruct (proj2 (proj2 (build_loop_effect _ _ _ Hbuild)) _ eq_refl)
    as [children ->].
  exists (Loader.Node children). split; [exact Hbuild |].
  destruct (build_loop_nodes
              (fun path => exists c, In c (all_commands metas) /\ PyStr.split c = path)
              (fun path => exists g, In g (all_groups metas) /\ PyStr.split g = path)
              (no_command_is_group_xor metas Hxor)
              (dict_values metas) [] children)
    as (Hok & _ & Hgroups); [| constructor | exact Hbuild |].
  { intros meta Hin. unfold well_formed_metas in Hwf.
    rewrite forallb_forall in Hwf. split; [by apply Hwf |].
    split; intros key Hkey; exists key; (split; [| reflexivity]);
      apply in_flat_map; eauto. }
  intros path Hne. split.
  - intros [grandchildren Hpath].
    pose proof (children_ok_follow _ _ path [] children _ Hok Hne Hpath) as Hnode.
    by inversion Hnode.
  - intros (n & (meta & Hin & Hn)%in_flat_map & <-). by apply (Hgroups meta n).
Qed.

(** The sample metadata. *)
Lemma built_tree_nodes_exact_sample :
  exists tree,
    Loader.build_command_tree Fixtures.sample_metas = Ok tree
    /\ forall path,
        path <> [] ->
        (exists children, follow tree path = Some (Loader.Node children))
        <-> (exists n, In n (all_groups Fixtures.sample_metas)
                       /\ PyStr.split n = path).
Proof.
  exact (built_tree_nodes_exact Fixtures.sample_metas eq_refl eq_refl).
Defined.

(** ** The order of the documents *)

Lemma dict_values_Permutation {V} (d d' : dict V) :
  Permutation d d' -> Permutation (dict_values d) (dict_values d').
Proof. apply Permutation_map. Qed.

Lemma well_formed_metas_Permutation (metas metas' : dict Loader.module_meta) :
  Permutation metas metas' ->
  well_formed_metas metas = true -> well_formed_metas metas' = true.
Proof.
  intros Hperm%dict_values_Permutation. unfold well_formed_metas.
  rewrite !forallb_forall. intros H meta Hin. apply H.
  by apply (Permutation_in _ (Permutation_sym Hperm)).
Qed.

Lemma all_commands_Permutation (metas metas' : dict Loader.module_meta) (c : string) :
  Permutation metas metas' ->
  In c (all_commands metas') -> In c (all_commands metas).
Proof.
  intros Hperm%dict_values_Permutation. unfold all_commands.
  rewrite !in_flat_map. intros (meta & Hin & Hc). exists meta. split; [| done].
  by apply (Permutation_in _ (Permutation_sym Hperm)).
Qed.

Lemma all_groups_Permutation (metas metas' : dict Loader.module_meta) (n : string) :
  Permutation metas metas' ->
  In n (all_groups metas') -> In n (all_groups metas).
Proof.
  intros Hperm%dict_values_Permutation. unfold all_groups.
  rewrite !in_flat_map. intros (meta & Hin & Hc). exists meta. split; [| done].
  by apply (Permutation_in _ (Permutation_sym Hperm)).
Qed.

Lemma no_command_is_group_Permutation (metas metas' : dict Loader.module_meta) :
  Permutation metas metas' ->
  no_command_is_group metas = true -> no_command_is_group metas' = true.
Proof.
  intros Hperm. unfold no_command_is_group. rewrite !forallb_forall.
  intros H c Hc. rewrite forallb_forall. intros g Hg.
  specialize (H c (all_commands_Permutation _ _ _ Hperm Hc)).
  rewrite forallb_forall in H.
  exact (H g (all_groups_Permutation _ _ _ Hperm Hg)).
Qed.

(** When no two modules declare the same command path, the last declarer
    of a path does not depend on the order of the documents. *)
Lemma last_declarer_Permutation (metas metas' : dict Loader.module_meta)
    (path : list string) (owner : string) :
  one_module_per_command metas = true ->
  Permutation metas metas' ->
  last_declarer (dict_values metas) path = Some owner ->
  last_declarer (dict_values metas') path = Some owner.
Proof.
  intros Hone Hperm%dict_values_Permutation
         (meta & Hin & Hd & <-)%last_declarer_Some.
  destruct (last_declarer_declared (dict_values metas') meta path) as [owner' E].
  { by apply (Permutation_in _ Hperm). }
  { exact Hd. }
  rewrite E. f_equal.
  apply last_declarer_Some in E as (meta' & Hin' & Hd' & <-).
  apply (Permutation_in _ (Permutation_sym Hperm)) in Hin'.
  apply group_declares_true in Hd as (c & Hc & <-).
  unfold one_module_per_command in Hone. rewrite forallb_forall in Hone.
  specialize (Hone meta Hin). rewrite forallb_forall in Hone.
  specialize (Hone meta' Hin'). rewrite forallb_forall in Hone.
  specialize (Hone c Hc). rewrite Hd' in Hone. simpl in Hone.
  apply bool_decide_eq_true in Hone. congruence.
Qed.

(** X5.  On a metadata set that follows the path invariant, in which no
    path is both a command and a sub-group and no two modules declare the
    same command path, the order in which the documents are processed does
    not matter: any reordering builds a tree that leads every path to the
    same owner. *)
Theorem built_tree_order_independent (metas metas' : dict Loader.module_meta) :
  Permutation metas metas' ->
  well_formed_metas metas = true ->
  no_command_is_group metas = true ->
  one_module_per_command metas = true ->
  exists tree tree',
    Loader.build_command_tree metas = Ok tree
    /\ Loader.build_command_tree metas' = Ok tree'
    /\ forall path owner,
        follow tree path = Some (Loader.Owner owner)
        <-> follow tree' path = Some (Loader.Owner owner).
Proof.
  intros Hperm Hwf Hxor Hone.
  pose proof (well_formed_metas_Permutation _ _ Hperm Hwf) as Hwf'.
  pose proof (no_command_is_group_Permutation _ _ Hperm Hxor) as Hxor'.
  destruct (build_command_tree_last_declarer metas Hwf Hxor)
    as (tree & Hbuild & _).
  destruct (build_command_tree_last_declarer metas' Hwf' Hxor')
    as (tree' & Hbuild' & _).
  exists tree, tree'. split; [exact Hbuild |]. split; [exact Hbuild' |].
  intros path owner.
  rewrite (owner_iff_last_declarer metas tree Hwf Hxor Hbuild).
  rewrite (owner_iff_last_declarer metas' tree' Hwf' Hxor' Hbuild').
  split.
  - by apply last_declarer_Permutation.
  - intros E.
    destruct (last_declarer_Some _ _ _ E) as (meta & Hin & Hd & <-).
    apply (Permutation_in _ (Permutation_sym (dict_values_Permutation _ _ Hperm)))
      in Hin.
    destruct (last_declarer_declared _ _ _ Hin Hd) as [owner E'].
    rewrite E'. f_equal.
    apply (last_declarer_Permutation _ _ _ _ Hone Hperm) in E'. congruence.
Qed.

(** The sample metadata, with its two documents in either order. *)
Lemma built_tree_order_independent_sample :
  exists tree tree',
    Loader.build_command_tree Fixtures.sample_metas = Ok tree
    /\ Loader.build_command_tree
         [("az_vm_meta.json", Fixtures.vm_meta);
          ("az_resource_meta.json", Fixtures.resource_meta)] = Ok tree'
    /\ forall path owner,
        follow tree path = Some (Loader.Owner owner)
        <-> follow tree' path = Some (Loader.Owner owner).
Proof.
  refine (built_tree_order_independent Fixtures.sample_metas
            [("az_vm_meta.json", Fixtures.vm_meta);
             ("az_resource_meta.json", Fixtures.resource_meta)]
            _ eq_refl eq_refl eq_refl).
  apply perm_swap.
Defined.

(** ** Looking up what was declared *)

Lemma dict_get_NoDup {V} (k : string) (v : V) (d : dict V) :
  NoDup (dict_keys d) -> In (k, v) d -> dict_get k d = Some v.
Proof.
  induction d as [|[k' v'] d IH]; simpl; [done |].
  intros [Hnotin Hnodup]%NoDup_cons [[= -> ->] | Hin].
  - by rewrite bool_decide_eq_true_2.
  - rewrite bool_decide_eq_false_2; [by apply IH |].
    intros ->. apply Hnotin. apply list_elem_of_In.
    apply in_map_iff. by exists (k, v).
Qed.

Lemma well_keyed_SubGroup (cmds : dict Loader.command_meta)
    (subs : dict Loader.sub_group) :
  well_keyed (Loader.SubGroup cmds subs) = true ->
  NoDup (dict_keys cmds)
  /\ (forall c, In c (dict_keys cmds) -> normalized c = true)
  /\ NoDup (dict_keys subs)
  /\ forall entry, In entry subs ->
                   normalized entry.1 = true /\ well_keyed entry.2 = true.
Proof.
  simpl. intros [[[H1 H2]%andb_prop H3]%andb_prop H4]%andb_prop.
  apply bool_decide_eq_true in H1, H3. rewrite forallb_forall in H2, H4.
  repeat split; auto; specialize (H4 _ H); destruct entry;
    by apply andb_prop in H4 as [? ?].
Qed.

Lemma declared_entries_commands (g : Loader.sub_group) (c : string)
    (spec : Loader.command_meta) :
  In (c, spec) (declared_entries g) -> In c (declared_commands g).
Proof.
  induction g as [cmds subs IH] using sub_group_nested_ind. simpl.
  rewrite !in_app_iff, !in_flat_map.
  intros [Hin | ([name sub] & Hin & Hc)].
  - left. apply in_map_iff. by exists (c, spec).
  - right. exists (name, sub). split; [exact Hin |].
    exact (proj1 (List.Forall_forall _ _) IH _ Hin Hc).
Qed.

(** From a well-formed, well-keyed group reached by [prefix], the rest of
    the descent and the final lookup find every command entry declared
    below it. *)
Lemma descend_finds (g : Loader.sub_group) :
  forall prefix c spec,
    well_formed_group prefix g = true ->
    well_keyed g = true ->
    In (c, spec) (declared_entries g) ->
    rbind (for_each
             (fun meta idx =>
                dict_getitem (Loader.sub_groups meta)
                             (PyStr.join " " (take (idx + 1) (PyStr.split c))))
             (seq (length prefix) (length (PyStr.split c) - 1 - length prefix))
             g)
          (fun meta => dict_getitem (Loader.commands meta)
                                    (PyStr.join " " (PyStr.split c)))
    = Ok spec.
Proof.
  induction g as [cmds subs IH] using sub_group_nested_ind.
  intros prefix c spec Hwf Hkeyed Hin.
  pose proof Hwf as Hwf0. rewrite well_formed_group_SubGroup in Hwf.
  apply andb_prop in Hwf as [Hwfc Hwfs].
  destruct (well_keyed_SubGroup _ _ Hkeyed) as (Hnd & Hnorm & Hnds & Hsubs).
  simpl in Hin. apply in_app_iff in Hin as [Hin | Hin].
  - assert (Hc : In c (dict_keys cmds)).
    { apply in_map_iff. by exists (c, spec). }
    rewrite forallb_forall in Hwfc.
    destruct (extends_by_one_split _ _ (Hwfc c Hc)) as [t E].
    replace (length (PyStr.split c) - 1 - length prefix) with 0
      by (rewrite E, length_app; simpl; lia).
    simpl. pose proof (Hnorm c Hc) as Hn. apply bool_decide_eq_true in Hn.
    rewrite Hn. unfold dict_getitem. by rewrite (dict_get_NoDup _ _ _ Hnd Hin).
  - apply in_flat_map in Hin as ([name sub] & Hentry & Hin).
    rewrite forallb_forall in Hwfs.
    destruct (andb_prop _ _ (Hwfs _ Hentry)) as [Hname Hwfsub].
    simpl in Hname, Hwfsub.
    destruct (extends_by_one_split _ _ Hname) as [t E].
    destruct (Hsubs _ Hentry) as [Hnormname Hkeyedsub]. simpl in *.
    destruct (declared_command_extends sub (PyStr.split name) c Hwfsub
                (declared_entries_commands _ _ _ Hin))
      as (token & rest & Ec).
    pose proof (proj1 (List.Forall_forall _ _) IH _ Hentry
                  (PyStr.split name) c spec Hwfsub Hkeyedsub Hin) as Hrec.
    simpl in Hrec.
    assert (Hlen : length (PyStr.split name) = S (length prefix)).
    { rewrite E, length_app. simpl. lia. }
    assert (Hclen : length (PyStr.split c) - 1 - length prefix
                    = S (length (PyStr.split c) - 1 - S (length prefix))).
    { rewrite Ec, length_app, Hlen. simpl. lia. }
    rewrite Hclen. simpl.
    assert (Htake : take (length prefix + 1) (PyStr.split c) = PyStr.split name).
    { rewrite Ec. replace (length prefix + 1) with (length (PyStr.split name)) by lia.
      by rewrite take_app_length. }
    rewrite Htake. apply bool_decide_eq_true in Hnormname. rewrite Hnormname.
    unfold dict_getitem at 1. rewrite (dict_get_NoDup _ _ _ Hnds Hentry). simpl.
    rewrite Hlen in Hrec. exact Hrec.
Qed.

(** X6.  The lookup finds what the metadata declares.  In a document whose
    keys follow the path invariant, are normalized and are distinct within
    each [dict], [load_command_meta], called with the tokens of a declared
    command key and the document's module, returns that command's
    metadata. *)
Theorem load_command_meta_finds_declared
    (metas : dict Loader.module_meta) (module : string)
    (doc : Loader.module_meta) (c : string) (spec : Loader.command_meta) :
  dict_get ("az_" +:+ module +:+ "_meta.json") metas = Some doc ->
  well_formed_group [] (Loader.top doc) = true ->
  well_keyed (Loader.top doc) = true ->
  In (c, spec) (declared_entries (Loader.top doc)) ->
  load_command_meta metas (PyStr.split c) module = Ok spec.
Proof.
  intros Hdoc Hwf Hkeyed Hin.
  unfold load_command_meta, dict_getitem. rewrite Hdoc. simpl.
  pose proof (descend_finds _ [] c spec Hwf Hkeyed Hin) as H.
  simpl in H. rewrite Nat.sub_0_r in H. exact H.
Qed.

(** [vm show] in the sample metadata. *)
Lemma load_command_meta_finds_declared_sample :
  load_command_meta Fixtures.sample_metas (PyStr.split "vm show") "vm"
  = Ok Fixtures.vm_show.
Proof.
  refine (load_command_meta_finds_declared Fixtures.sample_metas "vm"
            Fixtures.vm_meta "vm show" Fixtures.vm_show
            eq_refl eq_refl eq_refl _).
  by left.
Defined.

(** X7.  The tree and the lookup agree.  On a metadata set that follows
    the path invariant, with normalized and distinct keys, files named
    after the modules, no path both a command and a sub-group and no two
    modules declaring the same command path: for every declared command,
    the owner that the tree gives for its tokens names the document in
    which [load_command_meta] finds that command's metadata. *)
Theorem tree_and_lookup_agree (metas : dict Loader.module_meta) :
  well_formed_metas metas = true ->
  well_keyed_metas metas = true ->
  no_command_is_group metas = true ->
  one_module_per_command metas = true ->
  exists tree,
    Loader.build_command_tree metas = Ok tree
    /\ forall file doc c spec,
        In (file, doc) metas ->
        In (c, spec) (declared_entries (Loader.top doc)) ->
        exists owner,
          follow tree (PyStr.split c) = Some (Loader.Owner owner)
          /\ load_command_meta metas (PyStr.split c) owner = Ok spec.
Proof.
  intros Hwf [Hnd Hfiles]%andb_prop Hxor Hone.
  apply bool_decide_eq_true in Hnd. rewrite forallb_forall in Hfiles.
  destruct (build_command_tree_last_declarer metas Hwf Hxor)
    as (tree & Hbuild & Hlast).
  exists tree. split; [exact Hbuild |].
  intros file doc c spec Hdoc Hin.
  destruct (andb_prop _ _ (Hfiles _ Hdoc)) as [->%bool_decide_eq_true Hkeyed].
  assert (Hvalue : In doc (dict_values metas)).
  { apply in_map_iff. by exists ("az_" +:+ Loader.module_name doc +:+ "_meta.json", doc). }
  assert (Hd : declares doc (PyStr.split c) = true).
  { apply group_declares_true. exists c.
    split; [by apply (declared_entries_commands _ _ spec) | done]. }
  destruct (last_declarer_declared _ _ _ Hvalue Hd) as [owner E].
  exists owner. split; [by apply Hlast |].
  destruct (last_declarer_Some _ _ _ E) as (doc' & Hin' & Hd' & <-).
  assert (Hsame : Loader.module_name doc = Loader.module_name doc').
  { unfold one_module_per_command in Hone. rewrite forallb_forall in Hone.
    specialize (Hone doc Hvalue). rewrite forallb_forall in Hone.
    specialize (Hone doc' Hin'). rewrite forallb_forall in Hone.
    specialize (Hone c (declared_entries_commands _ _ _ Hin)).
    rewrite Hd' in Hone. simpl in Hone. by apply bool_decide_eq_true in Hone. }
  rewrite <- Hsame.
  unfold load_command_meta, dict_getitem.
  rewrite (dict_get_NoDup _ _ _ Hnd Hdoc). simpl.
  unfold well_formed_metas in Hwf. rewrite forallb_forall in Hwf.
  pose proof (descend_finds _ [] c spec (Hwf _ Hvalue) Hkeyed Hin) as H.
  simpl in H. rewrite Nat.sub_0_r in H. exact H.
Qed.

(** The sample metadata. *)
Lemma tree_and_lookup_agree_sample :
  exists tree,
    Loader.build_command_tree Fixtures.sample_metas = Ok tree
    /\ forall file doc c spec,
        In (file, doc) Fixtures.sample_metas ->
        In (c, spec) (declared_entries (Loader.top doc)) ->
        exists owner,
          follow tree (PyStr.split c) = Some (Loader.Owner owner)
          /\ load_command_meta Fixtures.sample_metas (PyStr.split c) owner = Ok spec.
Proof.
  exact (tree_and_lookup_agree Fixtures.sample_metas eq_refl eq_refl eq_refl eq_refl).
Defined.

(** ** More on the required-argument policy *)

Lemma well_formed_param_insert_ids (namespace : Namespace) (ids : json)
    (param : Loader.param_meta) :
  well_formed_param namespace param = true ->
  well_formed_param (<["ids" := ids]> namespace) param = true.
Proof.
  unfold well_formed_param.
  destruct (param !! "name") as [[| | |name| |]|]; try done.
  destruct (param !! "options") as [[| | | |items|]|]; try done.
  intros [Hslot Hitems]%andb_prop. apply andb_true_intro. split; [| exact Hitems].
  apply bool_decide_eq_true in Hslot. apply bool_decide_eq_true.
  apply lookup_insert_is_Some. destruct (decide ("ids" = name)); auto.
Qed.

Lemma value_absent_insert_ids (namespace : Namespace) (ids : json)
    (param : Loader.param_meta) :
  named "ids" param = false ->
  value_absent (<["ids" := ids]> namespace) param = value_absent namespace param.
Proof.
  unfold named, value_absent.
  destruct (param !! "name") as [[| | |name| |]|]; try done.
  intros Hne%bool_decide_eq_false. by rewrite lookup_insert_ne.
Qed.

(** X8.  Supplying [--ids] only waives.  For parameters of the shape the
    data model gives them, none of which is itself named [ids], the list
    recorded when the [ids] slot is present is a sublist of the list
    recorded for the same namespace with the slot absent. *)
Theorem ids_only_waives
    (parameters : list Loader.param_meta) (namespace : Namespace) (ids : json) :
  namespace !! "ids" = Some JNull ->
  is_none ids = false ->
  forallb (well_formed_param namespace) parameters = true ->
  forallb (fun param => negb (named "ids" param)) parameters = true ->
  exists without_ids with_ids,
    missing_args parameters namespace = Ok without_ids
    /\ missing_args parameters (<["ids" := ids]> namespace) = Ok with_ids
    /\ sublist with_ids without_ids.
Proof.
  intros Hids Hpresent Hwf Hnames.
  exists (map recorded (missing_without_ids parameters namespace)),
         (map recorded (missing_with_ids parameters (<["ids" := ids]> namespace))).
  split; [| split].
  - unfold missing_args, getattribute. rewrite Hids. simpl.
    exact (policy_loop_well_formed namespace (fun _ => false) parameters [] Hwf).
  - unfold missing_args, getattribute. rewrite lookup_insert_eq. simpl.
    rewrite Hpresent. simpl.
    rewrite (policy_loop_well_formed (<["ids" := ids]> namespace)
               (param_has "id_part")).
    + simpl. unfold missing_with_ids. do 2 f_equal.
      apply filter_ext. intros param. rewrite marked_param_has.
      by destruct (marked "required" param), (marked "id_part" param).
    + rewrite forallb_forall in Hwf |- *. intros param Hin.
      by apply well_formed_param_insert_ids, Hwf.
  - unfold missing_with_ids, missing_without_ids.
    clear Hwf. induction parameters as [|param parameters IH]; simpl; [done |].
    simpl in Hnames. apply andb_prop in Hnames as [Hname Hnames].
    apply negb_true_iff in Hname.
    rewrite (value_absent_insert_ids _ _ _ Hname).
    destruct (marked "required" param), (marked "id_part" param),
      (value_absent namespace param); simpl;
      first [ apply sublist_skip, IH, Hnames
            | apply sublist_cons, IH, Hnames
            | apply IH, Hnames ].
Qed.

(** [az vm show] without and with [--ids X]. *)
Lemma ids_only_waives_sample :
  exists without_ids with_ids,
    missing_args (Loader.parameters Fixtures.vm_show) Fixtures.vm_show_bare
    = Ok without_ids
    /\ missing_args (Loader.parameters Fixtures.vm_show)
                    (<["ids" := JArr [JStr "X"]]> Fixtures.vm_show_bare)
       = Ok with_ids
    /\ sublist with_ids without_ids.
Proof.
  exact (ids_only_waives (Loader.parameters Fixtures.vm_show)
           Fixtures.vm_show_bare (JArr [JStr "X"])
           eq_refl eq_refl eq_refl eq_refl).
Defined.

(** X9.  The policy stops at the first parameter it cannot read.  After
    any well-shaped parameters, a parameter that is marked [required] and
    is not waived makes the policy raise, whatever was recorded before
    and whatever follows: [KeyError] when it has no [name], [AttributeError]
    when its name is no slot of the namespace, and [KeyError] when its
    value is absent and it has no [options]. *)
Theorem policy_stops_at_unreadable_parameter
    (pre post : list Loader.param_meta) (param : Loader.param_meta)
    (namespace : Namespace) (ids : json) :
  namespace !! "ids" = Some ids ->
  forallb (well_formed_param namespace) pre = true ->
  param_has "required" param = true ->
  (is_none ids = false -> param_has "id_part" param = false) ->
  (param !! "name" = None ->
   missing_args (pre ++ param :: post) namespace = Raise (builtin_KeyError "name"))
  /\ (forall name,
         param !! "name" = Some (JStr name) ->
         namespace !! name = None ->
         missing_args (pre ++ param :: post) namespace
         = Raise (builtin_AttributeError name))
  /\ (forall name,
         param !! "name" = Some (JStr name) ->
         namespace !! name = Some JNull ->
         param !! "options" = None ->
         missing_args (pre ++ param :: post) namespace
         = Raise (builtin_KeyError "options")).
Proof.
  intros Hids Hwf Hreq Hwaived.
  assert (Hbody : forall r,
             (forall acc, append_if_missing param namespace acc = Raise r) ->
             missing_args (pre ++ param :: post) namespace = Raise r).
  { intros r Hr. unfold missing_args, getattribute. rewrite Hids. simpl.
    destruct (is_none ids) eqn:Hnone; simpl; rewrite for_each_app.
    - rewrite (policy_loop_well_formed namespace (fun _ => false) pre [] Hwf).
      simpl. by rewrite Hr.
    - rewrite (policy_loop_well_formed namespace (param_has "id_part") pre [] Hwf).
      simpl. rewrite (Hwaived eq_refl). by rewrite Hr. }
  split; [| split].
  - intros Hname. apply Hbody. intros acc.
    unfold append_if_missing, param_getitem. by rewrite Hreq, Hname.
  - intros name Hname Hslot. apply Hbody. intros acc.
    unfold append_if_missing, param_getitem, getattribute.
    rewrite Hreq, Hname. simpl. by rewrite Hslot.
  - intros name Hname Hslot Hoptions. apply Hbody. intros acc.
    unfold append_if_missing, param_getitem, getattribute.
    rewrite Hreq, Hname. simpl. rewrite Hslot. simpl. by rewrite Hoptions.
Qed.

(** A nameless required parameter between two parameters of
    [group create]. *)
Lemma policy_stops_at_unreadable_parameter_sample :
  missing_args
    ([Fixtures.name_param] ++ PolicyFixtures.nameless_param
                              :: [Fixtures.location_param])
    Fixtures.group_create_namespace
  = Raise (builtin_KeyError "name").
Proof.
  refine (proj1 (policy_stops_at_unreadable_parameter
                   [Fixtures.name_param] [Fixtures.location_param]
                   PolicyFixtures.nameless_param Fixtures.group_create_namespace
                   JNull eq_refl eq_refl eq_refl _) eq_refl).
  intros Hids. discriminate Hids.
Defined.

(** ** Fetching and loading the metadata files *)

Section StoreFacts.

Import MetadataStore.

Context {Doc W : Type}.
Variable env : forall ev, W -> answer Doc ev * W.

Lemma run_then {R R'} (p : interaction Doc R) (f : R -> interaction Doc R') (w : W) :
  run env (then_ p f) w
  = let '(r, w1, asked1) := run env p w in
    let '(r', w2, asked2) := run env (f r) w1 in
    (r', w2, asked1 ++ asked2).
Proof.
  revert w. induction p as [r | ev k IH]; intros w; simpl.
  - by destruct (run env (f r) w) as [[r' w2] asked2].
  - destruct (env ev w) as [x w']. rewrite IH.
    destruct (run env (k x) w') as [[r w1] asked1].
    by destruct (run env (f r) w1) as [[r' w2] asked2].
Qed.

Lemma run_and_then {A B} (p : io Doc A) (f : A -> io Doc B) (w : W) :
  run env (and_then p f) w
  = let '(r, w1, asked1) := run env p w in
    match r with
    | Done a => let '(r', w2, asked2) := run env (f a) w1 in (r', w2, asked1 ++ asked2)
    | Failed e => (Failed e, w1, asked1)
    end.
Proof.
  unfold and_then. rewrite run_then.
  destruct (run env p w) as [[[a | e] w1] asked1]; simpl; [done |].
  by rewrite app_nil_r.
Qed.

Lemma run_try_except {A} (p : io Doc A) (handler : store_exn -> io Doc A) (w : W) :
  run env (try_except p handler) w
  = let '(r, w1, asked1) := run env p w in
    match r with
    | Done a => (Done a, w1, asked1)
    | Failed e =>
        let '(r', w2, asked2) := run env (handler e) w1 in (r', w2, asked1 ++ asked2)
    end.
Proof.
  unfold try_except. rewrite run_then.
  destruct (run env p w) as [[[a | e] w1] asked1]; simpl; [| done].
  by rewrite app_nil_r.
Qed.

(** X10.  [download_blob] converts the SDK's [ResourceNotFoundError]
    and nothing else.  Whatever the environment answers, a call ends as
    its [try] block does, after the same operations, except that an
    exception of class [ResourceNotFoundError] is replaced by a
    [ResourceNotExistException] with the same message: the exception is
    neither let through nor swallowed, and every other exception passes
    unchanged.  In particular, when [blob.download_blob()] raises a
    [ResourceNotFoundError] and the file closes, the call raises
    [ResourceNotExistException] with the message of that error. *)
Theorem download_blob_converts_ResourceNotFoundError
    (url target_path : string) (w : W) :
  let '(r, w', asked) := run env (download_blob url target_path) w in
  (let '(tried, w0, asked0) := run env (download_blob_try url target_path) w in
   r = match tried with
       | Done a => Done a
       | Failed e =>
           if is_class ResourceNotFoundError e
           then Failed (new_ResourceNotExistException (store_text e))
           else Failed e
       end
   /\ w' = w0 /\ asked = asked0)
  /\ raises_class ResourceNotFoundError r = false
  /\ (let '(client, w1) := env (BlobFromUrl url) w in
      let '(opened, w2) := env (OpenWrite target_path) w1 in
      let '(downloaded, w3) := env (DownloadBlob url) w2 in
      let '(closed, _) := env (CloseFile target_path) w3 in
      forall e,
        client = Done tt -> opened = Done tt -> downloaded = Failed e ->
        closed = Done tt -> store_class_of e = ResourceNotFoundError ->
        r = Failed (new_ResourceNotExistException (store_text e))).
Proof.
  assert (Htried :
            let '(client, w1) := env (BlobFromUrl url) w in
            let '(opened, w2) := env (OpenWrite target_path) w1 in
            let '(downloaded, w3) := env (DownloadBlob url) w2 in
            let '(closed, _) := env (CloseFile target_path) w3 in
            forall e,
              client = Done tt -> opened = Done tt -> downloaded = Failed e ->
              closed = Done tt ->
              (run env (download_blob_try url target_path) w).1.1 = Failed e).
  { unfold download_blob_try, and_then, closing, throw, pure, ask. simpl.
    destruct (env (BlobFromUrl url) w) as [[[] | e1] w1]; simpl;
      destruct (env (OpenWrite target_path) w1) as [[[] | e2] w2]; simpl;
      destruct (env (DownloadBlob url) w2) as [[[] | e3] w3]; simpl;
      try destruct (env (ReadInto url target_path) w3) as [[[] | e4] w4]; simpl;
      destruct (env (CloseFile target_path) w3) as [closed w5]; simpl;
      intros e Hclient Hopened Hdownloaded Hclosed;
      try discriminate Hclient; try discriminate Hopened;
      try discriminate Hdownloaded.
    all: injection Hdownloaded as ->; by rewrite Hclosed. }
  unfold download_blob. rewrite run_try_except.
  destruct (run env (download_blob_try url target_path) w)
    as [[tried w0] asked0].
  destruct (env (BlobFromUrl url) w) as [client w1].
  destruct (env (OpenWrite target_path) w1) as [opened w2].
  destruct (env (DownloadBlob url) w2) as [downloaded w3].
  destruct (env (CloseFile target_path) w3) as [closed w4].
  destruct tried as [a | e0]; simpl in Htried |- *.
  - split; [done |]. split; [done |].
    intros e Hclient Hopened Hdownloaded Hclosed _.
    discriminate (Htried e Hclient Hopened Hdownloaded Hclosed).
  - destruct (is_class ResourceNotFoundError e0) eqn:Hclass0; simpl.
    + rewrite app_nil_r. split; [done |]. split; [done |].
      intros e Hclient Hopened Hdownloaded Hclosed _.
      by injection (Htried e Hclient Hopened Hdownloaded Hclosed) as ->.
    + rewrite app_nil_r. split; [done |]. split; [exact Hclass0 |].
      intros e Hclient Hopened Hdownloaded Hclosed Hclass.
      injection (Htried e Hclient Hopened Hdownloaded Hclosed) as ->.
      unfold is_class in Hclass0. by rewrite Hclass, bool_decide_eq_true_2 in Hclass0.
Qed.


(** *** What a program asks for *)

Lemma asks_only_Finish {R} (P : event -> Prop) (r : R) :
  asks_only env P (Finish r).
Proof. intros w. constructor. Qed.

Lemma asks_only_Ask {R} (P : event -> Prop) (ev : event)
    (k : answer Doc ev -> interaction Doc R) :
  P ev -> (forall x, asks_only env P (k x)) -> asks_only env P (Ask ev k).
Proof.
  intros Hev Hk w. simpl. destruct (env ev w) as [x w'].
  specialize (Hk x w'). destruct (run env (k x) w') as [[r w''] asked].
  by constructor.
Qed.

Lemma asks_only_then {R R'} (P : event -> Prop) (p : interaction Doc R)
    (f : R -> interaction Doc R') :
  asks_only env P p -> (forall r, asks_only env P (f r)) ->
  asks_only env P (then_ p f).
Proof.
  intros Hp Hf w. rewrite run_then. specialize (Hp w).
  destruct (run env p w) as [[r w1] asked1]. specialize (Hf r w1).
  destruct (run env (f r) w1) as [[r' w2] asked2]. simpl in *.
  apply Forall_app. by split.
Qed.

Lemma asks_only_and_then {A B} (P : event -> Prop) (p : io Doc A)
    (f : A -> io Doc B) :
  asks_only env P p -> (forall a, asks_only env P (f a)) ->
  asks_only env P (and_then p f).
Proof.
  intros Hp Hf. apply asks_only_then; [exact Hp |].
  intros [a | e]; [apply Hf | apply asks_only_Finish].
Qed.

Lemma asks_only_try_except {A} (P : event -> Prop) (p : io Doc A)
    (handler : store_exn -> io Doc A) :
  asks_only env P p -> (forall e, asks_only env P (handler e)) ->
  asks_only env P (try_except p handler).
Proof.
  intros Hp Hh. apply asks_only_then; [exact Hp |].
  intros [a | e]; [apply asks_only_Finish | apply Hh].
Qed.

Lemma asks_only_closing {A} (P : event -> Prop) (path : string) (body : io Doc A) :
  P (CloseFile path) -> asks_only env P body ->
  asks_only env P (closing path body).
Proof.
  intros Hclose Hbody. apply asks_only_then; [exact Hbody |].
  intros r. apply asks_only_then.
  - apply asks_only_Ask; [exact Hclose | intros x; apply asks_only_Finish].
  - intros [[] | e]; apply asks_only_Finish.
Qed.

(** *** Loading from the disk *)

Lemma load_listed_asks_reads (version meta_dir : string) (lines : list string) :
  forall metas : dict Doc,
    asks_only env (fun ev => only_reads ev = true)
              (load_listed version meta_dir lines metas).
Proof.
  induction lines as [|line lines IH]; intros metas; simpl.
  - apply asks_only_Finish.
  - apply asks_only_and_then; [| exact IH].
    unfold load_listed_file, load_into.
    apply asks_only_then.
    + apply asks_only_then.
      * apply asks_only_Ask; [done | intros x; apply asks_only_Finish].
      * intros [[] | e]; [| apply asks_only_Finish].
        apply asks_only_then.
        -- apply asks_only_Ask; [done | intros x; apply asks_only_Finish].
        -- intros loaded. destruct loaded as [doc | e];
             (apply asks_only_then;
              [ apply asks_only_Ask; [done | intros x; apply asks_only_Finish]
              | intros [[] | e']; apply asks_only_Finish ]).
    + intros [metas' [[] | e]]; [apply asks_only_Finish |].
      destruct (is_class FileNotFoundError e || is_class JSONDecodeError e);
        [| apply asks_only_Finish].
      apply asks_only_then.
      * apply asks_only_Ask; [done | intros x; apply asks_only_Finish].
      * intros x. apply asks_only_Finish.
Qed.

Lemma load_metas_from_disk_asks_reads (version meta_dir : string) :
  asks_only env (fun ev => only_reads ev = true)
            (load_metas_from_disk (Doc := Doc) version meta_dir).
Proof.
  unfold load_metas_from_disk.
  apply asks_only_then.
  - apply asks_only_Ask; [done | intros x; apply asks_only_Finish].
  - intros [|]; simpl; [| apply asks_only_Finish].
    apply asks_only_and_then; [| intros metas; apply asks_only_Finish].
    apply asks_only_and_then.
    + apply asks_only_Ask; [done | intros x; apply asks_only_Finish].
    + intros _. apply asks_only_closing; [done |].
      apply asks_only_and_then.
      * apply asks_only_Ask; [done | intros x; apply asks_only_Finish].
      * intros lines. apply load_listed_asks_reads.
Qed.

(** X12.  Loading from the disk only reads.  Whatever the environment
    answers, [load_metas_from_disk] asks for nothing that reaches the blob
    store or changes the disk. *)
Theorem load_metas_from_disk_only_reads (version meta_dir : string) (w : W) :
  Forall (fun ev => uses_network ev = false /\ writes_disk ev = false)
         (run env (load_metas_from_disk (Doc := Doc) version meta_dir) w).2.
Proof.
  eapply Forall_impl; [apply (load_metas_from_disk_asks_reads version meta_dir w) |].
  intros ev Hev. unfold only_reads in Hev.
  by apply negb_true_iff, orb_false_elim in Hev.
Qed.

(** X13.  A warm cache is all [load_metas] touches.  When the first load
    from the disk yields at least one document, [load_metas] returns that
    result having asked for nothing else: nothing is fetched and nothing
    on the disk is changed. *)
Theorem load_metas_warm_cache
    (version meta_dir : string) (w w1 : W)
    (entry : string * Doc) (rest : dict Doc) (asked : list event) :
  run env (load_metas_from_disk version meta_dir) w
  = (Done (Some (entry :: rest)), w1, asked) ->
  run env (load_metas version meta_dir) w
  = (Done (Some (entry :: rest)), w1, asked)
  /\ Forall (fun ev => uses_network ev = false /\ writes_disk ev = false) asked.
Proof.
  intros Hfirst. split.
  - unfold load_metas. rewrite run_and_then, Hfirst. simpl. by rewrite app_nil_r.
  - pose proof (load_metas_from_disk_asks_reads version meta_dir w) as H.
    rewrite Hfirst in H. simpl in H.
    eapply Forall_impl; [exact H |].
    intros ev Hev. unfold only_reads in Hev.
    by apply negb_true_iff, orb_false_elim in Hev.
Qed.

(** *** A disk that does not change under the loader *)

Lemma run_ask (ev : event) (w : W) :
  run env (ask ev) w = ((env ev w).1, (env ev w).2, [ev]).
Proof. simpl. by destruct (env ev w). Qed.

Section StableDisk.

Variables (version meta_dir : string) (lines : list string).
Variable opens : string -> outcome unit.
Variable loads : string -> outcome Doc.

Hypothesis index_exists :
  forall w, (env (PathExists (version_file meta_dir version "index.txt")) w).1 = true.
Hypothesis open_answers : forall path w, (env (OpenRead path) w).1 = opens path.
Hypothesis load_answers : forall path w, (env (JsonLoad path) w).1 = loads path.
Hypothesis close_answers : forall path w, (env (CloseFile path) w).1 = Done tt.
Hypothesis index_lines :
  forall w, (env (ReadLines (version_file meta_dir version "index.txt")) w).1
            = Done lines.
Hypothesis index_opens : opens (version_file meta_dir version "index.txt") = Done tt.

Lemma load_listed_file_stable (name : string) (metas : dict Doc) (w : W) :
  (forall e,
      opens (version_file meta_dir version name) = Failed e
      \/ loads (version_file meta_dir version name) = Failed e ->
      store_class_of e = FileNotFoundError \/ store_class_of e = JSONDecodeError) ->
  exists w' asked,
    run env (load_listed_file version meta_dir name metas) w
    = (Done (match read_document opens loads (version_file meta_dir version name) with
             | Some doc => dict_set name doc metas
             | None => metas
             end), w', asked).
Proof.
  intros Hclass.
  assert (Hcaught : forall e,
             opens (version_file meta_dir version name) = Failed e
             \/ loads (version_file meta_dir version name) = Failed e ->
             is_class FileNotFoundError e || is_class JSONDecodeError e = true).
  { intros e He. unfold is_class.
    destruct (Hclass e He) as [-> | ->]; reflexivity. }
  unfold load_listed_file, load_into, read_document. simpl.
  pose proof (open_answers (version_file meta_dir version name) w) as Hopen.
  destruct (env (OpenRead _) w) as [opened w1]. simpl in Hopen. subst opened.
  destruct (opens (version_file meta_dir version name)) as [[] | e] eqn:Hopens; simpl.
  - pose proof (load_answers (version_file meta_dir version name) w1) as Hload.
    destruct (env (JsonLoad _) w1) as [loaded w2]. simpl in Hload. subst loaded.
    destruct (loads (version_file meta_dir version name)) as [doc | e] eqn:Hloads;
      simpl;
      pose proof (close_answers (version_file meta_dir version name) w2) as Hclose;
      destruct (env (CloseFile _) w2) as [closed w3]; simpl in Hclose; subst closed;
      simpl; [by eauto |].
    rewrite (Hcaught e (or_intror eq_refl)). simpl.
    destruct (env (LogError _) w3) as [[] w4]. simpl. by eauto.
  - rewrite (Hcaught e (or_introl eq_refl)). simpl.
    destruct (env (LogError _) w1) as [[] w2]. simpl. by eauto.
Qed.

Lemma load_listed_stable (listed : list string) :
  (forall line e,
      In line listed ->
      opens (version_file meta_dir version (strip line)) = Failed e
      \/ loads (version_file meta_dir version (strip line)) = Failed e ->
      store_class_of e = FileNotFoundError \/ store_class_of e = JSONDecodeError) ->
  forall (metas : dict Doc) (w : W),
  exists metas' w' asked,
    run env (load_listed version meta_dir listed metas) w = (Done metas', w', asked)
    /\ forall name,
        dict_get name metas'
        = match (if bool_decide (name ∈ map strip listed)
                 then read_document opens loads (version_file meta_dir version name)
                 else None) with
          | Some doc => Some doc
          | None => dict_get name metas
          end.
Proof.
  induction listed as [|line listed IH]; intros Hclass metas w.
  - exists metas, w, []. split; [done |]. by intros name.
  - destruct (load_listed_file_stable (strip line) metas w) as (w1 & asked1 & Hstep).
    { intros e. apply (Hclass line). by left. }
    destruct (IH (fun l e Hin => Hclass l e (or_intror Hin))
                 (match read_document opens loads
                          (version_file meta_dir version (strip line)) with
                  | Some doc => dict_set (strip line) doc metas
                  | None => metas
                  end) w1)
      as (metas' & w' & asked' & Hrest & Hget).
    exists metas', w', (asked1 ++ asked'). split.
    + change (load_listed version meta_dir (line :: listed) metas)
        with (and_then (load_listed_file version meta_dir (strip line) metas)
                       (load_listed version meta_dir listed)).
      by rewrite run_and_then, Hstep, Hrest.
    + intros name. rewrite Hget. simpl map.
      destruct (bool_decide (name ∈ map strip listed)) eqn:Hin.
      * apply bool_decide_eq_true in Hin.
        rewrite (bool_decide_eq_true_2 (name ∈ strip line :: map strip listed))
          by (by right).
        destruct (read_document opens loads (version_file meta_dir version name))
          as [doc|] eqn:Hread; [done |].
        destruct (decide (strip line = name)) as [-> | Hne].
        -- by rewrite Hread.
        -- destruct (read_document opens loads
                       (version_file meta_dir version (strip line))); [| done].
           by apply dict_get_set_ne.
      * apply bool_decide_eq_false in Hin.
        destruct (decide (strip line = name)) as [-> | Hne].
        -- rewrite (bool_decide_eq_true_2 (name ∈ name :: map strip listed))
             by (by left).
           destruct (read_document opens loads (version_file meta_dir version name))
             as [doc|]; [| done].
           by apply dict_get_set_eq.
        -- rewrite (bool_decide_eq_false_2 (name ∈ strip line :: map strip listed))
             by (by intros [? | ?]%elem_of_cons).
           destruct (read_document opens loads
                       (version_file meta_dir version (strip line))); [| done].
           by apply dict_get_set_ne.
Qed.

(** X14.  A listed file that is missing or is not JSON is skipped, and
    the others are loaded.  On a disk that answers the same way throughout
    the call, with an index that is there and opens, closings that succeed,
    and listed files that fail, if they fail, with a [FileNotFoundError]
    or a [JSONDecodeError]: [load_metas_from_disk] returns a dictionary,
    and it holds a document under a name exactly when the index lists the
    name, stripped of spaces and newlines, and the file of that name opens
    and parses to that document. *)
Theorem load_metas_from_disk_skips_unreadable (w : W) :
  (forall line e,
      In line lines ->
      opens (version_file meta_dir version (strip line)) = Failed e
      \/ loads (version_file meta_dir version (strip line)) = Failed e ->
      store_class_of e = FileNotFoundError \/ store_class_of e = JSONDecodeError) ->
  exists metas,
    (run env (load_metas_from_disk version meta_dir) w).1.1 = Done (Some metas)
    /\ forall name doc,
        dict_get name metas = Some doc
        <-> In name (map strip lines)
            /\ read_document opens loads (version_file meta_dir version name)
               = Some doc.
Proof.
  intros Hclass.
  unfold load_metas_from_disk. rewrite run_then, (run_ask (PathExists _)).
  rewrite index_exists. simpl negb. cbv iota.
  rewrite run_and_then, run_and_then, (run_ask (OpenRead _)).
  rewrite open_answers, index_opens.
  unfold closing. rewrite run_then, run_and_then, (run_ask (ReadLines _)).
  rewrite index_lines.
  destruct (load_listed_stable lines Hclass []
              (env (ReadLines (version_file meta_dir version "index.txt"))
                   (env (OpenRead (version_file meta_dir version "index.txt"))
                        (env (PathExists (version_file meta_dir version "index.txt"))
                             w).2).2).2)
    as (metas & w' & asked & Hrun & Hget).
  rewrite Hrun. rewrite run_then, (run_ask (CloseFile _)), close_answers. simpl.
  exists metas. split; [done |].
  intros name doc. rewrite Hget. simpl.
  destruct (bool_decide (name ∈ map strip lines)) eqn:Hin.
  - apply bool_decide_eq_true, list_elem_of_In in Hin.
    destruct (read_document opens loads (version_file meta_dir version name)) as [doc'|].
    + split; [by intros [= ->] | by intros [_ [= ->]]].
    + split; [done | by intros [_ ?]].
  - apply bool_decide_eq_false in Hin. rewrite list_elem_of_In in Hin.
    split; [done | by intros [? _]].
Qed.

End StableDisk.

(** *** A blob store that lacks some of the listed files *)

Lemma requested_app (asked asked' : list event) :
  requested (asked ++ asked') = requested asked ++ requested asked'.
Proof. apply omap_app. Qed.

Section BlobStore.

Variables (version target_dir : string) (lines : list string).

Hypothesis client_answers : forall url w, (env (BlobFromUrl url) w).1 = Done tt.
Hypothesis write_answers : forall path w, (env (OpenWrite path) w).1 = Done tt.
Hypothesis readinto_answers :
  forall url path w, (env (ReadInto url path) w).1 = Done tt.
Hypothesis close_answers : forall path w, (env (CloseFile path) w).1 = Done tt.
Hypothesis makedirs_answers : forall path w, (env (MakeDirs path) w).1 = Done tt.
Hypothesis index_opens :
  forall w, (env (OpenRead (version_file target_dir version "index.txt")) w).1
            = Done tt.
Hypothesis index_lines :
  forall w, (env (ReadLines (version_file target_dir version "index.txt")) w).1
            = Done lines.
Hypothesis index_blob :
  forall w, (env (DownloadBlob (blob_url version "index.txt")) w).1 = Done tt.
Hypothesis missing_blobs :
  forall url w e,
    (env (DownloadBlob url) w).1 = Failed e ->
    store_class_of e = ResourceNotFoundError.

Lemma download_blob_up (url path : string) (w : W) :
  exists r w' asked,
    run env (download_blob url path) w = (r, w', asked)
    /\ requested asked = [url]
    /\ (r = Done tt \/ exists text, r = Failed (new_ResourceNotExistException text))
    /\ ((forall w0, (env (DownloadBlob url) w0).1 = Done tt) -> r = Done tt).
Proof.
  unfold download_blob, download_blob_try, try_except, and_then, closing, throw,
    pure, ask. simpl.
  pose proof (client_answers url w) as H1.
  destruct (env (BlobFromUrl url) w) as [x1 w1]. simpl in H1. subst x1. simpl.
  pose proof (write_answers path w1) as H2.
  destruct (env (OpenWrite path) w1) as [x2 w2]. simpl in H2. subst x2. simpl.
  pose proof (missing_blobs url w2) as Hmissing.
  destruct (env (DownloadBlob url) w2) as [[[] | e] w3] eqn:Hblob; simpl.
  - pose proof (readinto_answers url path w3) as H4.
    destruct (env (ReadInto url path) w3) as [x4 w4]. simpl in H4. subst x4. simpl.
    pose proof (close_answers path w4) as H5.
    destruct (env (CloseFile path) w4) as [x5 w5]. simpl in H5. subst x5. simpl.
    do 3 eexists. split; [reflexivity |]. split; [reflexivity |]. split; [by left | done].
  - pose proof (close_answers path w3) as H5.
    destruct (env (CloseFile path) w3) as [x5 w5]. simpl in H5. subst x5. simpl.
    unfold is_class. rewrite (Hmissing e eq_refl). simpl.
    do 3 eexists. split; [reflexivity |]. split; [reflexivity |].
    split; [right; by eexists |].
    intros Hup. specialize (Hup w2). rewrite Hblob in Hup. discriminate.
Qed.

Lemma download_or_log_up (url path message : string) (w : W) :
  exists w' asked,
    run env (download_or_log url path message) w = (Done tt, w', asked)
    /\ requested asked = [url].
Proof.
  unfold download_or_log. rewrite run_try_except.
  destruct (download_blob_up url path w) as (r & w1 & asked1 & -> & Hreq & Hr & _).
  destruct Hr as [-> | [text ->]].
  - by eauto.
  - simpl. destruct (env (LogError message) w1) as [[] w2]. simpl.
    do 2 eexists. split; [reflexivity |].
    by rewrite requested_app, Hreq.
Qed.

Lemma fetch_listed_up (listed : list string) (w : W) :
  exists w' asked,
    run env
      (for_io (fun file_name =>
                 let file_name := strip file_name in
                 download_or_log
                   (blob_url version file_name)
                   (version_file target_dir version file_name)
                   ("`azure-cli-" +:+ version +:+ "/" +:+ file_name
                    +:+ "` not Found"))
              listed) w
    = (Done tt, w', asked)
    /\ requested asked = map (fun line => blob_url version (strip line)) listed.
Proof.
  revert w. induction listed as [|line listed IH]; intros w.
  - by exists w, [].
  - cbn [for_io]. rewrite run_and_then. cbv zeta.
    destruct (download_or_log_up
                (blob_url version (strip line))
                (version_file target_dir version (strip line))
                ("`azure-cli-" +:+ version +:+ "/" +:+ strip line +:+ "` not Found")
                w) as (w1 & asked1 & -> & Hreq1).
    destruct (IH w1) as (w2 & asked2 & Hrun & Hreq2).
    cbv zeta in Hrun. rewrite Hrun. do 2 eexists. split; [reflexivity |].
    by rewrite requested_app, Hreq1, Hreq2.
Qed.

(** X15.  A listed file that the blob store lacks does not stop the
    fetch.  When the only operation that fails is the download of a blob,
    when it fails with the SDK's [ResourceNotFoundError], and when the
    index itself downloads: [fetch_metas] returns, and it has asked for the
    index and then for every line of the index, stripped of spaces and
    newlines, in order. *)
Theorem fetch_metas_tolerates_missing_blobs (w : W) :
  let '(r, _, asked) := run env (fetch_metas version target_dir) w in
  r = Done tt
  /\ requested asked
     = blob_url version "index.txt"
       :: map (fun line => blob_url version (strip line)) lines.
Proof.
  unfold fetch_metas. rewrite run_and_then.
  assert (Hdir : exists w1 asked1,
             run env (ensure_dir (version_dir target_dir version)) w
             = (Done tt, w1, asked1) /\ requested asked1 = []).
  { unfold ensure_dir. rewrite run_then, (run_ask (PathExists _)).
    destruct (env (PathExists _) w) as [[|] w0]; simpl.
    - by eauto.
    - pose proof (makedirs_answers (version_dir target_dir version) w0) as Hmk.
      destruct (env (MakeDirs _) w0) as [x w1]. simpl in Hmk. subst x.
      by eauto. }
  destruct Hdir as (w1 & asked1 & -> & Hreq1).
  rewrite run_and_then.
  destruct (download_blob_up (blob_url version "index.txt")
              (version_file target_dir version "index.txt") w1)
    as (r & w2 & asked2 & -> & Hreq2 & _ & Hindex).
  rewrite (Hindex index_blob).
  rewrite run_and_then, (run_ask (OpenRead _)), index_opens.
  unfold closing. rewrite run_then, run_and_then, (run_ask (ReadLines _)), index_lines.
  destruct (fetch_listed_up lines
              (env (ReadLines (version_file target_dir version "index.txt"))
                   (env (OpenRead (version_file target_dir version "index.txt"))
                        w2).2).2)
    as (w3 & asked3 & Hrun & Hreq3).
  cbv zeta in Hrun. rewrite Hrun, run_then, (run_ask (CloseFile _)), close_answers.
  cbn -[requested]. split; [done |].
  rewrite !requested_app, Hreq1, Hreq2. unfold requested in *. simpl.
  rewrite omap_app, Hreq3. simpl. by rewrite app_nil_r.
Qed.

End BlobStore.

(** *** One document *)

Lemma requested_only_reads (asked : list event) :
  Forall (fun ev => only_reads ev = true) asked -> requested asked = [].
Proof.
  induction 1 as [|ev asked Hev _ IH]; [done |].
  destruct ev; try discriminate Hev; exact IH.
Qed.

Lemma load_meta_from_disk_asks_reads (version module meta_dir : string) :
  asks_only env (fun ev => only_reads ev = true)
            (load_meta_from_disk (Doc := Doc) version module meta_dir).
Proof.
  unfold load_meta_from_disk. apply asks_only_try_except.
  - apply asks_only_and_then.
    + apply asks_only_Ask; [done | intros x; apply asks_only_Finish].
    + intros _. apply asks_only_closing; [done |].
      apply asks_only_and_then.
      * apply asks_only_Ask; [done | intros x; apply asks_only_Finish].
      * intros doc. apply asks_only_Finish.
  - intros e.
    destruct (is_class FileNotFoundError e || is_class JSONDecodeError e);
      [| apply asks_only_Finish].
    apply asks_only_then.
    + apply asks_only_Ask; [done | intros x; apply asks_only_Finish].
    + intros x. apply asks_only_Finish.
Qed.

(** X16.  [load_meta_from_disk] keeps a missing or malformed file to
    itself.  Whatever the environment answers, a call does not end with a
    [FileNotFoundError] or a [JSONDecodeError], and it asks for nothing
    that reaches the blob store or changes the disk. *)
Theorem load_meta_from_disk_contains_read_failures
    (version module meta_dir : string) (w : W) :
  let '(r, _, asked) :=
    run env (load_meta_from_disk (Doc := Doc) version module meta_dir) w in
  raises_class FileNotFoundError r = false
  /\ raises_class JSONDecodeError r = false
  /\ Forall (fun ev => uses_network ev = false /\ writes_disk ev = false) asked.
Proof.
  pose proof (load_meta_from_disk_asks_reads version module meta_dir w) as Hreads.
  revert Hreads. unfold load_meta_from_disk. rewrite run_try_except.
  destruct (run env _ w) as [[[a | e] w1] asked1]; simpl.
  - intros Hreads. split; [done |]. split; [done |].
    eapply Forall_impl; [exact Hreads |].
    intros ev Hev. unfold only_reads in Hev.
    by apply negb_true_iff, orb_false_elim in Hev.
  - destruct (is_class FileNotFoundError e) eqn:Hmissing;
      [| destruct (is_class JSONDecodeError e) eqn:Hjson]; simpl;
      try (destruct (env (LogError _) w1) as [[] w2]; simpl);
      intros Hreads; (split; [done |]); (split; [done |]);
      (eapply Forall_impl; [exact Hreads |]);
      intros ev Hev; unfold only_reads in Hev;
      by apply negb_true_iff, orb_false_elim in Hev.
Qed.

Lemma download_blob_requested (url path : string) (w : W) :
  requested (run env (download_blob url path) w).2 = [url].
Proof.
  unfold download_blob, download_blob_try, try_except, and_then, closing, throw,
    pure, ask. simpl.
  destruct (env (BlobFromUrl url) w) as [[[] | e1] w1]; simpl;
    [| by destruct (is_class ResourceNotFoundError e1)].
  destruct (env (OpenWrite path) w1) as [[[] | e2] w2]; simpl;
    [| by destruct (is_class ResourceNotFoundError e2)].
  destruct (env (DownloadBlob url) w2) as [[[] | e3] w3]; simpl.
  - destruct (env (ReadInto url path) w3) as [[[] | e4] w4]; simpl;
      destruct (env (CloseFile path) w4) as [[[] | e5] w5]; simpl;
      try destruct (is_class ResourceNotFoundError e5);
      try destruct (is_class ResourceNotFoundError e4); done.
  - destruct (env (CloseFile path) w3) as [[[] | e5] w5]; simpl;
      try destruct (is_class ResourceNotFoundError e5);
      try destruct (is_class ResourceNotFoundError e3); done.
Qed.

Lemma fetch_meta_requested (version module target_dir : string) (w : W) :
  requested (run env (fetch_meta version module target_dir) w).2 = []
  \/ requested (run env (fetch_meta version module target_dir) w).2
     = [blob_url version ("az_" +:+ module +:+ "_meta.json")].
Proof.
  unfold fetch_meta. rewrite run_and_then.
  assert (Hdir : requested (run env (ensure_dir (version_dir target_dir version)) w).2
                 = []).
  { unfold ensure_dir. rewrite run_then, (run_ask (PathExists _)).
    destruct (env (PathExists _) w) as [[|] w0]; simpl; [done |].
    by destruct (env (MakeDirs _) w0) as [x w1]. }
  destruct (run env (ensure_dir _) w) as [[[[] | e] w1] asked1];
    cbn [snd] in Hdir; cbv beta iota zeta; [| by left].
  right. unfold download_or_log. rewrite run_try_except.
  pose proof (download_blob_requested
                (blob_url version ("az_" +:+ module +:+ "_meta.json"))
                (version_file target_dir version ("az_" +:+ module +:+ "_meta.json"))
                w1) as Hblob.
  destruct (run env (download_blob _ _) w1) as [[[[] | e] w2] asked2];
    simpl in Hblob |- *.
  - by rewrite requested_app, Hdir, Hblob.
  - destruct (is_class ResourceNotExistException e); simpl.
    + destruct (env (LogError _) w2) as [[] w3]. simpl.
      by rewrite !requested_app, Hdir, Hblob.
    + by rewrite !requested_app, Hdir, Hblob.
Qed.

(** X17.  [load_meta] asks the blob store for at most one blob, the
    file of the module.  Whatever the environment answers and whatever
    counts as an empty document, the blobs a call asks for are none, or
    the one blob [az_<module>_meta.json] of the version. *)
Theorem load_meta_requests_at_most_one_blob
    (truthy : Doc -> bool) (version module meta_dir : string) (w : W) :
  let asked := (run env (load_meta truthy version module meta_dir) w).2 in
  requested asked = []
  \/ requested asked = [blob_url version ("az_" +:+ module +:+ "_meta.json")].
Proof.
  cbv zeta. unfold load_meta. rewrite run_and_then.
  pose proof (requested_only_reads _
                (load_meta_from_disk_asks_reads version module meta_dir w)) as Hfirst.
  destruct (run env (load_meta_from_disk version module meta_dir) w)
    as [[[meta | e] w1] asked1]; cbn [snd] in Hfirst; cbv beta iota; [| by left].
  destruct (not_meta truthy meta);
    [| left; cbn -[requested]; by rewrite app_nil_r].
  rewrite run_and_then.
  pose proof (fetch_meta_requested version module meta_dir w1) as Hfetch.
  destruct (run env (fetch_meta version module meta_dir) w1)
    as [[[[] | e] w2] asked2]; cbn [snd] in Hfetch; cbv beta iota.
  - pose proof (requested_only_reads _
                  (load_meta_from_disk_asks_reads version module meta_dir w2))
      as Hsecond.
    destruct (run env (load_meta_from_disk version module meta_dir) w2)
      as [[r w3] asked3]; cbn [snd] in Hsecond |- *.
    rewrite !requested_app, Hfirst, Hsecond, app_nil_r. exact Hfetch.
  - cbn [snd]. rewrite !requested_app, Hfirst. exact Hfetch.
Qed.

End StoreFacts.

(** The blob [az_gone_meta.json], which the store lacks. *)
Lemma download_blob_converts_ResourceNotFoundError_sample :
  (MetadataStore.run (Doc := string) StoreFixtures.one_blob_missing
     (MetadataStore.download_blob
        (MetadataStore.blob_url "2.50.0" "az_gone_meta.json")
        (MetadataStore.version_file "./cmd_meta" "2.50.0" "az_gone_meta.json"))
     tt).1.1
  = MetadataStore.Failed
      (MetadataStore.new_ResourceNotExistException
         "The specified blob does not exist.").
Proof.
  pose proof (download_blob_converts_ResourceNotFoundError
                (Doc := string) StoreFixtures.one_blob_missing
                (MetadataStore.blob_url "2.50.0" "az_gone_meta.json")
                (MetadataStore.version_file "./cmd_meta" "2.50.0" "az_gone_meta.json")
                tt) as H.
  destruct (MetadataStore.run _ _ tt) as [[r w'] asked].
  destruct H as (_ & _ & H).
  exact (H _ eq_refl eq_refl eq_refl eq_refl eq_refl).
Defined.

(** A disk that holds the index and the one document it lists. *)
Lemma load_metas_warm_cache_sample :
  exists asked,
    MetadataStore.run StoreFixtures.warm_disk
      (MetadataStore.load_metas "2.50.0" "./cmd_meta") tt
    = (MetadataStore.Done (Some [("az_vm_meta.json", "vm")]), tt, asked)
    /\ Forall (fun ev => MetadataStore.uses_network ev = false
                         /\ MetadataStore.writes_disk ev = false) asked.
Proof.
  eexists.
  refine (load_metas_warm_cache StoreFixtures.warm_disk "2.50.0" "./cmd_meta"
            tt tt ("az_vm_meta.json", "vm") [] _ _).
  vm_compute. reflexivity.
Defined.

(** An index of three files: the second is missing, the third is not
    JSON. *)
Lemma load_metas_from_disk_skips_unreadable_sample :
  exists metas,
    (MetadataStore.run StoreFixtures.flaky_disk
       (MetadataStore.load_metas_from_disk "2.50.0" "./cmd_meta") tt).1.1
    = MetadataStore.Done (Some metas)
    /\ forall name doc,
        dict_get name metas = Some doc
        <-> In name (map MetadataStore.strip
                         ["az_vm_meta.json"; "az_gone_meta.json"; "az_bad_meta.json"])
            /\ MetadataStore.read_document
                 StoreFixtures.opens_on_disk StoreFixtures.loads_on_disk
                 (MetadataStore.version_file "./cmd_meta" "2.50.0" name)
               = Some doc.
Proof.
  apply (load_metas_from_disk_skips_unreadable StoreFixtures.flaky_disk
           "2.50.0" "./cmd_meta"
           ["az_vm_meta.json"; "az_gone_meta.json"; "az_bad_meta.json"]
           StoreFixtures.opens_on_disk StoreFixtures.loads_on_disk).
  - intros w. reflexivity.
  - intros path w. reflexivity.
  - intros path w. reflexivity.
  - intros path w. reflexivity.
  - intros w. reflexivity.
  - reflexivity.
  - intros line e [<- | [<- | [<- | []]]] [H | H]; vm_compute in H;
      try discriminate H; injection H as <-; simpl; tauto.
Defined.

(** A blob store without the second of the three files its index
    lists. *)
Lemma fetch_metas_tolerates_missing_blobs_sample :
  let '(r, _, asked) :=
    MetadataStore.run (Doc := string) StoreFixtures.one_blob_missing
      (MetadataStore.fetch_metas "2.50.0" "./cmd_meta") tt in
  r = MetadataStore.Done tt
  /\ MetadataStore.requested asked
     = [MetadataStore.blob_url "2.50.0" "index.txt";
        MetadataStore.blob_url "2.50.0" "az_vm_meta.json";
        MetadataStore.blob_url "2.50.0" "az_gone_meta.json";
        MetadataStore.blob_url "2.50.0" "az_net_meta.json"].
Proof.
  apply (fetch_metas_tolerates_missing_blobs StoreFixtures.one_blob_missing
           "2.50.0" "./cmd_meta"
           ["az_vm_meta.json"; " az_gone_meta.json "; "az_net_meta.json"]).
  - intros url w. reflexivity.
  - intros path w. reflexivity.
  - intros url path w. reflexivity.
  - intros path w. reflexivity.
  - intros path w. reflexivity.
  - intros w. reflexivity.
  - intros w. reflexivity.
  - intros w. reflexivity.
  - intros url w e. simpl.
    destruct (bool_decide _); [| discriminate].
    intros H. injection H as <-. reflexivity.
Defined.
